(** * Named Entity Recognition dashboard ([app_Version2.py])

    A shallow embedding of the Streamlit script and the properties of its
    four result views, its model cache and its two error paths.

    Conventions.
    - A Python [str] is a Rocq [string] holding the UTF-8 bytes of the text
      (the convention of Rocq's own string literals).  Every character the
      script inspects one by one ([','], the double quote, ['\n'], ['\r'])
      is ASCII, and UTF-8 never uses an ASCII byte inside a longer
      sequence, so working on the bytes agrees with working on the code
      points; [str.encode()] is then the identity on the representation.
    - A [dict] whose iteration order is observed is an association list in
      insertion order; a [dict] that is only looked up is a [gmap].
    - The external libraries (spaCy, displaCy), the iteration order of a
      [set] and the host are parameters of a request; Streamlit calls are
      recorded, in order, in the trace of a run. *)

From stdpp Require Import gmap strings list pretty.
From Stdlib Require Import Ascii.

Local Open Scope list_scope.

Abbreviation list_ascii_of_string := String.list_ascii_of_string.
Abbreviation string_of_list_ascii := String.string_of_list_ascii.

(** ** Python strings *)

Module Py.

Definition LF : ascii := "010"%char.
Definition CR : ascii := "013"%char.
Definition DQUOTE : ascii := "034"%char.
Definition COMMA : ascii := ","%char.

Definition chr (c : ascii) : string := String c EmptyString.

(** [str.isspace] on one-byte characters: U+0009..U+000D, U+001C..U+001F
    and U+0020. *)
Definition space1 (c : ascii) : bool :=
  let n := N_of_ascii c in
  ((9 <=? n) && (n <=? 13) || (28 <=? n) && (n <=? 32))%N.

(** Two-byte whitespace: U+0085 (C2 85) and U+00A0 (C2 A0). *)
Definition space2 (c d : ascii) : bool :=
  let '(m, n) := (N_of_ascii c, N_of_ascii d) in
  ((m =? 194) && ((n =? 133) || (n =? 160)))%N.

(** Three-byte whitespace: U+1680 (E1 9A 80), U+2000..U+200A (E2 80 80..8A),
    U+2028, U+2029 (E2 80 A8, A9), U+202F (E2 80 AF), U+205F (E2 81 9F) and
    U+3000 (E3 80 80). *)
Definition space3 (c d e : ascii) : bool :=
  let '(m, n, o) := (N_of_ascii c, N_of_ascii d, N_of_ascii e) in
  ((m =? 225) && (n =? 154) && (o =? 128)
   || (m =? 226) && (n =? 128)
        && ((128 <=? o) && (o <=? 138) || (o =? 168) || (o =? 169) || (o =? 175))
   || (m =? 226) && (n =? 129) && (o =? 159)
   || (m =? 227) && (n =? 128) && (o =? 128))%N.

(** Drop whitespace characters from the front of a byte sequence.  The two
    recognisers are parameters so that the same scan serves from the right,
    where the bytes of a character arrive last byte first. *)
Fixpoint skip_spaces (sp2 : ascii → ascii → bool)
    (sp3 : ascii → ascii → ascii → bool) (s : list ascii) : list ascii :=
  match s with
  | [] => []
  | c :: s1 =>
      if space1 c then skip_spaces sp2 sp3 s1 else
      match s1 with
      | [] => s
      | d :: s2 =>
          if sp2 c d then skip_spaces sp2 sp3 s2 else
          match s2 with
          | [] => s
          | e :: s3 => if sp3 c d e then skip_spaces sp2 sp3 s3 else s
          end
      end
  end.

Definition lstrip_bytes : list ascii → list ascii := skip_spaces space2 space3.

Definition rstrip_bytes (s : list ascii) : list ascii :=
  rev (skip_spaces (λ c d, space2 d c) (λ c d e, space3 e d c) (rev s)).

(** [str.strip()] with no argument. *)
Definition strip (s : string) : string :=
  string_of_list_ascii (rstrip_bytes (lstrip_bytes (list_ascii_of_string s))).

(** Truth value of a string: [not s] holds of the empty string only. *)
Definition truthy (s : string) : bool :=
  match s with EmptyString => false | String _ _ => true end.

(** The whitespace characters, as byte sequences. *)
Inductive space_char : list ascii → Prop :=
  | space_char1 c : space1 c = true → space_char [c]
  | space_char2 c d : space2 c d = true → space_char [c; d]
  | space_char3 c d e : space3 c d e = true → space_char [c; d; e].

(** A text made of whitespace characters only (possibly none). *)
Inductive blank_bytes : list ascii → Prop :=
  | blank_nil : blank_bytes []
  | blank_app w s : space_char w → blank_bytes s → blank_bytes (w ++ s).

Definition blank (s : string) : Prop := blank_bytes (list_ascii_of_string s).

(** The byte sequences a scan with given recognisers skips: whitespace as
    [space2] and [space3] see it from the left, as their mirrors see it from
    the right. *)
Inductive spaces (sp2 : ascii → ascii → bool) (sp3 : ascii → ascii → ascii → bool)
    : list ascii → Prop :=
  | spaces_nil : spaces sp2 sp3 []
  | spaces_1 c s : space1 c = true → spaces sp2 sp3 s → spaces sp2 sp3 (c :: s)
  | spaces_2 c d s :
      sp2 c d = true → spaces sp2 sp3 s → spaces sp2 sp3 (c :: d :: s)
  | spaces_3 c d e s :
      sp3 c d e = true → spaces sp2 sp3 s → spaces sp2 sp3 (c :: d :: e :: s).

End Py.

(** The host the script runs on, as far as the script can tell: the family
    of the operating system, which fixes [os.linesep], and the generation of
    the interpreter, which fixes the quoting rule of the [csv] writer. *)
Inductive System := Posix | Windows.

(** CPython up to 3.12, and CPython 3.13 or later. *)
Inductive Python := Upto312 | From313.

Record Platform := { system : System; python : Python }.

(** [os.linesep] *)
Definition linesep (os : Platform) : string :=
  match system os with
  | Posix => Py.chr Py.LF
  | Windows => String Py.CR (Py.chr Py.LF)
  end.

(** Whether the [csv] writer treats a carriage return and a line feed as
    special whatever its line terminator is: it does since CPython 3.13. *)
Definition quotes_newlines (os : Platform) : bool :=
  match python os with
  | From313 => true
  | Upto312 => false
  end.

(** ** spaCy: documents and pipelines *)

(** An entity span as the script reads it: [ent.text] and [ent.label_]. *)
Record Span := { text : string; label_ : string }.

(** The result of [nlp(text)]: the text and [doc.ents], in document order. *)
Record Doc := { doc_text : string; ents : list Span }.

(** Python exceptions.  [StopException] is what [st.stop()] raises. *)
Inductive BaseException :=
  | OSError (msg : string)
  | ImportError (msg : string)
  | ValueError (msg : string)
  | MemoryError
  | KeyboardInterrupt
  | KeyError (key : string)
  | IndexError
  | StopException
  | OtherException (cls msg : string).

(** A loaded pipeline, called as [nlp(text)]. *)
Definition Language : Type := string → BaseException + Doc.

(** ** matplotlib: a figure is the list of the drawing calls made on it *)

Record Rectangle :=
  { rect_category : string; rect_centre : nat; rect_height : nat;
    rect_facecolor : string }.

Record Line2D := { line_label : string; markerfacecolor : string }.

Inductive Artist :=
  | Bar (r : Rectangle)
  | PathPoint (x y : nat) (c : string) (s : nat)
  | Annotation (txt : string) (xy : nat * nat) (xytext : nat * nat)
      (ha va : string)
  | Legend (handles : list Line2D) (title : string)
  | YLabel (s : string)
  | Title (s : string)
  | XTicksStyle (rotation : nat) (ha : string)
  | SetYTicks (ticks : list nat)
  | SetXTicks (ticks : list nat)
  | TightLayout.

Record Figure := { figsize : nat * nat; artists : list Artist }.

(** ** pandas *)

Record DataFrame := { columns : list string; data : list (list string) }.

(** ** Streamlit: containers, elements and the trace of a run *)

Inductive Container := Main | Sidebar | Tab (i : nat) | Expander (label : string).

Inductive Element :=
  | PageConfig (page_title layout : string)
  | StTitle (s : string)
  | StHeader (s : string)
  | StSubheader (s : string)
  | StMarkdown (body : string) (unsafe_allow_html : bool)
  | StSelectbox (label : string) (options : list string)
  | StTextArea (label : string) (height : nat) (value : string)
  | StButton (label : string)
  | StSuccess (s : string)
  | StError (s : string)
  | StInfo (s : string)
  | StTabs (labels : list string)
  | StDataframe (df : DataFrame) (use_container_width : bool)
  | StPyplot (fig : Figure)
  | StExpander (label : string).

Inductive Event :=
  | St (c : Container) (e : Element)
  | SpacyLoad (name : string)
  | CacheHit (name : string)
  | CacheStore (name : string)
  | Infer (txt : string)
  | DisplacyRender (doc : Doc).

(** What one run of the script receives from outside: the state of the three
    widgets, the behaviour of the libraries at that time, and the host. *)
Record Request :=
  { selected_model : string;            (* the option chosen in the selectbox *)
    typed_text : option string;         (* [None]: the text area is untouched *)
    button_clicked : bool;
    spacy_load : string → BaseException + Language;
    displacy_render : Doc → gmap string string → string;
    set_iter : list string → list string; (* iteration order of [set(l)] *)
    os : Platform;
    mathtext : string → option string }.  (* matplotlib's mathtext parser: the
                                            message of the [ValueError] it
                                            raises on a string it rejects *)

(** The process-wide store of [st.cache_resource] for [load_model]. *)
Abbreviation Cache := (gmap string Language).

(** ** The script monad: cache state, trace output, exceptions *)

Definition M (A : Type) : Type :=
  Cache → (BaseException + A) * Cache * list Event.

Definition ret {A} (a : A) : M A := λ σ, (inr a, σ, []).

Definition bind {A B} (m : M A) (k : A → M B) : M B := λ σ,
  match m σ with
  | (inr a, σ1, t1) => let '(r, σ2, t2) := k a σ1 in (r, σ2, t1 ++ t2)
  | (inl e, σ1, t1) => (inl e, σ1, t1)
  end.

Definition raise {A} (e : BaseException) : M A := λ σ, (inl e, σ, []).
Definition emit (ev : Event) : M unit := λ σ, (inr tt, σ, [ev]).
Definition get_cache : M Cache := λ σ, (inr σ, σ, []).
Definition put_cache (σ : Cache) : M unit := λ _, (inr tt, σ, []).

(** [try: body / except: handler], a bare [except], which catches every
    exception, [BaseException] included. *)
Definition try_except {A} (body handler : M A) : M A := λ σ,
  match body σ with
  | (inr a, σ1, t1) => (inr a, σ1, t1)
  | (inl _, σ1, t1) => let '(r, σ2, t2) := handler σ1 in (r, σ2, t1 ++ t2)
  end.

Declare Scope script_scope.
Delimit Scope script_scope with script.
Notation "x <- m ;; k" := (bind m (λ x, k))
  (at level 100, m at next level, right associativity) : script_scope.
Notation "m ;; k" := (bind m (λ _, k))
  (at level 100, right associativity) : script_scope.
Local Open Scope script_scope.

(** Lift a library call that may raise. *)
Definition call {A} (ev : Event) (r : BaseException + A) : M A :=
  emit ev ;; match r with inl e => raise e | inr a => ret a end.

Definition st (c : Container) (e : Element) : M unit := emit (St c e).

(** [st.stop()] *)
Definition st_stop {A} : M A := raise StopException.

(** ** Python containers used by the script *)

Global Instance nat_gt_dec (a b : nat) : Decision (a > b) := decide (b < a).

(** [d[k] = v] on an insertion-ordered [dict]: an existing key keeps its
    place, a new key goes last. *)
Fixpoint dict_setitem {V} (k : string) (v : V) (d : list (string * V))
    : list (string * V) :=
  match d with
  | [] => [(k, v)]
  | (k', v') :: d' =>
      if decide (k = k') then (k, v) :: d' else (k', v') :: dict_setitem k v d'
  end.

(** [d.get(k, dflt)] *)
Fixpoint dict_get {V} (d : list (string * V)) (k : string) (dflt : V) : V :=
  match d with
  | [] => dflt
  | (k', v') :: d' => if decide (k = k') then v' else dict_get d' k dflt
  end.

Definition keys {V} (d : list (string * V)) : list string := d.*1.
Definition values {V} (d : list (string * V)) : list V := d.*2.

(** [collections.Counter(iterable)]: for each element in turn,
    [self[elem] = self.get(elem, 0) + 1]. *)
Definition Counter (iterable : list string) : list (string * nat) :=
  fold_left (λ d elem, dict_setitem elem (dict_get d elem 0 + 1) d) iterable [].

(** [enumerate(l)] *)
Definition enumerate {A} (l : list A) : list (nat * A) := imap (λ i x, (i, x)) l.

(** [{k: i for i, k in enumerate(l)}]: a later pair overwrites an earlier one
    with the same key. *)
Definition index_dict (l : list string) : gmap string nat :=
  fold_left (λ m p, <[p.2 := p.1]> m) (enumerate l) ∅.

(** [d[k]] on a dict that is only read. *)
Definition getitem (d : gmap string nat) (k : string) : M nat :=
  match d !! k with Some v => ret v | None => raise (KeyError k) end.

(** [l[i]] *)
Definition index {A} (l : list A) (i : nat) : M A :=
  match l !! i with Some v => ret v | None => raise IndexError end.

(** A list comprehension whose body may raise. *)
Fixpoint comprehension {A B} (f : A → M B) (l : list A) : M (list B) :=
  match l with
  | [] => ret []
  | x :: l' => y <- f x ;; ys <- comprehension f l' ;; ret (y :: ys)
  end.

(** ** The [csv] writer behind [DataFrame.to_csv] *)

Module Csv.

Definition delimiter : ascii := Py.COMMA.
Definition quotechar : ascii := Py.DQUOTE.

Definition in_string (c : ascii) (s : string) : bool :=
  existsb (Ascii.eqb c) (list_ascii_of_string s).

Section writer.
(** The writer's [lineterminator], and whether it is the writer of CPython
    3.13 or later. *)
Context (lineterminator : string) (newlines : bool).

(** [QUOTE_MINIMAL]: the characters that force a field into quotes are the
    delimiter, the quote character and the characters of the line
    terminator; since CPython 3.13 also ['\n'] and ['\r'], whatever the line
    terminator is. *)
Definition special (c : ascii) : bool :=
  Ascii.eqb c delimiter || Ascii.eqb c quotechar
  || newlines && (Ascii.eqb c Py.LF || Ascii.eqb c Py.CR)
  || in_string c lineterminator.

Definition has_special (s : string) : bool :=
  existsb special (list_ascii_of_string s).

(** [doublequote=True]: a quote character inside a field is written twice. *)
Fixpoint double_quotes (s : string) : string :=
  match s with
  | EmptyString => EmptyString
  | String c s' =>
      if Ascii.eqb c quotechar then String c (String c (double_quotes s'))
      else String c (double_quotes s')
  end.

Definition write_field (s : string) : string :=
  if has_special s
  then String quotechar (double_quotes s +:+ Py.chr quotechar)
  else s.

(** [sep.join(l)] *)
Fixpoint join (sep : string) (l : list string) : string :=
  match l with
  | [] => EmptyString
  | [x] => x
  | x :: l' => x +:+ sep +:+ join sep l'
  end.

(** [writer.writerow(fields)].  A row that would come out empty although it
    has a field (a single empty field) is written as an empty quoted field. *)
Definition writerow (fields : list string) : string :=
  let line := join (Py.chr delimiter) (write_field <$> fields) in
  match fields, line with
  | _ :: _, EmptyString => Py.chr quotechar +:+ Py.chr quotechar +:+ lineterminator
  | _, _ => line +:+ lineterminator
  end.

Fixpoint concat (l : list string) : string :=
  match l with
  | [] => EmptyString
  | x :: l' => x +:+ concat l'
  end.

Definition writerows (rows : list (list string)) : string :=
  concat (writerow <$> rows).
End writer.

End Csv.

(** [df.to_csv(index=False)]: the header row, then one row per data row, the
    writer's line terminator being [os.linesep]. *)
Definition to_csv (os : Platform) (df : DataFrame) : string :=
  Csv.writerow (linesep os) (quotes_newlines os) (columns df)
  +:+ Csv.writerows (linesep os) (quotes_newlines os) (data df).

(** ** [base64.b64encode] *)

Module Base64.

Definition alphabet : list ascii :=
  list_ascii_of_string
    "ABCDEFGHIJKLMNOPQRSTUVWXYZabcdefghijklmnopqrstuvwxyz0123456789+/".

Definition pad : ascii := "="%char.

Definition digit (n : N) : ascii := nth (N.to_nat n) alphabet pad.

(** Three bytes make four digits of six bits; a final group of one or two
    bytes is completed with zero bits and padded with [=]. *)
Fixpoint b64encode (bs : list ascii) : list ascii :=
  match bs with
  | a :: b :: c :: rest =>
      let n := (N_of_ascii a * 65536 + N_of_ascii b * 256 + N_of_ascii c)%N in
      digit (n / 262144) :: digit (n / 4096 mod 64) :: digit (n / 64 mod 64)
        :: digit (n mod 64) :: b64encode rest
  | [a; b] =>
      let n := (N_of_ascii a * 65536 + N_of_ascii b * 256)%N in
      [digit (n / 262144); digit (n / 4096 mod 64); digit (n / 64 mod 64); pad]
  | [a] =>
      let n := (N_of_ascii a * 65536)%N in
      [digit (n / 262144); digit (n / 4096 mod 64); pad; pad]
  | [] => []
  end.

End Base64.

(** [s.encode()]: the UTF-8 bytes of the text. *)
Definition encode (s : string) : list ascii := list_ascii_of_string s.

(** [b.decode()] of ASCII bytes. *)
Definition decode (b : list ascii) : string := string_of_list_ascii b.

(** ** matplotlib: texts that are math text *)

Module Mathtext.

Definition DOLLAR : ascii := "$"%char.
Definition BACKSLASH : ascii := "092"%char.

(** [s.count('$')] *)
Fixpoint count_dollar (s : list ascii) : nat :=
  match s with
  | [] => 0
  | c :: s' => (if Ascii.eqb c DOLLAR then 1 else 0) + count_dollar s'
  end.

(** [s.count(r'\$')]: the occurrences of a backslash followed by a dollar
    sign, counted from the left without overlap. *)
Fixpoint count_escaped (s : list ascii) : nat :=
  match s with
  | [] => 0
  | c :: s' =>
      match s' with
      | [] => 0
      | d :: s'' =>
          if Ascii.eqb c BACKSLASH && Ascii.eqb d DOLLAR
          then S (count_escaped s'') else count_escaped s'
      end
  end.

(** [cbook.is_math_text(s)]: the dollar signs that are not escaped are an
    even number and at least two. *)
Definition is_math_text (s : string) : bool :=
  let l := list_ascii_of_string s in
  let dollar_count := count_dollar l - count_escaped l in
  (0 <? dollar_count) && Nat.even dollar_count.

End Mathtext.

(** Laying out one text of a figure: a text that is math text goes through
    the mathtext parser, which raises [ValueError] on a string it cannot
    parse; any other text is laid out as it stands. *)
Definition layout_text (parser : string → option string) (s : string) : M unit :=
  if Mathtext.is_math_text s then
    match parser s with
    | Some msg => raise (ValueError msg)
    | None => ret tt
    end
  else ret tt.

(** [plt.tight_layout()] on a figure whose texts not laid out before are
    [texts], in the order they were added. *)
Fixpoint tight_layout (parser : string → option string) (texts : list string)
    : M unit :=
  match texts with
  | [] => ret tt
  | s :: texts' => layout_text parser s ;; tight_layout parser texts'
  end.

(** ** The script *)

Definition DQ : string := Py.chr Py.DQUOTE.

(** [@st.cache_resource]: the decorated function is keyed by its argument;
    a hit returns the stored object without calling the function, a miss
    calls it and stores what it returns (nothing is stored if it raises). *)
Definition cache_resource (f : string → M Language) (arg : string) : M Language :=
  σ <- get_cache ;;
  match σ !! arg with
  | Some v => emit (CacheHit arg) ;; ret v
  | None =>
      v <- f arg ;;
      σ' <- get_cache ;;
      put_cache (<[arg := v]> σ') ;;
      emit (CacheStore arg) ;;
      ret v
  end.

(** [load_model], lines 12-14. *)
Definition load_model (req : Request) : string → M Language :=
  cache_resource (λ model_name, call (SpacyLoad model_name) (spacy_load req model_name)).

Definition model_options : list string :=
  ["en_core_web_sm"; "en_core_web_md"; "en_core_web_lg"].

Definition ner_explanation : string :=
"
## What is Named Entity Recognition?
Named Entity Recognition (NER) is a natural language processing technique that identifies and classifies named entities in text into predefined categories such as:
- Persons
- Organizations
- Locations
- Dates
- Quantities
- Monetary values
- And more...
".

(** [entity_colors], lines 49-65. *)
Definition entity_colors : gmap string string :=
  list_to_map
    [ ("PERSON", "#7aecec"); ("ORG", "#feca74"); ("GPE", "#ff9561");
      ("LOC", "#ff8197"); ("DATE", "#bfe1d9"); ("TIME", "#bfe1d9");
      ("MONEY", "#e4e7d2"); ("PERCENT", "#e4e7d2");
      ("WORK_OF_ART", "#f0d0ff"); ("FAC", "#aab7d4");
      ("PRODUCT", "#bfeeb7"); ("EVENT", "#f89e96"); ("LAW", "#ddd1ff");
      ("LANGUAGE", "#ff8461"); ("QUANTITY", "#e4e7d2") ].

Definition fallback_color : string := "#cccccc".

(** [entity_colors.get(label, "#cccccc")] *)
Definition color_of (label : string) : string :=
  default fallback_color (entity_colors !! label).

Definition sample_text : string :=
  "Apple Inc. is planning to open a new office in New York City next January. CEO Tim Cook announced this during his visit to Boston last week.".

Definition no_entities : string := "No entities were detected in the text.".
Definition empty_input : string := "Please enter some text to analyze.".

Definition not_found (model_name : string) : string :=
  "Error: Model '" +:+ model_name
  +:+ "' not found. Please install it with 'python -m spacy download "
  +:+ model_name +:+ "'".

Definition tab_labels : list string :=
  ["Highlighted Text"; "Entity List"; "Entity Count"; "Entity Visualization"].

Definition entity_types_table : string :=
"
    | Entity Type | Description | Example |
    |-------------|-------------|---------|
    | PERSON | People, including fictional | Tim Cook, Harry Potter |
    | ORG | Companies, agencies, institutions | Apple Inc., United Nations |
    | GPE | Countries, cities, states | New York City, France |
    | LOC | Non-GPE locations, mountain ranges, bodies of water | Alps, Pacific Ocean |
    | DATE | Absolute or relative dates or periods | January, last week |
    | TIME | Times smaller than a day | 3pm, midnight |
    | MONEY | Monetary values, including unit | $200, 10 euros |
    | PERCENT | Percentage | 15%, one-tenth |
    | WORK_OF_ART | Titles of books, songs, etc. | " +:+ DQ +:+ "The Great Gatsby" +:+ DQ +:+ " |
    | FAC | Buildings, airports, highways, bridges | Golden Gate Bridge |
    | PRODUCT | Objects, vehicles, foods, etc. (not services) | iPhone, Boeing 747 |
    | EVENT | Named hurricanes, battles, wars, sports events | World War II, Olympics |
    | LAW | Named documents made into laws | Constitution, GDPR |
    | LANGUAGE | Any named language | English, Spanish |
    | QUANTITY | Measurements, as of weight or distance | 10km, 20 pounds |
    ".

(** *** The four result views *)

(** Tab 1, lines 82-86: displaCy's markup of the document, unconditionally. *)
Definition tab1 (req : Request) (doc : Doc) : M unit :=
  st (Tab 1) (StSubheader "Entities Highlighted in Text") ;;
  emit (DisplacyRender doc) ;;
  let html := displacy_render req doc entity_colors in
  st (Tab 1) (StMarkdown html true).

(** [pd.DataFrame(records, columns=[c1, c2])] on a list of pairs. *)
Definition DataFrame_of (records : list (string * string)) (cols : list string)
    : DataFrame :=
  {| columns := cols; data := (λ r, [r.1; r.2]) <$> records |}.

Definition entities_data (doc : Doc) : list (string * string) :=
  (λ ent, (text ent, label_ ent)) <$> ents doc.

Definition entities_frame (doc : Doc) : DataFrame :=
  DataFrame_of (entities_data doc) ["Entity"; "Type"].

(** The download link of line 98, around the base64 payload. *)
Definition download_link (b64 : string) : string :=
  "<a href=" +:+ DQ +:+ "data:file/csv;base64," +:+ b64 +:+ DQ
  +:+ " download=" +:+ DQ +:+ "entities.csv" +:+ DQ
  +:+ ">Download Entity List as CSV</a>".

Definition export_payload (os : Platform) (df : DataFrame) : string :=
  decode (Base64.b64encode (encode (to_csv os df))).

(** Tab 2, lines 88-101. *)
Definition tab2 (req : Request) (doc : Doc) : M unit :=
  st (Tab 2) (StSubheader "Extracted Entities") ;;
  if bool_decide (length (ents doc) > 0) then
    let df := entities_frame doc in
    st (Tab 2) (StDataframe df true) ;;
    let csv := to_csv (os req) df in
    let b64 := decode (Base64.b64encode (encode csv)) in
    let href := download_link b64 in
    st (Tab 2) (StMarkdown href true)
  else
    st (Tab 2) (StInfo no_entities).

(** The index of the first occurrence of [c] in [cats].  It is the position of
    a category on a categorical axis, which numbers the categories in order
    of first appearance. *)
Fixpoint first_index (cats : list string) (c : string) : nat :=
  match cats with
  | [] => 0
  | c' :: cats' => if decide (c = c') then 0 else S (first_index cats' c)
  end.

(** [ax.bar(x, height, color=colors)] *)
Definition ax_bar (x : list string) (height : list nat) (colors : list string)
    : list Rectangle :=
  zip_with (λ xh c, {| rect_category := xh.1;
                        rect_centre := first_index x xh.1;
                        rect_height := xh.2;
                        rect_facecolor := c |})
    (zip x height) colors.

(** The label above a bar, lines 123-129: [f'{height}'] anchored at the top
    centre of the bar, [bar.get_x() + bar.get_width() / 2] being the centre. *)
Definition bar_label (bar : Rectangle) : Artist :=
  let height := rect_height bar in
  Annotation (pretty height) (rect_centre bar, height) (0, 3) "center" "bottom".

Definition count_figure (doc : Doc) : Figure :=
  let entity_counts := Counter (label_ <$> ents doc) in
  let entity_types := keys entity_counts in
  let counts := values entity_counts in
  let colors := color_of <$> entity_types in
  let bars := ax_bar entity_types counts colors in
  {| figsize := (10, 6);
     artists := (Bar <$> bars)
                ++ [YLabel "Count"; Title "Entity Counts by Type";
                    XTicksStyle 45 "right"; TightLayout]
                ++ (bar_label <$> bars) |}.

(** Tab 3, lines 103-133. *)
Definition tab3 (doc : Doc) : M unit :=
  st (Tab 3) (StSubheader "Entity Count by Type") ;;
  if bool_decide (length (ents doc) > 0) then
    st (Tab 3) (StPyplot (count_figure doc))
  else
    st (Tab 3) (StInfo no_entities).

(** [ax.scatter(xs, ys, c=colors, s=100)] *)
Definition ax_scatter (xs ys : list nat) (colors : list string) (s : nat)
    : list Artist :=
  zip_with (λ xy c, PathPoint xy.1 xy.2 c s) (zip xs ys) colors.

Definition legend_handle (ent_type : string) : Line2D :=
  {| line_label := ent_type; markerfacecolor := color_of ent_type |}.

(** The figure of tab 4, lines 143-175.  The texts of the figure that are
    taken from the analysed text are the annotations, the entity texts.  The
    legend shows the labels, which are names of the pipeline's label scheme
    ([ORG], [GPE], ...) and hold no dollar sign, and which tab 3 has laid
    out as its tick labels by then; the two titles are fixed.
    [plt.tight_layout()], line 175, is the first call that lays the
    annotations out. *)
Definition scatter_figure (req : Request) (doc : Doc) : M Figure :=
  let entities := text <$> ents doc in
  let entity_types := label_ <$> ents doc in
  let unique_types := set_iter req entity_types in
  let type_to_num := index_dict unique_types in
  y_values <- comprehension (getitem type_to_num) entity_types ;;
  let colors := color_of <$> entity_types in
  let scatter := ax_scatter (seq 0 (length entities)) y_values colors 100 in
  labels <- comprehension
              (λ ie, y <- index y_values ie.1 ;;
                     ret (Annotation ie.2 (ie.1, y) (0, 5) "center" "baseline"))
              (enumerate entities) ;;
  let legend_elements := legend_handle <$> unique_types in
  tight_layout (mathtext req) entities ;;
  ret {| figsize := (10, 6);
         artists := scatter ++ labels
                    ++ [Legend legend_elements "Entity Types";
                        SetYTicks []; SetXTicks [];
                        Title "Entity Visualization"; TightLayout] |}.

(** Tab 4, lines 135-179. *)
Definition tab4 (req : Request) (doc : Doc) : M unit :=
  st (Tab 4) (StSubheader "Entity Network Visualization") ;;
  if bool_decide (length (ents doc) > 0) then
    st (Tab 4) (StMarkdown
      "Entity relationship visualization shows how entities appear in the document:"
      false) ;;
    fig <- scatter_figure req doc ;;
    st (Tab 4) (StPyplot fig)
  else
    st (Tab 4) (StInfo no_entities).

(** Lines 77-179: inference and the four tabs. *)
Definition analyze (req : Request) (nlp : Language) (text_input : string) : M unit :=
  doc <- call (Infer text_input) (nlp text_input) ;;
  st Main (StTabs tab_labels) ;;
  tab1 req doc ;;
  tab2 req doc ;;
  tab3 doc ;;
  tab4 req doc.

(** Lines 74-179: what a click on the button does. *)
Definition on_click (req : Request) (nlp : Language) (text_input : string) : M unit :=
  if negb (Py.truthy (Py.strip text_input)) then
    st Main (StError empty_input)
  else
    analyze req nlp text_input.

(** *** The whole script, top to bottom *)

Definition script (req : Request) : M unit :=
  st Main (PageConfig "Named Entity Recognition System" "wide") ;;
  st Main (StTitle "Named Entity Recognition System") ;;
  st Sidebar (StTitle "Controls") ;;
  st Sidebar (StSelectbox "Select spaCy Model" model_options) ;;
  let model_name := selected_model req in
  nlp <- try_except
           (nlp <- load_model req model_name ;;
            st Sidebar (StSuccess ("Model '" +:+ model_name +:+ "' loaded successfully!")) ;;
            ret nlp)
           (st Sidebar (StError (not_found model_name)) ;;
            st_stop) ;;
  st Main (StMarkdown ner_explanation false) ;;
  st Main (StHeader "Enter Text for NER Analysis") ;;
  st Main (StTextArea "Paste your text here:" 150 sample_text) ;;
  let text_input := default sample_text (typed_text req) in
  st Main (StButton "Analyze Text") ;;
  (if button_clicked req then on_click req nlp text_input else ret tt) ;;
  st Main (StExpander "Entity Types Explanation") ;;
  st (Expander "Entity Types Explanation") (StMarkdown entity_types_table false) ;;
  st Main (StMarkdown "---" false) ;;
  st Main (StMarkdown "Created with ❤️ using spaCy and Streamlit" false).

(** *** Running the script *)

(** How Streamlit's script runner ends a run: the script ran to its end, it
    was halted by [st.stop()], or an exception escaped it. *)
Inductive Status := Completed | Stopped | Crashed (e : BaseException).

Definition status_of (r : BaseException + unit) : Status :=
  match r with
  | inr _ => Completed
  | inl StopException => Stopped
  | inl e => Crashed e
  end.

Definition run (req : Request) (σ : Cache) : Status * Cache * list Event :=
  let '(r, σ', t) := script req σ in (status_of r, σ', t).

(** A session: the script is run once per request, the cache carried over. *)
Fixpoint session (reqs : list Request) (σ : Cache) : Cache * list Event :=
  match reqs with
  | [] => (σ, [])
  | req :: reqs' =>
      let '(_, σ1, t1) := run req σ in
      let '(σ2, t2) := session reqs' σ1 in
      (σ2, t1 ++ t2)
  end.

(** *** Reading a trace *)

Global Instance Container_eq_dec : EqDecision Container.
Proof. solve_decision. Defined.

(** The elements a run put in one container, in order. *)
Definition view (c : Container) (t : list Event) : list Element :=
  omap (λ ev, match ev with
              | St c' e => if decide (c' = c) then Some e else None
              | _ => None
              end) t.

Definition is_infer (ev : Event) : bool :=
  match ev with Infer _ => true | _ => false end.

(** Every attempt to run the model that a trace records. *)
Definition inferences (t : list Event) : list Event := filter is_infer t.

Definition is_cache_store (name : string) (ev : Event) : bool :=
  match ev with CacheStore n => bool_decide (n = name) | _ => false end.

Definition is_spacy_load (name : string) (ev : Event) : bool :=
  match ev with SpacyLoad n => bool_decide (n = name) | _ => false end.

Definition dataframes (v : list Element) : list DataFrame :=
  omap (λ e, match e with StDataframe df _ => Some df | _ => None end) v.

Definition figures (v : list Element) : list Figure :=
  omap (λ e, match e with StPyplot fig => Some fig | _ => None end) v.

(** A chart or a table. *)
Definition is_chart_or_table (e : Element) : bool :=
  match e with StDataframe _ _ | StPyplot _ => true | _ => false end.

(** *** Reading a figure *)

Definition bars_of (fig : Figure) : list Rectangle :=
  omap (λ a, match a with Bar r => Some r | _ => None end) (artists fig).

(** The points of a scatter plot, as (x, y, colour). *)
Definition points_of (fig : Figure) : list (nat * nat * string) :=
  omap (λ a, match a with PathPoint x y c _ => Some (x, y, c) | _ => None end)
    (artists fig).

(** The text annotations, as (text, anchor). *)
Definition annotations_of (fig : Figure) : list (string * (nat * nat)) :=
  omap (λ a, match a with Annotation s xy _ _ _ => Some (s, xy) | _ => None end)
    (artists fig).

(** The legend entries, as (category, colour). *)
Definition legend_of (fig : Figure) : list (string * string) :=
  mjoin (omap (λ a, match a with
                    | Legend hs _ => Some ((λ h, (line_label h, markerfacecolor h)) <$> hs)
                    | _ => None
                    end) (artists fig)).

(** *** The fixed parts of a trace *)

(** Lines 17-25: page set-up and the sidebar controls. *)
Definition header_events : list Event :=
  [ St Main (PageConfig "Named Entity Recognition System" "wide");
    St Main (StTitle "Named Entity Recognition System");
    St Sidebar (StTitle "Controls");
    St Sidebar (StSelectbox "Select spaCy Model" model_options) ].

Definition loaded_event (model_name : string) : Event :=
  St Sidebar (StSuccess ("Model '" +:+ model_name +:+ "' loaded successfully!")).

Definition not_found_event (model_name : string) : Event :=
  St Sidebar (StError (not_found model_name)).

(** Lines 36-73: the explanation and the input widgets. *)
Definition input_events : list Event :=
  [ St Main (StMarkdown ner_explanation false);
    St Main (StHeader "Enter Text for NER Analysis");
    St Main (StTextArea "Paste your text here:" 150 sample_text);
    St Main (StButton "Analyze Text") ].

(** Lines 182-205: the reference panel and the footer. *)
Definition footer_events : list Event :=
  [ St Main (StExpander "Entity Types Explanation");
    St (Expander "Entity Types Explanation") (StMarkdown entity_types_table false);
    St Main (StMarkdown "---" false);
    St Main (StMarkdown "Created with ❤️ using spaCy and Streamlit" false) ].

(** The text the text area returns. *)
Definition text_input (req : Request) : string :=
  default sample_text (typed_text req).

(** The events of an analysis that finds no entity (tab 1 with displaCy's
    markup, the three other tabs with the notice). *)
Definition quiet_trace (req : Request) (doc : Doc) : list Event :=
  [ Infer (text_input req); St Main (StTabs tab_labels);
    St (Tab 1) (StSubheader "Entities Highlighted in Text");
    DisplacyRender doc;
    St (Tab 1) (StMarkdown (displacy_render req doc entity_colors) true);
    St (Tab 2) (StSubheader "Extracted Entities");
    St (Tab 2) (StInfo no_entities);
    St (Tab 3) (StSubheader "Entity Count by Type");
    St (Tab 3) (StInfo no_entities);
    St (Tab 4) (StSubheader "Entity Network Visualization");
    St (Tab 4) (StInfo no_entities) ].

(** ** Notions the properties are stated with *)

(** *** Blank texts, substrings *)

(** Decision procedure for blank texts. *)
Fixpoint is_blank_bytes (s : list ascii) : bool :=
  match s with
  | [] => true
  | c :: s1 =>
      if Py.space1 c then is_blank_bytes s1 else
      match s1 with
      | [] => false
      | d :: s2 =>
          if Py.space2 c d then is_blank_bytes s2 else
          match s2 with
          | [] => false
          | e :: s3 => Py.space3 c d e && is_blank_bytes s3
          end
      end
  end.

Definition is_blank (s : string) : bool := is_blank_bytes (list_ascii_of_string s).

(** [sub] occurs in [s]. *)
Definition substring (sub s : string) : Prop :=
  ∃ pre post, s = pre +:+ sub +:+ post.

(** *** Distinct elements, counts, listings of a set *)

(** The distinct elements of a list, in order of first occurrence. *)
Fixpoint distinct (l : list string) : list string :=
  match l with
  | [] => []
  | x :: l' => x :: filter (λ y, y ≠ x) (distinct l')
  end.

(** How many times [k] occurs in [l]. *)
Definition occurrences (k : string) (l : list string) : nat :=
  length (filter (λ y, y = k) l).

(** [u] lists the elements of [set(l)]: each distinct element of [l] once,
    in some order. *)
Definition set_listing (u l : list string) : Prop := u ≡ₚ remove_dups l.

(** The ordinal [type_to_num] gives a category, for [unique_types = u]. *)
Definition ordinal (u : list string) (c : string) : nat :=
  default 0 (index_dict u !! c).

(** *** The entity counts a view shows *)

(** Rows of the tables in a view. *)
Definition table_rows (v : list Element) : nat :=
  sum_list ((λ df, length (data df)) <$> dataframes v).

(** Sum of the heights of the bars in a view. *)
Definition bar_total (v : list Element) : nat :=
  sum_list ((λ fig, sum_list (rect_height <$> bars_of fig)) <$> figures v).

(** Points of the scatter plots in a view. *)
Definition scatter_points (v : list Element) : nat :=
  sum_list ((λ fig, length (points_of fig)) <$> figures v).

(** *** Figures in closed form *)

(** The bar of category [k] in the chart of a label sequence. *)
Definition bar_of (labels : list string) (k : string) : Rectangle :=
  {| rect_category := k;
     rect_centre := first_index (distinct labels) k;
     rect_height := occurrences k labels;
     rect_facecolor := color_of k |}.

(** The figure of tab 4 for entities [es] when the categories come out of
    the set in the order [u]. *)
Definition scatter_of (u : list string) (es : list Span) : Figure :=
  {| figsize := (10, 6);
     artists :=
       imap (λ i ent, PathPoint i (ordinal u (label_ ent)) (color_of (label_ ent)) 100) es
       ++ imap (λ i ent, Annotation (text ent) (i, ordinal u (label_ ent)) (0, 5)
                           "center" "baseline") es
       ++ [ Legend (legend_handle <$> u) "Entity Types";
            SetYTicks []; SetXTicks [];
            Title "Entity Visualization"; TightLayout ] |}.

(** *** Computations and traces *)

(** A computation that leaves the cache as it found it. *)
Definition stateless {A} (m : M A) : Prop := ∀ σ, (m σ).1.2 = σ.

(** A computation all of whose events satisfy [P]. *)
Definition emits {A} (P : Event → Prop) (m : M A) : Prop :=
  ∀ σ, Forall P (m σ).2.

(** The events of the model loader. *)
Definition is_loader_event (ev : Event) : bool :=
  match ev with
  | SpacyLoad _ | CacheStore _ | CacheHit _ => true
  | _ => false
  end.

(** Nothing in a trace loads or stores the model [name]. *)
Definition settled (name : string) (t : list Event) : Prop :=
  Forall (λ ev, is_spacy_load name ev = false ∧ is_cache_store name ev = false) t.

(** A trace stores the model [name]. *)
Definition has_store (name : string) (t : list Event) : bool :=
  existsb (is_cache_store name) t.

(** How many times a trace stores the model [name]. *)
Definition stores (name : string) (t : list Event) : nat :=
  length (filter (is_cache_store name) t).

(** A trace checker: [written] tells whether the cache holds [name] already;
    the trace may load [name] only while it is not written, may write it
    only once, and may do neither afterwards. *)
Fixpoint written_once (name : string) (written : bool) (t : list Event) : bool :=
  match t with
  | [] => true
  | ev :: t' =>
      if is_cache_store name ev then negb written && written_once name true t'
      else if is_spacy_load name ev then negb written && written_once name written t'
      else written_once name written t'
  end.

(** An event that is not the loader's. *)
Definition passive (ev : Event) : Prop := is_loader_event ev = false.

(** *** Reading delimited text back

    A reader for the dialect the writer uses (delimiter [','], quote
    character, doubled quotes inside quoted fields), written as the state
    machine of Python's [csv.reader] and run over the whole text: outside
    quotes a record ends at ['\n'], ['\r'] or ['\r\n']. *)

Module CsvReader.

Inductive state :=
  | START_RECORD (after_cr : bool)
  | START_FIELD
  | IN_FIELD
  | IN_QUOTED_FIELD
  | QUOTE_IN_QUOTED_FIELD.

(** [fld] holds the characters of the current field, last first; [row] the
    fields of the current record, last first. *)
Definition close_field (fld : list ascii) (row : list string) : list string :=
  string_of_list_ascii (rev fld) :: row.

Definition close_record (fld : list ascii) (row : list string) : list string :=
  rev (close_field fld row).

Definition is_newline (c : ascii) : bool := Ascii.eqb c Py.LF || Ascii.eqb c Py.CR.
Definition is_cr (c : ascii) : bool := Ascii.eqb c Py.CR.

Fixpoint go (st : state) (fld : list ascii) (row : list string) (s : string)
    : list (list string) :=
  match s with
  | EmptyString =>
      match st with
      | START_RECORD _ => []
      | _ => [close_record fld row]
      end
  | String c s' =>
      match st with
      | START_RECORD after_cr =>
          if Ascii.eqb c Py.LF then
            if after_cr then go (START_RECORD false) [] [] s'
            else [] :: go (START_RECORD false) [] [] s'
          else if Ascii.eqb c Py.CR then [] :: go (START_RECORD true) [] [] s'
          else if Ascii.eqb c Csv.quotechar then go IN_QUOTED_FIELD [] [] s'
          else if Ascii.eqb c Csv.delimiter then go START_FIELD [] (close_field [] []) s'
          else go IN_FIELD [c] [] s'
      | START_FIELD =>
          if is_newline c then
            close_record [] row :: go (START_RECORD (is_cr c)) [] [] s'
          else if Ascii.eqb c Csv.quotechar then go IN_QUOTED_FIELD [] row s'
          else if Ascii.eqb c Csv.delimiter then go START_FIELD [] (close_field [] row) s'
          else go IN_FIELD [c] row s'
      | IN_FIELD =>
          if is_newline c then
            close_record fld row :: go (START_RECORD (is_cr c)) [] [] s'
          else if Ascii.eqb c Csv.delimiter then go START_FIELD [] (close_field fld row) s'
          else go IN_FIELD (c :: fld) row s'
      | IN_QUOTED_FIELD =>
          if Ascii.eqb c Csv.quotechar then go QUOTE_IN_QUOTED_FIELD fld row s'
          else go IN_QUOTED_FIELD (c :: fld) row s'
      | QUOTE_IN_QUOTED_FIELD =>
          if Ascii.eqb c Csv.quotechar then go IN_QUOTED_FIELD (c :: fld) row s'
          else if Ascii.eqb c Csv.delimiter then go START_FIELD [] (close_field fld row) s'
          else if is_newline c then
            close_record fld row :: go (START_RECORD (is_cr c)) [] [] s'
          else go IN_FIELD (c :: fld) row s'
      end
  end.

Definition reader (s : string) : list (list string) :=
  go (START_RECORD false) [] [] s.

End CsvReader.

(** Reading an export back into a table: the first record is the header,
    the others are the rows, every cell a string. *)
Definition read_export (s : string) : option DataFrame :=
  match CsvReader.reader s with
  | header :: rows => Some {| columns := header; data := rows |}
  | [] => None
  end.

(** *** Decoding base64 *)

Module Base64Decode.

(** The value of a digit: its position in the alphabet. *)
Definition value (c : ascii) : option N :=
  (λ p, N.of_nat p.1) <$> list_find (λ d, d = c) Base64.alphabet.

Definition byte (n : N) : ascii := ascii_of_N (n mod 256).

Fixpoint b64decode (s : list ascii) : option (list ascii) :=
  match s with
  | [] => Some []
  | a :: b :: c :: d :: rest =>
      va ← value a; vb ← value b;
      if Ascii.eqb d Base64.pad then
        match rest with
        | [] =>
            if Ascii.eqb c Base64.pad then
              Some [byte ((va * 64 + vb) / 16)]
            else
              vc ← value c;
              let n := ((va * 64 + vb) * 64 + vc)%N in
              Some [byte (n / 1024); byte (n / 4)]
        | _ => None
        end
      else
        vc ← value c; vd ← value d;
        let n := (((va * 64 + vb) * 64 + vc) * 64 + vd)%N in
        tl ← b64decode rest;
        Some (byte (n / 65536) :: byte (n / 256) :: byte n :: tl)
  | _ => None
  end.

End Base64Decode.

(** What a browser saves from the link: the text between ["base64,"] and the
    closing quote, decoded. *)
Definition downloaded (payload : string) : option string :=
  decode <$> Base64Decode.b64decode (encode payload).

(** ** Sample inputs *)

Module Sample.

Definition entity (t l : string) : Span := {| text := t; label_ := l |}.

(** What the small English pipeline finds in the default text. *)
Definition entities : list Span :=
  [ entity "Apple Inc." "ORG"; entity "New York City" "GPE";
    entity "next January" "DATE"; entity "Tim Cook" "PERSON";
    entity "Boston" "GPE"; entity "last week" "DATE" ].

(** A pipeline that knows the default text only. *)
Definition nlp : Language := λ txt,
  inr {| doc_text := txt;
         ents := if decide (txt = sample_text) then entities else [] |}.

(** Only the small model is installed. *)
Definition only_sm (name : string) : BaseException + Language :=
  if decide (name = "en_core_web_sm") then inr nlp
  else inl (OSError ("[E050] Can't find model '" +:+ name +:+ "'.")).

(** A loader that runs out of memory. *)
Definition out_of_memory (name : string) : BaseException + Language :=
  inl MemoryError.

Definition markup (doc : Doc) (colors : gmap string string) : string :=
  "<div class='entities'>" +:+ doc_text doc +:+ "</div>".

(** A POSIX host with a current interpreter. *)
Definition host : Platform := {| system := Posix; python := From313 |}.

Definition request (load : string → BaseException + Language)
    (model : string) (typed : option string) (clicked : bool) : Request :=
  {| selected_model := model; typed_text := typed; button_clicked := clicked;
     spacy_load := load; displacy_render := markup; set_iter := remove_dups;
     os := host; mathtext := λ _, None |}.

(** A click on the untouched default text, a click on a text without
    entities, and a click on spaces. *)
Definition analyze_sample : Request := request only_sm "en_core_web_sm" None true.
Definition analyze_quiet : Request :=
  request only_sm "en_core_web_sm" (Some "Nothing to see here.") true.
Definition analyze_spaces : Request :=
  request only_sm "en_core_web_sm" (Some "   ") true.

Definition sample_doc : Doc := {| doc_text := sample_text; ents := entities |}.
Definition quiet_doc : Doc := {| doc_text := "Nothing to see here."; ents := [] |}.

End Sample.

(** ** Notions for the properties of whole runs *)

(** The pipeline [load_model] hands to a run: the cached one if there is
    one, otherwise what [spacy.load] returns; none when the load raises. *)
Definition pipeline (req : Request) (σ : Cache) : option Language :=
  match σ !! selected_model req with
  | Some nlp => Some nlp
  | None =>
      match spacy_load req (selected_model req) with
      | inr nlp => Some nlp
      | inl _ => None
      end
  end.

(** The events the click handler can produce: the inference, displaCy's
    rendering, the tab bar, the empty-input error and, in a tab, a
    subheader, markup, a notice, a table or a figure. *)
Definition is_analysis_event (ev : Event) : bool :=
  match ev with
  | Infer _ | DisplacyRender _ => true
  | St (Tab _) (StSubheader _ | StMarkdown _ _ | StInfo _ | StDataframe _ _
                | StPyplot _) => true
  | St Main (StTabs _) | St Main (StError _) => true
  | _ => false
  end.

(** A call of [st.set_page_config]. *)
Definition is_page_config (ev : Event) : bool :=
  match ev with St _ (PageConfig _ _) => true | _ => false end.

(** A call of [spacy.load], for whatever model. *)
Definition is_load_call (ev : Event) : bool :=
  match ev with SpacyLoad _ => true | _ => false end.

(** What a run shows and does apart from the loader's bookkeeping. *)
Definition page (t : list Event) : list Event :=
  filter (λ ev, is_loader_event ev = false) t.

(** A computation that ignores the cache: the same result and the same
    events whatever the cache, which it leaves as it is. *)
Definition constant {A} (m : M A) : Prop :=
  ∃ r t, ∀ σ, m σ = (r, σ, t).

(** The same request at a time when [spacy.load] behaves as [load]. *)
Definition with_loader (req : Request) (load : string → BaseException + Language)
    : Request :=
  {| selected_model := selected_model req; typed_text := typed_text req;
     button_clicked := button_clicked req; spacy_load := load;
     displacy_render := displacy_render req; set_iter := set_iter req;
     os := os req; mathtext := mathtext req |}.

(** The success message of line 30. *)
Definition loaded_message (model_name : string) : string :=
  "Model '" +:+ model_name +:+ "' loaded successfully!".

(** *** Reading the download link as a browser does *)

Module Anchor.

(** [s] without its prefix [p], if it starts with [p]. *)
Fixpoint strip_prefix (p s : string) : option string :=
  match p, s with
  | EmptyString, _ => Some s
  | String a p', String b s' =>
      if Ascii.eqb a b then strip_prefix p' s' else None
  | String _ _, EmptyString => None
  end.

(** The text before the first [c] and the text after it. *)
Fixpoint until (c : ascii) (s : string) : option (string * string) :=
  match s with
  | EmptyString => None
  | String a s' =>
      if Ascii.eqb a c then Some (EmptyString, s')
      else (λ p, (String a p.1, p.2)) <$> until c s'
  end.

(** The values of the [href] and [download] attributes of an anchor written
    as [<a href="..." download="...">]: an attribute value in double quotes
    ends at the next double quote. *)
Definition attributes (markup : string) : option (string * string) :=
  rest ← strip_prefix ("<a href=" +:+ DQ) markup;
  '(href, rest) ← until Py.DQUOTE rest;
  rest ← strip_prefix (" download=" +:+ DQ) rest;
  '(download, _) ← until Py.DQUOTE rest;
  Some (href, download).

End Anchor.

(** The file a click on the link saves: its name is the [download]
    attribute, its content the decoded payload of the [data:] URI. *)
Definition saved_file (markup : string) : option (string * string) :=
  '(href, download) ← Anchor.attributes markup;
  payload ← Anchor.strip_prefix "data:file/csv;base64," href;
  content ← downloaded payload;
  Some (download, content).

(** *** Texts the layout rejects, fields the writer leaves bare *)

(** The message of the first text of a figure that is math text and that
    the parser rejects, if there is one. *)
Fixpoint layout_error (parser : string → option string) (texts : list string)
    : option string :=
  match texts with
  | [] => None
  | s :: texts' =>
      match (if Mathtext.is_math_text s then parser s else None) with
      | Some msg => Some msg
      | None => layout_error parser texts'
      end
  end.

(** The layout of tab 4 accepts every entity text of the document. *)
Definition typesets (req : Request) (doc : Doc) : Prop :=
  layout_error (mathtext req) (text <$> ents doc) = None.

(** A text holds a carriage return or a line feed. *)
Definition has_newline (s : string) : bool :=
  existsb CsvReader.is_newline (list_ascii_of_string s).

(** The writer of the host puts the field in quotes if it holds a carriage
    return or a line feed. *)
Definition newline_quoted (os : Platform) (s : string) : bool :=
  implb (has_newline s) (Csv.has_special (linesep os) (quotes_newlines os) s).

(** Every cell of the frame that holds a carriage return or a line feed is
    written in quotes. *)
Definition newlines_quoted (os : Platform) (df : DataFrame) : Prop :=
  Forall (Forall (λ s, newline_quoted os s = true)) (columns df :: data df).

(** A text holds a carriage return. *)
Definition has_cr (s : string) : bool :=
  existsb CsvReader.is_cr (list_ascii_of_string s).

(** The hosts whose writer quotes for every newline: Windows, where both
    newline characters are in the line terminator, and any host with CPython
    3.13 or later. *)
Definition newline_safe (os : Platform) : bool :=
  quotes_newlines os
  || match system os with Windows => true | Posix => false end.

(** No entity text or label of the document holds a carriage return. *)
Definition no_cr (doc : Doc) : Prop :=
  Forall (λ ent, has_cr (text ent) = false ∧ has_cr (label_ ent) = false)
    (ents doc).

(** ** Sample faults *)

Module Faults.

(** A POSIX host with an interpreter older than CPython 3.13. *)
Definition old_host : Platform := {| system := Posix; python := Upto312 |}.

(** An entity text with a carriage return and nothing else the old writer
    quotes for. *)
Definition torn : Doc :=
  {| doc_text := "A" +:+ Py.chr Py.CR +:+ "B";
     ents := [Sample.entity ("A" +:+ Py.chr Py.CR +:+ "B") "ORG"] |}.

(** Entity texts with a comma, a quote, a line feed, a carriage return
    next to a comma, a repeated entity and an empty text. *)
Definition awkward : Doc :=
  {| doc_text := "awkward";
     ents := [ Sample.entity "Smith, John" "PERSON";
               Sample.entity ("The " +:+ DQ +:+ "Big" +:+ DQ +:+ " Apple") "GPE";
               Sample.entity ("New" +:+ Py.chr Py.LF +:+ "York") "GPE";
               Sample.entity ("A," +:+ Py.chr Py.CR +:+ "B") "ORG";
               Sample.entity "Smith, John" "PERSON";
               Sample.entity EmptyString "ORG" ] |}.

(** An entity text that is math text, with two dollar signs, and that the
    mathtext parser rejects, for the percent sign between them. *)
Definition price : string := "$5 % of $6".

Definition rejected : string :=
  "ParseException: Expected end of text, found '$'  (at char 0), (line:1, col:1)".

(** The mathtext parser as far as the example needs it. *)
Definition parser (s : string) : option string :=
  if decide (s = price) then Some rejected else None.

(** A pipeline that finds the price. *)
Definition pricing : Language := λ txt,
  inr {| doc_text := txt; ents := [Sample.entity price "MONEY"] |}.

Definition priced_doc : Doc :=
  {| doc_text := "It went from $5 % of $6";
     ents := [Sample.entity price "MONEY"] |}.

(** A click on a text with the price in it. *)
Definition analyze_price : Request :=
  {| selected_model := "en_core_web_sm";
     typed_text := Some "It went from $5 % of $6";
     button_clicked := true;
     spacy_load := λ _, inr pricing;
     displacy_render := Sample.markup; set_iter := remove_dups;
     os := Sample.host; mathtext := parser |}.

(** A pipeline that refuses every text, as spaCy does for a text longer than
    [nlp.max_length]. *)
Definition refusing : Language := λ txt,
  inl (ValueError "[E088] Text exceeds maximum of 1000000.").

Definition load_refusing (name : string) : BaseException + Language :=
  inr refusing.

(** A click on the default text with a pipeline that refuses it. *)
Definition analyze_refused : Request :=
  Sample.request load_refusing "en_core_web_sm" None true.

(** A cache that holds the small model. *)
Definition warm : Cache := <["en_core_web_sm" := Sample.nlp]> ∅.

End Faults.

(** * Properties *)

(** ** The model loader *)

Section loader.
Context (req : Request) (name : string) (σ : Cache).

Lemma load_model_hit nlp :
  σ !! name = Some nlp →
  load_model req name σ = (inr nlp, σ, [CacheHit name]).
Proof.
  intros Hhit. unfold load_model, cache_resource, bind, get_cache.
  rewrite Hhit. reflexivity.
Qed.

Lemma load_model_miss nlp :
  σ !! name = None → spacy_load req name = inr nlp →
  load_model req name σ
  = (inr nlp, <[name := nlp]> σ, [SpacyLoad name; CacheStore name]).
Proof.
  intros Hmiss Hload.
  unfold load_model, cache_resource, call, bind, get_cache, emit.
  rewrite Hmiss, Hload. reflexivity.
Qed.

Lemma load_model_raises e :
  σ !! name = None → spacy_load req name = inl e →
  load_model req name σ = (inl e, σ, [SpacyLoad name]).
Proof.
  intros Hmiss Hload.
  unfold load_model, cache_resource, call, bind, get_cache, emit.
  rewrite Hmiss, Hload. reflexivity.
Qed.

(** The three cases above are the only ones. *)
Lemma load_model_cases :
  (∃ nlp, σ !! name = Some nlp
          ∧ load_model req name σ = (inr nlp, σ, [CacheHit name]))
  ∨ (∃ nlp, σ !! name = None ∧ spacy_load req name = inr nlp
            ∧ load_model req name σ
              = (inr nlp, <[name := nlp]> σ, [SpacyLoad name; CacheStore name]))
  ∨ (∃ e, σ !! name = None ∧ spacy_load req name = inl e
          ∧ load_model req name σ = (inl e, σ, [SpacyLoad name])).
Proof.
  destruct (σ !! name) as [nlp|] eqn:Hc.
  - left. eauto using load_model_hit.
  - destruct (spacy_load req name) as [e|nlp] eqn:Hl.
    + right; right. eauto using load_model_raises.
    + right; left. eauto using load_model_miss.
Qed.

(** A successful load leaves the pipeline in the cache and never involves
    the model's inference. *)
Lemma load_model_ok nlp σ1 t :
  load_model req name σ = (inr nlp, σ1, t) →
  σ1 !! name = Some nlp ∧ inferences t = [] ∧ (∀ c, view c t = []).
Proof.
  intros H.
  destruct load_model_cases as [(v & Hc & E) | [(v & Hc & Hl & E) | (e & Hc & Hl & E)]];
    rewrite E in H; simplify_eq; try done.
  by rewrite lookup_insert_eq.
Qed.

Lemma load_model_failed e σ1 t :
  load_model req name σ = (inl e, σ1, t) →
  σ !! name = None ∧ spacy_load req name = inl e ∧ σ1 = σ ∧ t = [SpacyLoad name].
Proof.
  intros H.
  destruct load_model_cases as [(v & Hc & E) | [(v & Hc & Hl & E) | (e' & Hc & Hl & E)]];
    rewrite E in H; by simplify_eq.
Qed.
End loader.

(** ** The shape of a run *)

Lemma view_app c t1 t2 : view c (t1 ++ t2) = view c t1 ++ view c t2.
Proof. apply omap_app. Qed.

Lemma inferences_app t1 t2 : inferences (t1 ++ t2) = inferences t1 ++ inferences t2.
Proof. apply filter_app. Qed.

Section run_shape.
Context (req : Request) (σ : Cache).
Let name := selected_model req.

(** A failed load: the error in the sidebar, then [st.stop()]. *)
Lemma script_load_failed e σ1 t :
  load_model req name σ = (inl e, σ1, t) →
  script req σ
  = (inl StopException, σ1, header_events ++ t ++ [not_found_event name]).
Proof.
  intros H. unfold script, try_except, bind, st, st_stop, emit, raise. simpl.
  fold name. rewrite H. reflexivity.
Qed.

(** A successful load: the rest of the script runs, the click handler in
    the middle of it. *)
Lemma script_loaded nlp σ1 t :
  load_model req name σ = (inr nlp, σ1, t) →
  script req σ
  = match (if button_clicked req then on_click req nlp (text_input req)
           else ret tt) σ1 with
    | (inr _, σ2, t2) =>
        (inr tt, σ2,
         header_events ++ (t ++ [loaded_event name])
           ++ input_events ++ t2 ++ footer_events)
    | (inl e, σ2, t2) =>
        (inl e, σ2,
         header_events ++ (t ++ [loaded_event name]) ++ input_events ++ t2)
    end.
Proof.
  intros H. unfold script, try_except, bind, st, emit, ret. simpl.
  fold name. rewrite H. simpl. fold (text_input req).
  destruct (button_clicked req); simpl.
  - destruct (on_click req nlp (text_input req) σ1) as [[[e|[]] σ2] t2];
      simpl; by rewrite ?app_nil_r.
  - by rewrite ?app_nil_r.
Qed.
End run_shape.

(** ** Blank texts and [str.strip] *)

Section strip.
Import Py.

(** Turn boolean comparisons in the hypotheses into arithmetic. *)
Ltac cmp_prop :=
  repeat match goal with
         | H : (_ || _) = true |- _ => apply orb_prop in H as [H|H]
         | H : (_ && _) = true |- _ => apply andb_prop in H as [H ?]
         | H : (_ =? _)%N = true |- _ => apply N.eqb_eq in H
         | H : (_ <=? _)%N = true |- _ => apply N.leb_le in H
         end.
Ltac cmp_false :=
  apply not_true_iff_false; intros ?; cmp_prop; lia.

Lemma space2_lead c d : space2 c d = true → space1 c = false.
Proof. unfold space2, space1. intros H. cmp_prop; cmp_false. Qed.

Lemma space3_lead c d e :
  space3 c d e = true → space1 c = false ∧ space2 c d = false.
Proof.
  unfold space3, space2, space1. intros H.
  split; cmp_prop; cmp_false.
Qed.

(** The same facts for the scan from the right, where the lead byte of a
    character is met last. *)
Lemma space2_trail c d : space2 d c = true → space1 c = false.
Proof. unfold space2, space1. intros H. cmp_prop; cmp_false. Qed.

Lemma space3_trail c d e :
  space3 e d c = true → space1 c = false ∧ space2 d c = false.
Proof.
  unfold space3, space2, space1. intros H.
  split; cmp_prop; cmp_false.
Qed.

Lemma blank_bytes_spaces l : blank_bytes l ↔ spaces space2 space3 l.
Proof.
  split.
  - induction 1 as [|w s Hw _ IH]; [constructor|].
    destruct Hw; simpl; [by apply spaces_1|by apply spaces_2|by apply spaces_3].
  - induction 1.
    + constructor.
    + by apply (blank_app [c]); [apply space_char1|].
    + by apply (blank_app [c; d]); [apply space_char2|].
    + by apply (blank_app [c; d; e]); [apply space_char3|].
Qed.

Lemma spaces_app sp2 sp3 l1 l2 :
  spaces sp2 sp3 l1 → spaces sp2 sp3 l2 → spaces sp2 sp3 (l1 ++ l2).
Proof.
  induction 1; simpl; intros; [done|..].
  - apply spaces_1; auto.
  - apply spaces_2; auto.
  - apply spaces_3; auto.
Qed.

(** Read from the right, a blank text is blank with mirrored recognisers. *)
Lemma spaces_rev sp2 sp3 l :
  spaces (λ c d, sp2 d c) (λ c d e, sp3 e d c) l → spaces sp2 sp3 (rev l).
Proof.
  induction 1; simpl; [constructor|..]; rewrite <- ?app_assoc; simpl;
    (apply spaces_app; [done|]).
  - apply spaces_1; [done | constructor].
  - apply spaces_2; [done | constructor].
  - apply spaces_3; [done | constructor].
Qed.

Section scan.
Context (sp2 : ascii → ascii → bool) (sp3 : ascii → ascii → ascii → bool).
Hypothesis lead2 : ∀ c d, sp2 c d = true → space1 c = false.
Hypothesis lead3 :
  ∀ c d e, sp3 c d e = true → space1 c = false ∧ sp2 c d = false.

Lemma skip_spaces_blank l : spaces sp2 sp3 l → skip_spaces sp2 sp3 l = [].
Proof.
  induction 1 as [|c s Hc _ IH|c d s Hcd _ IH|c d e s Hcde _ IH]; simpl.
  - done.
  - by rewrite Hc.
  - by rewrite (lead2 _ _ Hcd), Hcd.
  - destruct (lead3 _ _ _ Hcde) as [-> Hn]. by rewrite Hn, Hcde.
Qed.

(** The scan removes a blank prefix and stops at a fixed point. *)
Lemma skip_spaces_split_le n l :
  length l ≤ n →
  ∃ w, l = w ++ skip_spaces sp2 sp3 l ∧ spaces sp2 sp3 w
       ∧ skip_spaces sp2 sp3 (skip_spaces sp2 sp3 l) = skip_spaces sp2 sp3 l.
Proof.
  revert l. induction n as [|n IH]; intros l Hn.
  { destruct l; [|simpl in Hn; lia]. exists []. repeat split. constructor. }
  destruct l as [|c s1]; [exists []; repeat split; constructor|].
  simpl in Hn. simpl. destruct (space1 c) eqn:H1.
  { destruct (IH s1) as (w & E & Hw & Hfix); [lia|].
    exists (c :: w). simpl. rewrite <- E. repeat split; [|done].
    by apply spaces_1. }
  destruct s1 as [|d s2].
  { exists []. repeat split; [constructor|]. simpl. by rewrite H1. }
  simpl in Hn. destruct (sp2 c d) eqn:H2.
  { destruct (IH s2) as (w & E & Hw & Hfix); [lia|].
    exists (c :: d :: w). simpl. rewrite <- E. repeat split; [|done].
    by apply spaces_2. }
  destruct s2 as [|e s3].
  { exists []. repeat split; [constructor|]. simpl. by rewrite H1, H2. }
  simpl in Hn. destruct (sp3 c d e) eqn:H3.
  { destruct (IH s3) as (w & E & Hw & Hfix); [lia|].
    exists (c :: d :: e :: w). simpl. rewrite <- E. repeat split; [|done].
    by apply spaces_3. }
  exists []. repeat split; [constructor|]. simpl. by rewrite H1, H2, H3.
Qed.

Lemma skip_spaces_split l :
  ∃ w, l = w ++ skip_spaces sp2 sp3 l ∧ spaces sp2 sp3 w
       ∧ skip_spaces sp2 sp3 (skip_spaces sp2 sp3 l) = skip_spaces sp2 sp3 l.
Proof. by apply (skip_spaces_split_le (length l)). Qed.

Lemma skip_spaces_nil l : skip_spaces sp2 sp3 l = [] ↔ spaces sp2 sp3 l.
Proof.
  split; [|apply skip_spaces_blank].
  intros E. destruct (skip_spaces_split l) as (w & El & Hw & _).
  rewrite E, app_nil_r in El. by subst.
Qed.
End scan.

Lemma string_of_list_ascii_nil l : string_of_list_ascii l = EmptyString → l = [].
Proof. by destruct l. Qed.

(** [strip] returns the empty string exactly on blank texts. *)
Lemma strip_empty_iff s : strip s = EmptyString ↔ blank s.
Proof.
  unfold strip, blank, rstrip_bytes, lstrip_bytes.
  set (l := list_ascii_of_string s).
  destruct (skip_spaces_split space2 space3 l) as (w & El & Hw & Hfix).
  rewrite blank_bytes_spaces. split.
  - intros E%string_of_list_ascii_nil.
    apply (f_equal (@rev ascii)) in E. rewrite rev_involutive in E. simpl in E.
    apply skip_spaces_nil in E; [|apply space2_trail|apply space3_trail].
    apply spaces_rev in E. rewrite rev_involutive in E.
    apply skip_spaces_blank in E; [|apply space2_lead|apply space3_lead].
    rewrite Hfix in E. rewrite El, E, app_nil_r. done.
  - intros Hl. rewrite (skip_spaces_blank _ _ space2_lead space3_lead l Hl).
    done.
Qed.

(** Two different whitespace characters never start with the same bytes. *)
Ltac clash :=
  match goal with
  | H : space2 ?c _ = true, H1 : space1 ?c = true |- _ =>
      rewrite (space2_lead _ _ H) in H1; done
  | H : space3 ?c _ _ = true, H1 : space1 ?c = true |- _ =>
      rewrite (proj1 (space3_lead _ _ _ H)) in H1; done
  | H : space3 ?c ?d _ = true, H2 : space2 ?c ?d = true |- _ =>
      rewrite (proj2 (space3_lead _ _ _ H)) in H2; done
  | _ => congruence
  end.

Lemma is_blank_bytes_spaces_le n l :
  length l ≤ n → is_blank_bytes l = true ↔ spaces space2 space3 l.
Proof.
  revert l. induction n as [|n IH]; intros l Hn.
  { destruct l; [|simpl in Hn; lia]. split; [constructor|done]. }
  destruct l as [|c s1]; [split; [constructor|done]|].
  simpl in Hn. simpl. destruct (space1 c) eqn:H1.
  { rewrite IH by lia. split; [by apply spaces_1|].
    inversion 1; subst; first [done | clash]. }
  destruct s1 as [|d s2].
  { split; [done|]. inversion 1; subst; clash. }
  simpl in Hn. destruct (space2 c d) eqn:H2.
  { rewrite IH by lia. split; [by apply spaces_2|].
    inversion 1; subst; first [done | clash]. }
  destruct s2 as [|e s3].
  { split; [done|]. inversion 1; subst; clash. }
  simpl in Hn. rewrite andb_true_iff, IH by lia. split.
  - intros [? ?]. by apply spaces_3.
  - inversion 1; subst; first [done | clash].
Qed.

(** The decision procedure decides blankness. *)
Lemma is_blank_spec s : is_blank s = true ↔ blank s.
Proof.
  unfold is_blank, blank. rewrite blank_bytes_spaces.
  by apply (is_blank_bytes_spaces_le (length (list_ascii_of_string s))).
Qed.

Lemma truthy_strip s : truthy (strip s) = negb (is_blank s).
Proof.
  destruct (is_blank s) eqn:E.
  - apply is_blank_spec, strip_empty_iff in E. by rewrite E.
  - destruct (strip s) eqn:Es; [|done].
    apply strip_empty_iff, is_blank_spec in Es. congruence.
Qed.
End strip.

(** ** The click handler and the four tabs *)

Section tabs.
Context (req : Request) (σ : Cache).

Lemma tab1_run doc :
  tab1 req doc σ
  = (inr tt, σ,
     [ St (Tab 1) (StSubheader "Entities Highlighted in Text");
       DisplacyRender doc;
       St (Tab 1) (StMarkdown (displacy_render req doc entity_colors) true) ]).
Proof. reflexivity. Qed.

Lemma tab2_empty doc :
  ents doc = [] →
  tab2 req doc σ
  = (inr tt, σ,
     [ St (Tab 2) (StSubheader "Extracted Entities");
       St (Tab 2) (StInfo no_entities) ]).
Proof. unfold tab2. by intros ->. Qed.

Lemma tab2_nonempty doc :
  ents doc ≠ [] →
  tab2 req doc σ
  = (inr tt, σ,
     [ St (Tab 2) (StSubheader "Extracted Entities");
       St (Tab 2) (StDataframe (entities_frame doc) true);
       St (Tab 2)
         (StMarkdown (download_link (export_payload (os req) (entities_frame doc)))
                   true) ]).
Proof. unfold tab2. by destruct (ents doc). Qed.

Lemma tab3_empty doc :
  ents doc = [] →
  tab3 doc σ
  = (inr tt, σ,
     [ St (Tab 3) (StSubheader "Entity Count by Type");
       St (Tab 3) (StInfo no_entities) ]).
Proof. unfold tab3. by intros ->. Qed.

Lemma tab3_nonempty doc :
  ents doc ≠ [] →
  tab3 doc σ
  = (inr tt, σ,
     [ St (Tab 3) (StSubheader "Entity Count by Type");
       St (Tab 3) (StPyplot (count_figure doc)) ]).
Proof. unfold tab3. by destruct (ents doc). Qed.

Lemma tab4_empty doc :
  ents doc = [] →
  tab4 req doc σ
  = (inr tt, σ,
     [ St (Tab 4) (StSubheader "Entity Network Visualization");
       St (Tab 4) (StInfo no_entities) ]).
Proof. unfold tab4. by intros ->. Qed.

Lemma tab4_nonempty doc fig :
  ents doc ≠ [] →
  scatter_figure req doc σ = (inr fig, σ, []) →
  tab4 req doc σ
  = (inr tt, σ,
     [ St (Tab 4) (StSubheader "Entity Network Visualization");
       St (Tab 4) (StMarkdown
         "Entity relationship visualization shows how entities appear in the document:"
         false);
       St (Tab 4) (StPyplot fig) ]).
Proof.
  intros Hne Hfig. unfold tab4, bind, st, emit.
  destruct (ents doc); [done|]. simpl. by rewrite Hfig.
Qed.

(** An exception raised while the figure is built leaves the tab after its
    markdown line: nothing is plotted. *)
Lemma tab4_raises doc e :
  ents doc ≠ [] →
  scatter_figure req doc σ = (inl e, σ, []) →
  tab4 req doc σ
  = (inl e, σ,
     [ St (Tab 4) (StSubheader "Entity Network Visualization");
       St (Tab 4) (StMarkdown
         "Entity relationship visualization shows how entities appear in the document:"
         false) ]).
Proof.
  intros Hne Hfig. unfold tab4, bind, st, emit.
  destruct (ents doc); [done|]. simpl. by rewrite Hfig.
Qed.

(** The first three tabs never fail and never touch the cache. *)
Lemma tab2_pure doc : ∃ t, tab2 req doc σ = (inr tt, σ, t).
Proof.
  destruct (decide (ents doc = [])); eauto using tab2_empty, tab2_nonempty.
Qed.

Lemma tab3_pure doc : ∃ t, tab3 doc σ = (inr tt, σ, t).
Proof.
  destruct (decide (ents doc = [])); eauto using tab3_empty, tab3_nonempty.
Qed.

(** Inference that raises: the exception escapes, nothing is shown. *)
Lemma analyze_raises nlp txt e :
  nlp txt = inl e → analyze req nlp txt σ = (inl e, σ, [Infer txt]).
Proof. intros H. unfold analyze, call, bind, emit. simpl. by rewrite H. Qed.

(** Inference that returns: the four tabs, one after the other. *)
Lemma analyze_returns nlp txt doc :
  nlp txt = inr doc →
  analyze req nlp txt σ
  = let '(r, σ', t4) := tab4 req doc σ in
    (r, σ',
     [Infer txt; St Main (StTabs tab_labels)]
       ++ (tab1 req doc σ).2 ++ (tab2 req doc σ).2 ++ (tab3 doc σ).2 ++ t4).
Proof.
  intros H. unfold analyze, call, bind, emit. simpl. rewrite H. simpl.
  destruct (tab2_pure doc) as [t2 ->], (tab3_pure doc) as [t3 ->]. simpl.
  destruct (tab4 req doc σ) as [[[e|[]] σ4] t4]; simpl;
    by rewrite <- ?app_assoc.
Qed.

Lemma on_click_blank nlp txt :
  Py.blank txt →
  on_click req nlp txt σ = (inr tt, σ, [St Main (StError empty_input)]).
Proof.
  intros Hb%is_blank_spec. unfold on_click. by rewrite truthy_strip, Hb.
Qed.

Lemma on_click_text nlp txt :
  ¬ Py.blank txt → on_click req nlp txt σ = analyze req nlp txt σ.
Proof.
  intros Hb. unfold on_click. rewrite truthy_strip.
  destruct (is_blank txt) eqn:E; [|done]. by apply is_blank_spec in E.
Qed.
End tabs.

(** ** Strings *)

Lemma append_cons (x : ascii) (a b : string) :
  String x a +:+ b = String x (a +:+ b).
Proof. reflexivity. Qed.

Lemma append_nil_l (b : string) : EmptyString +:+ b = b.
Proof. reflexivity. Qed.

Lemma append_assoc (a b c : string) : (a +:+ b) +:+ c = a +:+ b +:+ c.
Proof.
  induction a as [|x a IH]; [done|]. by rewrite !append_cons, IH.
Qed.

Lemma append_nil_r (a : string) : a +:+ EmptyString = a.
Proof.
  induction a as [|x a IH]; [done|]. by rewrite append_cons, IH.
Qed.

(** ** The two error paths *)

(** The events of the fixed parts of a trace: no inference, no tab. *)
Lemma fixed_parts_inferences :
  inferences header_events = [] ∧ inferences input_events = []
  ∧ inferences footer_events = [].
Proof. done. Qed.

Lemma fixed_parts_tabs i :
  view (Tab i) header_events = [] ∧ view (Tab i) input_events = []
  ∧ view (Tab i) footer_events = [].
Proof. done. Qed.

(** C2: when the selected model is not installed, so that loading it fails
    with spaCy's [OSError], the run shows the model-unavailable error in the
    sidebar, whose text carries the [python -m spacy download <model>]
    command, halts there ([st.stop()]): nothing of the rest of the page is
    rendered, no tab is produced, the cache is unchanged and the model is
    never run. *)
Theorem model_unavailable_halts (req : Request) (σ : Cache) (msg : string) :
  let name := selected_model req in
  σ !! name = None →
  spacy_load req name = inl (OSError msg) →
  let t := header_events ++ [SpacyLoad name; not_found_event name] in
  run req σ = (Stopped, σ, t)
  ∧ last (view Sidebar t) = Some (StError (not_found name))
  ∧ substring ("python -m spacy download " +:+ name) (not_found name)
  ∧ view Main t = [ PageConfig "Named Entity Recognition System" "wide";
                    StTitle "Named Entity Recognition System" ]
  ∧ (∀ i, view (Tab i) t = [])
  ∧ inferences t = [].
Proof.
  intros name Hmiss Hload t. repeat split; try done.
  - unfold run. erewrite script_load_failed by by eapply load_model_raises.
    done.
  - exists ("Error: Model '" +:+ name +:+ "' not found. Please install it with '"), "'".
    unfold not_found. by rewrite !append_assoc.
Qed.

Lemma model_unavailable_witness :
  run (Sample.request Sample.only_sm "en_core_web_md" None true) ∅
  = (Stopped, ∅,
     header_events ++ [SpacyLoad "en_core_web_md"; not_found_event "en_core_web_md"])
  ∧ substring "python -m spacy download en_core_web_md" (not_found "en_core_web_md").
Proof.
  destruct (model_unavailable_halts
              (Sample.request Sample.only_sm "en_core_web_md" None true) ∅
              "[E050] Can't find model 'en_core_web_md'.")
    as (Hrun & _ & Hsub & _); [reflexivity..|].
  split; [exact Hrun | exact Hsub].
Defined.

(** C10: whatever exception the load raises, the bare [except] catches it:
    the run ends in the halt of [st.stop()], never in a crash, and the
    sidebar shows the same not-found message, which does not depend on the
    exception. *)
Theorem any_load_failure_reported_as_not_found
    (req : Request) (σ σ1 : Cache) (e : BaseException) (t0 : list Event) :
  let name := selected_model req in
  load_model req name σ = (inl e, σ1, t0) →
  run req σ = (Stopped, σ, header_events ++ [SpacyLoad name; not_found_event name])
  ∧ (∀ e', (run req σ).1.1 ≠ Crashed e')
  ∧ view Sidebar (run req σ).2
    = [ StTitle "Controls"; StSelectbox "Select spaCy Model" model_options;
        StError (not_found name) ].
Proof.
  intros name H.
  destruct (load_model_failed _ _ _ _ _ _ H) as (Hmiss & Hload & -> & ->).
  assert (run req σ
          = (Stopped, σ, header_events ++ [SpacyLoad name; not_found_event name]))
    as E.
  { unfold run. by erewrite script_load_failed by done. }
  rewrite E. done.
Qed.

Lemma any_load_failure_witness :
  run (Sample.request Sample.out_of_memory "en_core_web_lg" None false) ∅
  = (Stopped, ∅,
     header_events ++ [SpacyLoad "en_core_web_lg"; not_found_event "en_core_web_lg"])
  ∧ (∀ e', (run (Sample.request Sample.out_of_memory "en_core_web_lg" None false) ∅).1.1
           ≠ Crashed e')
  ∧ view Sidebar (run (Sample.request Sample.out_of_memory "en_core_web_lg" None false) ∅).2
    = [ StTitle "Controls"; StSelectbox "Select spaCy Model" model_options;
        StError (not_found "en_core_web_lg") ].
Proof.
  apply (any_load_failure_reported_as_not_found
           (Sample.request Sample.out_of_memory "en_core_web_lg" None false)
           ∅ ∅ MemoryError [SpacyLoad "en_core_web_lg"]).
  reflexivity.
Defined.

Section loaded.
Context (req : Request) (σ σ1 : Cache) (nlp : Language) (t0 : list Event).
Let name := selected_model req.
Hypothesis Hload : load_model req name σ = (inr nlp, σ1, t0).
Hypothesis Hclick : button_clicked req = true.

(** The trace of a run whose click handler returns. *)
Lemma run_clicked r t :
  on_click req nlp (text_input req) σ1 = (r, σ1, t) →
  run req σ
  = (status_of r, σ1,
     header_events ++ (t0 ++ [loaded_event name]) ++ input_events ++ t
       ++ match r with inr _ => footer_events | inl _ => [] end).
Proof.
  intros H. unfold run. erewrite script_loaded by done.
  rewrite Hclick, H. destruct r as [e|[]]; [|done].
  by rewrite app_nil_r.
Qed.

Lemma view_tab_run i t tail :
  view (Tab i)
    (header_events ++ (t0 ++ [loaded_event name]) ++ input_events ++ t ++ tail)
  = view (Tab i) t ++ view (Tab i) tail.
Proof.
  rewrite !view_app.
  destruct (load_model_ok _ _ _ _ _ _ Hload) as (_ & _ & ->). done.
Qed.

Lemma inferences_run t tail :
  inferences
    (header_events ++ (t0 ++ [loaded_event name]) ++ input_events ++ t ++ tail)
  = inferences t ++ inferences tail.
Proof.
  rewrite !inferences_app.
  destruct (load_model_ok _ _ _ _ _ _ Hload) as (_ & -> & _). done.
Qed.
End loaded.

(** Only the loader writes the cache. *)
Section stateless.
Lemma stateless_ret {A} (a : A) : stateless (ret a).
Proof. done. Qed.

Lemma stateless_raise {A} e : stateless (@raise A e).
Proof. done. Qed.

Lemma stateless_emit ev : stateless (emit ev).
Proof. done. Qed.

Lemma stateless_bind {A B} (m : M A) (k : A → M B) :
  stateless m → (∀ a, stateless (k a)) → stateless (bind m k).
Proof.
  intros Hm Hk σ. unfold bind. specialize (Hm σ).
  destruct (m σ) as [[[e|a] σ1] t1]; simpl in *; [done|]. subst σ1.
  specialize (Hk a σ). by destruct (k a σ) as [[r σ2] t2].
Qed.

Lemma stateless_call {A} ev (r : BaseException + A) : stateless (call ev r).
Proof. by destruct r. Qed.

Lemma stateless_comprehension {A B} (f : A → M B) l :
  (∀ x, stateless (f x)) → stateless (comprehension f l).
Proof.
  intros Hf. induction l as [|x l IH]; [done|]. simpl.
  apply stateless_bind; [done|]. intros y.
  apply stateless_bind; [done|]. intros ys. apply stateless_ret.
Qed.

Lemma stateless_getitem d k : stateless (getitem d k).
Proof. unfold getitem. by destruct (d !! k). Qed.

Lemma stateless_index {A} (l : list A) i : stateless (index l i).
Proof. unfold index. by destruct (l !! i). Qed.

Lemma stateless_tight_layout parser texts : stateless (tight_layout parser texts).
Proof.
  induction texts as [|s texts IH]; [done|]. simpl.
  apply stateless_bind; [|done]. unfold layout_text.
  destruct (Mathtext.is_math_text s); [|done]. by destruct (parser s).
Qed.

Lemma stateless_scatter_figure req doc : stateless (scatter_figure req doc).
Proof.
  unfold scatter_figure.
  apply stateless_bind; [apply stateless_comprehension, stateless_getitem|].
  intros ys. apply stateless_bind.
  { apply stateless_comprehension. intros [i x].
    apply stateless_bind; [apply stateless_index|intros; apply stateless_ret]. }
  intros labels. apply stateless_bind; [apply stateless_tight_layout|].
  intros; apply stateless_ret.
Qed.

Lemma stateless_tab4 req doc : stateless (tab4 req doc).
Proof.
  unfold tab4. apply stateless_bind; [apply stateless_emit|]. intros _.
  destruct (bool_decide _); [|apply stateless_emit].
  apply stateless_bind; [apply stateless_emit|]. intros _.
  apply stateless_bind; [apply stateless_scatter_figure|].
  intros fig. apply stateless_emit.
Qed.

Lemma stateless_analyze req nlp txt : stateless (analyze req nlp txt).
Proof.
  intros σ. destruct (nlp txt) as [e|doc] eqn:Hnlp.
  - by rewrite (analyze_raises _ _ _ _ _ Hnlp).
  - rewrite (analyze_returns _ _ _ _ _ Hnlp).
    pose proof (stateless_tab4 req doc σ) as H4.
    by destruct (tab4 req doc σ) as [[r4 σ4] t4].
Qed.

Lemma stateless_on_click req nlp txt : stateless (on_click req nlp txt).
Proof.
  unfold on_click. destruct (negb _); [apply stateless_emit|].
  apply stateless_analyze.
Qed.
End stateless.

(** The trace of an analysis starts with the inference. *)
Lemma analyze_infers req nlp txt σ :
  ∃ t, (analyze req nlp txt σ).2 = Infer txt :: t.
Proof.
  destruct (nlp txt) as [e|doc] eqn:Hnlp.
  - rewrite (analyze_raises _ _ _ _ _ Hnlp). eauto.
  - rewrite (analyze_returns _ _ _ _ _ Hnlp).
    destruct (tab4 req doc σ) as [[r4 σ4] t4]. simpl. eauto.
Qed.

(** A request with its model in the cache and a text that is not blank runs
    the model on that text. *)
Lemma click_infers (req : Request) (σ : Cache) (nlp : Language) :
  σ !! selected_model req = Some nlp →
  button_clicked req = true →
  ¬ Py.blank (text_input req) →
  Infer (text_input req) ∈ (run req σ).2.
Proof.
  intros Hhit Hclick Htext.
  pose proof (load_model_hit req _ _ _ Hhit) as Hload.
  pose proof (stateless_on_click req nlp (text_input req) σ) as Hσ.
  destruct (analyze_infers req nlp (text_input req) σ) as [t' Ht'].
  rewrite <- on_click_text in Ht' by done.
  destruct (on_click req nlp (text_input req) σ) as [[r σ'] t] eqn:E.
  simpl in *. subst.
  rewrite (run_clicked _ _ _ _ _ Hload Hclick _ _ E). cbn [snd].
  rewrite !elem_of_app. do 3 right. left. apply list_elem_of_here.
Qed.

Lemma not_blank_by_computation s : is_blank s = false → ¬ Py.blank s.
Proof. intros E H%is_blank_spec. congruence. Qed.

(** C3: a click with a text that is empty or made of whitespace only (the
    model being loaded) shows the empty-input error and nothing else of the
    analysis: the model is not run and no tab is produced.  The run
    completes normally, the cache is as the loader left it (unchanged if the
    model was cached already), and a next request with a real text gets its
    inference. *)
Theorem blank_input_rejected
    (req : Request) (σ σ1 : Cache) (nlp : Language) (t0 : list Event)
    (txt : string) :
  let name := selected_model req in
  load_model req name σ = (inr nlp, σ1, t0) →
  button_clicked req = true →
  typed_text req = Some txt →
  Py.blank txt →
  let t := header_events ++ (t0 ++ [loaded_event name]) ++ input_events
             ++ [St Main (StError empty_input)] ++ footer_events in
  run req σ = (Completed, σ1, t)
  ∧ inferences t = []
  ∧ (∀ i, view (Tab i) t = [])
  ∧ (is_Some (σ !! name) → σ1 = σ)
  ∧ (∀ req', selected_model req' = name → button_clicked req' = true →
             ¬ Py.blank (text_input req') →
             Infer (text_input req') ∈ (run req' σ1).2).
Proof.
  intros name Hload Hclick Htyped Hblank t.
  assert (text_input req = txt) as Htxt by (unfold text_input; by rewrite Htyped).
  split; [|split; [|split; [|split]]].
  - rewrite (run_clicked _ _ _ _ _ Hload Hclick (inr tt) [St Main (StError empty_input)]);
      [done|].
    rewrite Htxt. by apply on_click_blank.
  - subst t. by rewrite (inferences_run _ _ _ _ _ Hload).
  - intros i. subst t. by rewrite (view_tab_run _ _ _ _ _ Hload).
  - intros [v Hv]. rewrite (load_model_hit _ _ _ _ Hv) in Hload. by simplify_eq.
  - intros req' Hname ? ?. apply (click_infers req' σ1 nlp); [|done..].
    rewrite Hname. by destruct (load_model_ok _ _ _ _ _ _ Hload) as [? _].
Qed.

Lemma blank_input_witness :
  run Sample.analyze_spaces ∅
  = (Completed, <["en_core_web_sm" := Sample.nlp]> ∅,
     header_events
       ++ ([SpacyLoad "en_core_web_sm"; CacheStore "en_core_web_sm"]
             ++ [loaded_event "en_core_web_sm"])
       ++ input_events ++ [St Main (StError empty_input)] ++ footer_events).
Proof.
  refine (proj1 (blank_input_rejected Sample.analyze_spaces ∅
                   (<["en_core_web_sm" := Sample.nlp]> ∅) Sample.nlp
                   [SpacyLoad "en_core_web_sm"; CacheStore "en_core_web_sm"]
                   "   " _ _ _ _)).
  - reflexivity.
  - reflexivity.
  - reflexivity.
  - apply is_blank_spec. reflexivity.
Defined.

(** ** A document without entities *)

Section no_entities.
Context (req : Request) (σ σ1 : Cache) (nlp : Language) (t0 : list Event)
  (doc : Doc).
Let name := selected_model req.
Hypothesis Hload : load_model req name σ = (inr nlp, σ1, t0).
Hypothesis Hclick : button_clicked req = true.
Hypothesis Htext : ¬ Py.blank (text_input req).
Hypothesis Hnlp : nlp (text_input req) = inr doc.
Hypothesis Hents : ents doc = [].

Lemma run_no_entities :
  run req σ
  = (Completed, σ1,
     header_events ++ (t0 ++ [loaded_event name]) ++ input_events
       ++ quiet_trace req doc ++ footer_events).
Proof.
  rewrite (run_clicked _ _ _ _ _ Hload Hclick (inr tt) (quiet_trace req doc)); [done|].
  rewrite on_click_text by done.
  rewrite (analyze_returns _ _ _ _ _ Hnlp).
  by rewrite tab1_run, tab2_empty, tab3_empty, tab4_empty.
Qed.
End no_entities.

(** C1, as amended: when the analysed text yields no entity, the Entity
    List, Entity Count and Entity Visualization tabs each show their
    subheader and the no-entities notice, and no tab holds a table or a
    chart; the Highlighted Text tab shows displaCy's markup of the document
    and no notice. *)
Theorem no_entities_views
    (req : Request) (σ σ1 : Cache) (nlp : Language) (t0 : list Event) (doc : Doc) :
  let name := selected_model req in
  load_model req name σ = (inr nlp, σ1, t0) →
  button_clicked req = true →
  ¬ Py.blank (text_input req) →
  nlp (text_input req) = inr doc →
  ents doc = [] →
  ∃ t, run req σ = (Completed, σ1, t)
    ∧ view (Tab 1) t
      = [ StSubheader "Entities Highlighted in Text";
          StMarkdown (displacy_render req doc entity_colors) true ]
    ∧ view (Tab 2) t = [StSubheader "Extracted Entities"; StInfo no_entities]
    ∧ view (Tab 3) t = [StSubheader "Entity Count by Type"; StInfo no_entities]
    ∧ view (Tab 4) t
      = [StSubheader "Entity Network Visualization"; StInfo no_entities]
    ∧ ∀ i, existsb is_chart_or_table (view (Tab i) t) = false.
Proof.
  intros name Hload Hclick Htext Hnlp Hents.
  eexists. split; [by apply (run_no_entities req σ σ1 nlp t0 doc)|].
  repeat split; try by rewrite (view_tab_run _ _ _ _ _ Hload).
  intros i. rewrite (view_tab_run _ _ _ _ _ Hload).
  by destruct i as [|[|[|[|[|i]]]]].
Qed.

Lemma no_entities_views_witness :
  ∃ t, run Sample.analyze_quiet ∅
       = (Completed, <["en_core_web_sm" := Sample.nlp]> ∅, t)
    ∧ view (Tab 1) t
      = [ StSubheader "Entities Highlighted in Text";
          StMarkdown (Sample.markup Sample.quiet_doc entity_colors) true ]
    ∧ view (Tab 2) t = [StSubheader "Extracted Entities"; StInfo no_entities]
    ∧ view (Tab 3) t = [StSubheader "Entity Count by Type"; StInfo no_entities]
    ∧ view (Tab 4) t
      = [StSubheader "Entity Network Visualization"; StInfo no_entities]
    ∧ ∀ i, existsb is_chart_or_table (view (Tab i) t) = false.
Proof.
  refine (no_entities_views Sample.analyze_quiet ∅
            (<["en_core_web_sm" := Sample.nlp]> ∅) Sample.nlp
            [SpacyLoad "en_core_web_sm"; CacheStore "en_core_web_sm"]
            Sample.quiet_doc _ _ _ _ _).
  - reflexivity.
  - reflexivity.
  - apply not_blank_by_computation. reflexivity.
  - reflexivity.
  - reflexivity.
Defined.

(** C1 as stated fails: on a text in which the model finds no entity, the
    Highlighted Text tab does not show the no-entities notice, so not all
    four views do. *)
Lemma no_entities_notice_counterexample :
  Sample.nlp (text_input Sample.analyze_quiet) = inr Sample.quiet_doc
  ∧ ents Sample.quiet_doc = []
  ∧ (run Sample.analyze_quiet ∅).1.1 = Completed
  ∧ ¬ (∀ i, i ∈ [1; 2; 3; 4] →
            StInfo no_entities ∈ view (Tab i) (run Sample.analyze_quiet ∅).2).
Proof.
  repeat split.
  intros H. specialize (H 1 ltac:(apply list_elem_of_here)).
  vm_compute in H.
  repeat (apply elem_of_cons in H as [H|H]; [discriminate|]).
  by apply elem_of_nil in H.
Qed.

(** ** Distinct elements and counts *)

Lemma filter_all {A} (P : A → Prop) `{∀ x, Decision (P x)} (l : list A) :
  (∀ x, x ∈ l → P x) → filter P l = l.
Proof.
  induction l as [|x l IH]; intros HP; [done|].
  rewrite filter_cons, decide_True by apply HP, list_elem_of_here.
  f_equal. apply IH. intros y Hy. by apply HP, list_elem_of_further.
Qed.

Lemma zip_with_fmap_self {A B} (f : A → B) (l : list A) :
  zip l (f <$> l) = (λ x, (x, f x)) <$> l.
Proof. induction l as [|x l IH]; csimpl; [done|]. by rewrite IH. Qed.

Lemma elem_of_distinct l x : x ∈ distinct l ↔ x ∈ l.
Proof.
  induction l as [|y l IH]; simpl; [done|].
  rewrite !elem_of_cons, list_elem_of_filter, IH.
  destruct (decide (x = y)); intuition congruence.
Qed.

Lemma NoDup_distinct l : NoDup (distinct l).
Proof.
  induction l as [|y l IH]; simpl; [constructor|].
  constructor; [|by apply NoDup_filter].
  rewrite list_elem_of_filter. by intros [? _].
Qed.

(** Each element of [distinct l] first occurs in [l] before the first
    occurrence of every element listed after it. *)
Lemma distinct_first_occurrence l i j a b :
  distinct l !! i = Some a → distinct l !! j = Some b → i < j →
  first_index l a < first_index l b.
Proof.
  revert i j. induction l as [|x l IH]; intros i j Hi Hj Hij; [done|].
  simpl in *. destruct j as [|j]; [lia|]. simpl in Hj.
  assert (b ∈ filter (λ y, y ≠ x) (distinct l)) as Hb
    by (eapply list_elem_of_lookup_2; eauto).
  apply list_elem_of_filter in Hb as [Hbx _].
  destruct i as [|i]; simpl in Hi.
  { simplify_eq. rewrite decide_True by done. rewrite decide_False by done. lia. }
  assert (a ∈ filter (λ y, y ≠ x) (distinct l)) as Ha
    by (eapply list_elem_of_lookup_2; eauto).
  apply list_elem_of_filter in Ha as [Hax _].
  rewrite !decide_False by done.
  apply ->Nat.succ_lt_mono.
  (* positions in the filtered list follow positions in the full list *)
  assert (∀ (m : list string) i j a b,
            filter (λ y, y ≠ x) m !! i = Some a →
            filter (λ y, y ≠ x) m !! j = Some b → i < j →
            ∃ i' j', m !! i' = Some a ∧ m !! j' = Some b ∧ i' < j') as Hsub.
  { clear. induction m as [|y m IHm]; intros i j a b Hi Hj Hij; [done|].
    rewrite filter_cons in Hi, Hj. destruct (decide (y ≠ x)).
    - destruct j as [|j]; [lia|]. destruct i as [|i]; simpl in *.
      + simplify_eq.
        assert (b ∈ m) as [j' Hj']%list_elem_of_lookup_1.
        { eapply list_elem_of_filter, list_elem_of_lookup_2, Hj. }
        exists 0, (S j'). repeat split; [done|lia].
      + destruct (IHm i j a b) as (i' & j' & ? & ? & ?); [done|done|lia|].
        exists (S i'), (S j'). repeat split; [done|done|lia].
    - destruct (IHm i j a b) as (i' & j' & ? & ? & ?); [done..|].
      exists (S i'), (S j'). repeat split; [done|done|lia]. }
  destruct (Hsub _ _ _ _ _ Hi Hj ltac:(lia)) as (i' & j' & Hi' & Hj' & Hlt).
  by apply (IH i' j').
Qed.

(** [first_index l c] is where [c] first occurs in [l]. *)
Lemma first_index_spec l c :
  c ∈ l →
  l !! first_index l c = Some c ∧ ∀ j, j < first_index l c → l !! j ≠ Some c.
Proof.
  induction l as [|x l IH]; intros Hc; [by apply elem_of_nil in Hc|].
  simpl. destruct (decide (c = x)) as [->|Hne].
  - split; [done | lia].
  - apply elem_of_cons in Hc as [?|Hc]; [done|].
    destruct (IH Hc) as [Hat Hbefore]. split; [done|].
    intros [|j] Hj; simpl; [congruence|]. apply Hbefore. lia.
Qed.

Lemma first_index_lookup l i k :
  NoDup l → l !! i = Some k → first_index l k = i.
Proof.
  revert i. induction l as [|x l IH]; intros i Hnd Hi; [done|].
  apply NoDup_cons in Hnd as [Hx Hnd]. simpl.
  destruct i as [|i]; simpl in Hi.
  - simplify_eq. by rewrite decide_True.
  - rewrite decide_False; [by rewrite (IH i)|].
    intros ->. by apply Hx, list_elem_of_lookup_2 with i.
Qed.

Section dict.
Context {V : Type}.
Implicit Types (d : list (string * V)) (k : string) (v : V).

Lemma dict_get_setitem d k (k' : string) v dflt :
  dict_get (dict_setitem k v d) k' dflt
  = if decide (k' = k) then v else dict_get d k' dflt.
Proof.
  induction d as [|[k0 v0] d IH]; simpl.
  - by destruct (decide (k' = k)).
  - destruct (decide (k = k0)) as [->|Hne]; simpl.
    + by destruct (decide (k' = k0)).
    + rewrite IH. destruct (decide (k' = k0)), (decide (k' = k)); congruence.
Qed.

Lemma keys_setitem d k v :
  keys (dict_setitem k v d)
  = if decide (k ∈ keys d) then keys d else keys d ++ [k].
Proof.
  unfold keys. induction d as [|[k0 v0] d IH]; csimpl; [done|].
  destruct (decide (k = k0)) as [->|Hne]; csimpl.
  - rewrite decide_True; [done | apply list_elem_of_here].
  - rewrite IH. destruct (decide (k ∈ d.*1)).
    + rewrite decide_True; [done | by apply list_elem_of_further].
    + rewrite decide_False; [done|]. rewrite elem_of_cons. intuition.
Qed.

Lemma values_dict_get d dflt :
  NoDup (keys d) → values d = (λ k, dict_get d k dflt) <$> keys d.
Proof.
  unfold keys, values. induction d as [|[k0 v0] d IH]; csimpl; [done|].
  intros [Hk0 Hnd]%NoDup_cons. rewrite decide_True by done. f_equal.
  rewrite IH by done. apply list_fmap_ext. intros i k Hk.
  rewrite decide_False; [done|]. intros ->.
  by apply Hk0, list_elem_of_lookup_2 with i.
Qed.
End dict.

Section counter.
Let step (d : list (string * nat)) (elem : string) :=
  dict_setitem elem (dict_get d elem 0 + 1) d.

Lemma counter_keys_from l d :
  keys (fold_left step l d)
  = keys d ++ filter (λ y, y ∉ keys d) (distinct l).
Proof.
  revert d. induction l as [|x l IH]; intros d; simpl.
  { by rewrite app_nil_r. }
  rewrite IH. unfold step.
  rewrite (keys_setitem d x (dict_get d x 0 + 1)).
  destruct (decide (x ∈ keys d)) as [Hin|Hout].
  - rewrite filter_cons, decide_False by (by intros ?).
    rewrite list_filter_filter. f_equal.
    apply list_filter_iff. intros y. split; [|by intros [? _]].
    intros Hy. split; [done|]. by intros ->.
  - rewrite filter_cons, decide_True by done.
    rewrite <- app_assoc. simpl. do 2 f_equal.
    rewrite list_filter_filter.
    apply list_filter_iff. intros y. rewrite elem_of_app, list_elem_of_singleton.
    intuition.
Qed.

Lemma counter_get_from l d k :
  dict_get (fold_left step l d) k 0 = dict_get d k 0 + occurrences k l.
Proof.
  revert d. induction l as [|x l IH]; intros d; simpl.
  { unfold occurrences. simpl. lia. }
  rewrite IH. unfold step, occurrences. rewrite dict_get_setitem, filter_cons.
  destruct (decide (k = x)) as [->|Hne].
  - rewrite decide_True by done. simpl. lia.
  - rewrite decide_False by done. done.
Qed.

(** The keys of a [Counter] are the distinct elements in order of first
    occurrence. *)
Lemma Counter_keys l : keys (Counter l) = distinct l.
Proof.
  unfold Counter. fold step. rewrite counter_keys_from. simpl.
  apply filter_all. intros y _. apply not_elem_of_nil.
Qed.

(** Its values are their numbers of occurrences. *)
Lemma Counter_values l :
  values (Counter l) = (λ k, occurrences k l) <$> distinct l.
Proof.
  rewrite (values_dict_get _ 0) by (rewrite Counter_keys; apply NoDup_distinct).
  rewrite Counter_keys. apply list_fmap_ext. intros i k _.
  unfold Counter. fold step. by rewrite counter_get_from.
Qed.

Lemma Counter_items l :
  Counter l = (λ k, (k, occurrences k l)) <$> distinct l.
Proof.
  rewrite <- (zip_fst_snd (Counter l)).
  fold (keys (Counter l)). fold (values (Counter l)).
  rewrite Counter_keys, Counter_values. apply zip_with_fmap_self.
Qed.
End counter.

(** ** The frequency chart *)

Lemma ax_bar_fmap (ks : list string) (f : string → nat) (g : string → string) :
  ax_bar ks (f <$> ks) (g <$> ks)
  = (λ k, {| rect_category := k; rect_centre := first_index ks k;
             rect_height := f k; rect_facecolor := g k |}) <$> ks.
Proof.
  unfold ax_bar. rewrite zip_with_fmap_self.
  generalize (first_index ks). intros pos.
  induction ks as [|k ks IH]; csimpl; [done|]. by rewrite IH.
Qed.

Lemma omap_Bar (bars : list Rectangle) :
  omap (λ a, match a with Bar r => Some r | _ => None end) (Bar <$> bars) = bars.
Proof. induction bars as [|b bars IH]; csimpl; [done|]. by rewrite IH. Qed.

Lemma omap_bar_label_Bar (bars : list Rectangle) :
  omap (λ a, match a with Bar r => Some r | _ => None end) (bar_label <$> bars) = [].
Proof. induction bars as [|b bars IH]; csimpl; [done|]. by rewrite IH. Qed.

Lemma omap_Bar_annotation (bars : list Rectangle) :
  omap (λ a, match a with Annotation s xy _ _ _ => Some (s, xy) | _ => None end)
    (Bar <$> bars) = [].
Proof. induction bars as [|b bars IH]; csimpl; [done|]. by rewrite IH. Qed.

Lemma omap_bar_label_annotation (bars : list Rectangle) :
  omap (λ a, match a with Annotation s xy _ _ _ => Some (s, xy) | _ => None end)
    (bar_label <$> bars)
  = (λ r, (pretty (rect_height r), (rect_centre r, rect_height r))) <$> bars.
Proof. induction bars as [|b bars IH]; csimpl; [done|]. by rewrite IH. Qed.

Lemma count_figure_bars doc :
  bars_of (count_figure doc) = bar_of (label_ <$> ents doc) <$> distinct (label_ <$> ents doc).
Proof.
  unfold bars_of, count_figure. cbn [artists].
  rewrite !omap_app, omap_Bar, omap_bar_label_Bar. simpl. rewrite app_nil_r.
  rewrite Counter_values, Counter_keys. apply ax_bar_fmap.
Qed.

Lemma count_figure_annotations doc :
  annotations_of (count_figure doc)
  = (λ r, (pretty (rect_height r), (rect_centre r, rect_height r)))
      <$> bars_of (count_figure doc).
Proof.
  rewrite count_figure_bars.
  unfold annotations_of, count_figure. cbn [artists].
  rewrite !omap_app, omap_Bar_annotation, omap_bar_label_annotation. simpl.
  rewrite Counter_values, Counter_keys. by rewrite ax_bar_fmap.
Qed.

Lemma size_distinct (l : list string) :
  length (distinct l) = size (list_to_set l : gset string).
Proof.
  rewrite <- (size_list_to_set (C := gset string) (distinct l))
    by apply NoDup_distinct.
  f_equal. apply set_eq. intros x.
  by rewrite !elem_of_list_to_set, elem_of_distinct.
Qed.

(** C4: for a document with entities, tab 3 shows one figure whose bars are
    the distinct labels of the entity sequence, each once (as many bars as
    there are distinct labels, none for an absent category), in order of
    first occurrence, the i-th bar at position i; the height of a bar is the
    number of entities with its label, and the annotation on top of it is
    that number in decimal. *)
Theorem frequency_chart (doc : Doc) (σ : Cache) :
  ents doc ≠ [] →
  let labels := label_ <$> ents doc in
  let fig := count_figure doc in
  let categories := rect_category <$> bars_of fig in
  tab3 doc σ
  = (inr tt, σ,
     [ St (Tab 3) (StSubheader "Entity Count by Type");
       St (Tab 3) (StPyplot fig) ])
  ∧ NoDup categories
  ∧ (∀ c, c ∈ categories ↔ c ∈ labels)
  ∧ length (bars_of fig) = size (list_to_set labels : gset string)
  ∧ (∀ i j a b, categories !! i = Some a → categories !! j = Some b → i < j →
                first_index labels a < first_index labels b)
  ∧ (∀ i bar, bars_of fig !! i = Some bar →
              rect_centre bar = i
              ∧ rect_height bar = occurrences (rect_category bar) labels
              ∧ annotations_of fig !! i
                = Some (pretty (rect_height bar), (i, rect_height bar)))
  ∧ length (annotations_of fig) = length (bars_of fig).
Proof.
  intros Hne labels fig categories.
  assert (categories = distinct labels) as Hcat.
  { subst categories fig. rewrite count_figure_bars, <- list_fmap_compose.
    transitivity (id <$> distinct labels); [|apply list_fmap_id].
    by apply list_fmap_ext. }
  split; [by apply tab3_nonempty|].
  split; [rewrite Hcat; apply NoDup_distinct|].
  split; [intros c; rewrite Hcat; apply elem_of_distinct|].
  split.
  { subst fig. rewrite count_figure_bars, length_fmap. apply size_distinct. }
  split; [rewrite Hcat; apply distinct_first_occurrence|].
  split.
  - intros i bar Hbar. subst fig.
    rewrite count_figure_annotations, list_lookup_fmap, Hbar.
    rewrite count_figure_bars in Hbar.
    apply list_lookup_fmap_Some in Hbar as (k & -> & Hk). simpl.
    by rewrite (first_index_lookup _ i k (NoDup_distinct _) Hk).
  - subst fig. by rewrite count_figure_annotations, length_fmap.
Qed.

Lemma frequency_chart_witness :
  bars_of (count_figure Sample.sample_doc)
  = [ {| rect_category := "ORG"; rect_centre := 0; rect_height := 1;
         rect_facecolor := "#feca74" |};
      {| rect_category := "GPE"; rect_centre := 1; rect_height := 2;
         rect_facecolor := "#ff9561" |};
      {| rect_category := "DATE"; rect_centre := 2; rect_height := 2;
         rect_facecolor := "#bfe1d9" |};
      {| rect_category := "PERSON"; rect_centre := 3; rect_height := 1;
         rect_facecolor := "#7aecec" |} ]
  ∧ length (bars_of (count_figure Sample.sample_doc))
    = size (list_to_set (label_ <$> ents Sample.sample_doc) : gset string).
Proof.
  split; [reflexivity|].
  refine (proj1 (proj2 (proj2 (proj2
    (frequency_chart Sample.sample_doc ∅ _))))).
  discriminate.
Defined.

(** Three PERSON mentions and one ORG mention give the bars PERSON=3 and
    ORG=1. *)
Example three_persons_one_org :
  let doc := {| doc_text := "Ann met Bob and Cy at Acme.";
                ents := [ Sample.entity "Ann" "PERSON"; Sample.entity "Bob" "PERSON";
                          Sample.entity "Cy" "PERSON"; Sample.entity "Acme" "ORG" ] |} in
  (λ r, (rect_category r, rect_height r)) <$> bars_of (count_figure doc)
  = [("PERSON", 3); ("ORG", 1)]
  ∧ annotations_of (count_figure doc) = [("3", (0, 3)); ("1", (1, 1))].
Proof. done. Qed.

(** ** The ordinal scatter *)

Section index_dict.
Let ins (m : gmap string nat) (p : nat * string) := <[p.2 := p.1]> m.

Lemma index_from_absent k l m c :
  c ∉ l → fold_left ins (imap (λ i x, (k + i, x)) l) m !! c = m !! c.
Proof.
  revert k m. induction l as [|x l IH]; intros k m Hc; [done|].
  apply not_elem_of_cons in Hc as [Hx Hl].
  rewrite imap_cons. simpl.
  rewrite (imap_ext _ (λ i y, (S k + i, y))) by (intros; simpl; f_equal; lia).
  rewrite IH by done. unfold ins. simpl. by rewrite lookup_insert_ne.
Qed.

Lemma index_from_present k l m i c :
  NoDup l → l !! i = Some c →
  fold_left ins (imap (λ i x, (k + i, x)) l) m !! c = Some (k + i).
Proof.
  revert k m i. induction l as [|x l IH]; intros k m i Hnd Hi; [done|].
  apply NoDup_cons in Hnd as [Hx Hnd].
  rewrite imap_cons. simpl.
  rewrite (imap_ext _ (λ i y, (S k + i, y))) by (intros; simpl; f_equal; lia).
  destruct i as [|i]; simpl in Hi.
  - simplify_eq. rewrite index_from_absent by done.
    unfold ins. simpl. by rewrite lookup_insert_eq.
  - rewrite (IH _ _ i) by done. f_equal. lia.
Qed.

(** In a duplicate-free list, [type_to_num] maps each element to its
    index. *)
Lemma index_dict_lookup l i c :
  NoDup l → l !! i = Some c → index_dict l !! c = Some i.
Proof. intros. by apply (index_from_present 0). Qed.
End index_dict.

Lemma ordinal_lookup u c : NoDup u → c ∈ u → u !! ordinal u c = Some c.
Proof.
  intros Hnd [i Hi]%list_elem_of_lookup_1. unfold ordinal.
  by rewrite (index_dict_lookup u i c).
Qed.

Lemma getitem_ordinal u c σ :
  NoDup u → c ∈ u → getitem (index_dict u) c σ = (inr (ordinal u c), σ, []).
Proof.
  intros Hnd [i Hi]%list_elem_of_lookup_1. unfold getitem, ordinal.
  by rewrite (index_dict_lookup u i c).
Qed.

Lemma set_listing_NoDup u l : set_listing u l → NoDup u.
Proof. unfold set_listing. intros ->. apply NoDup_remove_dups. Qed.

Lemma set_listing_elem_of u l c : set_listing u l → c ∈ u ↔ c ∈ l.
Proof. unfold set_listing. intros ->. apply elem_of_remove_dups. Qed.

(** A comprehension whose body succeeds on every element is a [map]. *)
Lemma comprehension_fmap {A B} (f : A → M B) (g : A → B) (l : list A) σ :
  (∀ x, x ∈ l → f x σ = (inr (g x), σ, [])) →
  comprehension f l σ = (inr (g <$> l), σ, []).
Proof.
  induction l as [|x l IH]; intros Hf; [done|].
  simpl. unfold bind. rewrite Hf by apply list_elem_of_here.
  rewrite IH by (intros; by apply Hf, list_elem_of_further). done.
Qed.

Lemma ax_scatter_imap {A} (f : A → nat) (g : A → string) (s k : nat) (l : list A) :
  ax_scatter (seq k (length l)) (f <$> l) (g <$> l) s
  = imap (λ i x, PathPoint (k + i) (f x) (g x) s) l.
Proof.
  unfold ax_scatter. revert k. induction l as [|x l IH]; intros k; [done|].
  rewrite imap_cons. csimpl. rewrite IH, Nat.add_0_r. f_equal.
  apply imap_ext. intros. simpl. f_equal. lia.
Qed.

Lemma enumerate_fmap {A B C} (f : A → B) (g : nat → B → C) (l : list A) :
  (λ ie, g ie.1 ie.2) <$> enumerate (f <$> l) = imap (λ i x, g i (f x)) l.
Proof.
  unfold enumerate. rewrite fmap_imap, imap_fmap. by apply imap_ext.
Qed.

Lemma elem_of_enumerate {A} (l : list A) i x :
  (i, x) ∈ enumerate l ↔ l !! i = Some x.
Proof.
  unfold enumerate. rewrite list_elem_of_lookup. split.
  - intros [j Hj]. rewrite list_lookup_imap in Hj.
    destruct (l !! j) eqn:E; by simplify_eq/=.
  - intros Hi. exists i. by rewrite list_lookup_imap, Hi.
Qed.

(** The layout raises for the first text it rejects and returns if there
    is none. *)
Lemma tight_layout_run parser texts σ :
  tight_layout parser texts σ
  = (match layout_error parser texts with
     | Some msg => inl (ValueError msg)
     | None => inr tt
     end, σ, []).
Proof.
  induction texts as [|s texts IH]; [done|].
  cbn [tight_layout layout_error]. unfold bind, layout_text.
  destruct (Mathtext.is_math_text s); [destruct (parser s) as [msg|]|];
    try done; unfold ret; by rewrite IH.
Qed.

(** With the categories listed in the order [u], building the figure of
    tab 4 ends in the layout: it raises if the layout rejects an entity
    text, and returns [scatter_of u] otherwise. *)
Lemma scatter_figure_outcome req doc σ :
  let u := set_iter req (label_ <$> ents doc) in
  set_listing u (label_ <$> ents doc) →
  scatter_figure req doc σ
  = (match layout_error (mathtext req) (text <$> ents doc) with
     | Some msg => inl (ValueError msg)
     | None => inr (scatter_of u (ents doc))
     end, σ, []).
Proof.
  intros u Hu. unfold scatter_figure. fold u.
  pose proof (set_listing_NoDup _ _ Hu) as Hnd.
  unfold bind.
  rewrite (comprehension_fmap _ (ordinal u)); last first.
  { intros c Hc. apply getitem_ordinal; [done|].
    by apply (set_listing_elem_of _ _ _ Hu). }
  rewrite (comprehension_fmap _
             (λ ie, Annotation ie.2
                      (ie.1, default 0 ((ordinal u <$> (label_ <$> ents doc)) !! ie.1))
                      (0, 5) "center" "baseline")); last first.
  { intros [i e] Hie%elem_of_enumerate. simpl. unfold index.
    rewrite list_lookup_fmap in Hie.
    rewrite <- list_fmap_compose, list_lookup_fmap.
    destruct (ents doc !! i); by simplify_eq/=. }
  rewrite tight_layout_run.
  destruct (layout_error (mathtext req) (text <$> ents doc)) as [msg|]; [done|].
  simpl. unfold scatter_of. do 3 f_equal.
  apply (f_equal (λ a, {| figsize := (10, 6); artists := a |})).
  apply (f_equal2 app); [|apply (f_equal2 app); [|done]].
  - rewrite length_fmap, <- !list_fmap_compose. apply ax_scatter_imap.
  - rewrite (enumerate_fmap text
               (λ i e, Annotation e
                         (i, default 0 ((ordinal u <$> (label_ <$> ents doc)) !! i))
                         (0, 5) "center" "baseline")).
    apply imap_ext. intros i ent Hi. simpl.
    by rewrite <- list_fmap_compose, list_lookup_fmap, Hi.
Qed.

(** When the layout accepts every entity text, the figure of tab 4 is
    [scatter_of u]. *)
Lemma scatter_figure_run req doc σ :
  let u := set_iter req (label_ <$> ents doc) in
  set_listing u (label_ <$> ents doc) →
  typesets req doc →
  scatter_figure req doc σ = (inr (scatter_of u (ents doc)), σ, []).
Proof.
  intros u Hu Ht. rewrite scatter_figure_outcome by done.
  unfold typesets in Ht. by rewrite Ht.
Qed.

Lemma omap_imap_Some {A B C} (f : B → option C) (g : nat → A → B)
    (h : nat → A → C) (l : list A) :
  (∀ i x, f (g i x) = Some (h i x)) → omap f (imap g l) = imap h l.
Proof.
  revert g h. induction l as [|x l IH]; intros g h Hf; [done|].
  rewrite !imap_cons. csimpl. rewrite Hf. f_equal. apply IH. intros. apply Hf.
Qed.

Lemma omap_imap_None {A B C} (f : B → option C) (g : nat → A → B) (l : list A) :
  (∀ i x, f (g i x) = None) → omap f (imap g l) = [].
Proof.
  revert g. induction l as [|x l IH]; intros g Hf; [done|].
  rewrite !imap_cons. csimpl. rewrite Hf. apply IH. intros. apply Hf.
Qed.

Lemma scatter_of_points u es :
  points_of (scatter_of u es)
  = imap (λ i ent, (i, ordinal u (label_ ent), color_of (label_ ent))) es.
Proof.
  unfold points_of, scatter_of. cbn [artists]. rewrite !omap_app.
  rewrite (omap_imap_Some _ _
             (λ i ent, (i, ordinal u (label_ ent), color_of (label_ ent)))) by done.
  rewrite omap_imap_None by done. simpl. by rewrite app_nil_r.
Qed.

Lemma scatter_of_annotations u es :
  annotations_of (scatter_of u es)
  = imap (λ i ent, (text ent, (i, ordinal u (label_ ent)))) es.
Proof.
  unfold annotations_of, scatter_of. cbn [artists]. rewrite !omap_app.
  rewrite omap_imap_None by done.
  rewrite (omap_imap_Some _ _
             (λ i ent, (text ent, (i, ordinal u (label_ ent))))) by done.
  simpl. by rewrite app_nil_r.
Qed.

Lemma scatter_of_legend u es :
  legend_of (scatter_of u es) = (λ c, (c, color_of c)) <$> u.
Proof.
  unfold legend_of, scatter_of. cbn [artists]. rewrite !omap_app.
  rewrite !omap_imap_None by done. simpl. rewrite app_nil_r.
  rewrite <- list_fmap_compose. by apply list_fmap_ext.
Qed.

(** X18: for a document with entities all of whose texts the layout
    accepts, whatever order [u] the categories come out of the set in (each
    distinct label once), tab 4 shows one figure in which
    - the ordinal of a category present is its position in [u], so distinct
      categories have distinct ordinals;
    - there is one point per entity, the i-th at x = i and y = the ordinal of
      its label, in the colour of its label, which is the configured colour
      or the fallback ["#cccccc"];
    - the i-th annotation is the text of the i-th entity, placed at its point;
    - the legend has one entry per distinct category, pairing it with its
      colour. *)
Theorem ordinal_scatter (req : Request) (doc : Doc) (σ : Cache) :
  let labels := label_ <$> ents doc in
  let u := set_iter req labels in
  ents doc ≠ [] →
  set_listing u labels →
  typesets req doc →
  ∃ fig,
    tab4 req doc σ
    = (inr tt, σ,
       [ St (Tab 4) (StSubheader "Entity Network Visualization");
         St (Tab 4) (StMarkdown
           "Entity relationship visualization shows how entities appear in the document:"
           false);
         St (Tab 4) (StPyplot fig) ])
    ∧ (∀ c, c ∈ labels → u !! ordinal u c = Some c)
    ∧ (∀ c c', c ∈ labels → c' ∈ labels → ordinal u c = ordinal u c' → c = c')
    ∧ length (points_of fig) = length (ents doc)
    ∧ (∀ i ent, ents doc !! i = Some ent →
         points_of fig !! i = Some (i, ordinal u (label_ ent), color_of (label_ ent))
         ∧ annotations_of fig !! i = Some (text ent, (i, ordinal u (label_ ent))))
    ∧ length (annotations_of fig) = length (ents doc)
    ∧ (∀ c, color_of c = match entity_colors !! c with
                         | Some colour => colour
                         | None => "#cccccc"
                         end)
    ∧ legend_of fig = (λ c, (c, color_of c)) <$> u
    ∧ NoDup (legend_of fig).*1
    ∧ (∀ c, c ∈ (legend_of fig).*1 ↔ c ∈ labels).
Proof.
  intros labels u Hne Hu Htype.
  pose proof (set_listing_NoDup _ _ Hu) as Hnd.
  assert (∀ c, c ∈ labels → u !! ordinal u c = Some c) as Hord.
  { intros c Hc. apply ordinal_lookup; [done|].
    by apply (set_listing_elem_of _ _ _ Hu). }
  assert (((λ c, (c, color_of c)) <$> u).*1 = u) as Hfst.
  { rewrite <- list_fmap_compose.
    transitivity (id <$> u); [by apply list_fmap_ext | apply list_fmap_id]. }
  exists (scatter_of u (ents doc)).
  split; [apply tab4_nonempty; [done | by apply scatter_figure_run]|].
  split; [done|].
  split.
  { intros c c' Hc Hc' E. apply Hord in Hc, Hc'. rewrite E in Hc. congruence. }
  rewrite scatter_of_points, scatter_of_annotations, scatter_of_legend, Hfst.
  rewrite !length_imap.
  split; [done|]. split.
  { intros i ent Hi. by rewrite !list_lookup_imap, Hi. }
  split; [done|]. split; [by intros c; unfold color_of; destruct (_ !! c)|].
  split; [done|]. split; [done|].
  intros c. by apply set_listing_elem_of.
Qed.

Lemma ordinal_scatter_witness :
  ∃ fig,
    tab4 Sample.analyze_sample Sample.sample_doc ∅
    = (inr tt, ∅,
       [ St (Tab 4) (StSubheader "Entity Network Visualization");
         St (Tab 4) (StMarkdown
           "Entity relationship visualization shows how entities appear in the document:"
           false);
         St (Tab 4) (StPyplot fig) ])
    ∧ length (points_of fig) = 6
    ∧ legend_of fig
      = [ ("ORG", "#feca74"); ("PERSON", "#7aecec"); ("GPE", "#ff9561");
          ("DATE", "#bfe1d9") ].
Proof.
  destruct (ordinal_scatter Sample.analyze_sample Sample.sample_doc ∅)
    as (fig & Htab & _ & _ & Hlen & _ & _ & _ & Hleg & _).
  - discriminate.
  - unfold set_listing. reflexivity.
  - reflexivity.
  - exists fig. split; [exact Htab|]. split; [exact Hlen | exact Hleg].
Defined.

(** C8, at a document whose one entity is the price [$5 % of $6]: the
    entity sequence is not empty and the set lists its one category, but the
    annotation is math text that the parser rejects, so the layout of the
    figure raises [ValueError]; tab 4 ends after its markdown line, with no
    figure, hence no point, no annotation and no legend, and the exception
    ends the run. *)
Theorem unparseable_annotation_raises :
  let req := Faults.analyze_price in
  let doc := Faults.priced_doc in
  let labels := label_ <$> ents doc in
  ents doc ≠ []
  ∧ set_listing (set_iter req labels) labels
  ∧ (text <$> ents doc) = [Faults.price]
  ∧ Mathtext.is_math_text Faults.price = true
  ∧ mathtext req Faults.price = Some Faults.rejected
  ∧ scatter_figure req doc ∅ = (inl (ValueError Faults.rejected), ∅, [])
  ∧ tab4 req doc ∅
    = (inl (ValueError Faults.rejected), ∅,
       [ St (Tab 4) (StSubheader "Entity Network Visualization");
         St (Tab 4) (StMarkdown
           "Entity relationship visualization shows how entities appear in the document:"
           false) ])
  ∧ (run req ∅).1.1 = Crashed (ValueError Faults.rejected)
  ∧ view (Tab 4) (run req ∅).2
    = [ StSubheader "Entity Network Visualization";
        StMarkdown
          "Entity relationship visualization shows how entities appear in the document:"
          false ].
Proof.
  intros req doc labels. split; [done|].
  split; [unfold set_listing; reflexivity|].
  repeat split; reflexivity.
Qed.

(** The sample text: six points, the two GPE entities on one line. *)
Example sample_scatter :
  points_of (scatter_of (remove_dups (label_ <$> Sample.entities)) Sample.entities)
  = [ (0, 0, "#feca74"); (1, 2, "#ff9561"); (2, 3, "#bfe1d9");
      (3, 1, "#7aecec"); (4, 2, "#ff9561"); (5, 3, "#bfe1d9") ].
Proof. reflexivity. Qed.

(** ** Writing and reading delimited text *)

Section csv.
Import Csv CsvReader.
Context (os : Platform).
Let lt := linesep os.
Let nl := quotes_newlines os.
Let quoted (f : string) : Prop := newline_quoted os f = true.

Lemma list_ascii_of_string_cons c s :
  list_ascii_of_string (String c s) = c :: list_ascii_of_string s.
Proof. reflexivity. Qed.

Lemma has_special_cons c s :
  has_special lt nl (String c s) = special lt nl c || has_special lt nl s.
Proof. reflexivity. Qed.

Lemma has_newline_cons c s :
  has_newline (String c s) = is_newline c || has_newline s.
Proof. reflexivity. Qed.

(** What the reader tests on a character that is neither special nor a
    newline. *)
Lemma plain_char c :
  special lt nl c = false → is_newline c = false →
  Ascii.eqb c Py.LF = false ∧ Ascii.eqb c Py.CR = false
  ∧ Ascii.eqb c quotechar = false ∧ Ascii.eqb c delimiter = false.
Proof.
  unfold special, is_newline.
  destruct (Ascii.eqb c delimiter), (Ascii.eqb c quotechar),
    (Ascii.eqb c Py.LF), (Ascii.eqb c Py.CR); simpl; try done.
Qed.

(** A field left without quotes that holds no newline is read character by
    character. *)
Lemma go_plain f fld row rest :
  has_special lt nl f = false → has_newline f = false →
  go IN_FIELD fld row (f +:+ rest)
  = go IN_FIELD (rev (list_ascii_of_string f) ++ fld) row rest.
Proof.
  revert fld. induction f as [|c f IH]; intros fld Hf Hl; [done|].
  rewrite has_special_cons in Hf. apply orb_false_elim in Hf as [Hc Hf].
  rewrite has_newline_cons in Hl. apply orb_false_elim in Hl as [Hn Hl].
  destruct (plain_char c Hc Hn) as (_ & _ & _ & Hd).
  rewrite append_cons, list_ascii_of_string_cons. cbn [go rev].
  rewrite Hn, Hd, IH by done. by rewrite <- app_assoc.
Qed.

(** A field with a newline that the writer quotes for is special. *)
Lemma quoted_plain f :
  quoted f → has_special lt nl f = false → has_newline f = false.
Proof.
  unfold quoted, newline_quoted. fold lt nl. intros Hq Hf. rewrite Hf in Hq.
  by destruct (has_newline f).
Qed.

(** A quoted field is read up to its closing quote, doubled quotes giving
    one quote each. *)
Lemma go_quoted f fld row rest :
  go IN_QUOTED_FIELD fld row (double_quotes f +:+ String quotechar rest)
  = go QUOTE_IN_QUOTED_FIELD (rev (list_ascii_of_string f) ++ fld) row rest.
Proof.
  revert fld. induction f as [|c f IH]; intros fld; [done|].
  rewrite list_ascii_of_string_cons. cbn [double_quotes rev].
  destruct (Ascii.eqb c quotechar) eqn:Hq.
  - apply Ascii.eqb_eq in Hq as ->. rewrite !append_cons. cbn [go].
    rewrite Ascii.eqb_refl, IH. by rewrite <- app_assoc.
  - rewrite append_cons. cbn [go]. rewrite Hq, IH. by rewrite <- app_assoc.
Qed.

Lemma close_field_rev f row :
  close_field (rev (list_ascii_of_string f) ++ []) row = f :: row.
Proof.
  unfold close_field.
  by rewrite app_nil_r, rev_involutive, String.string_of_list_ascii_of_string.
Qed.

Lemma close_record_rev f row :
  close_record (rev (list_ascii_of_string f) ++ []) row = rev (f :: row).
Proof. unfold close_record. by rewrite close_field_rev. Qed.

(** The reader's tests on the characters that start or follow a field. *)
Lemma delimiter_is_not_quotechar : Ascii.eqb delimiter quotechar = false.
Proof. done. Qed.
Lemma delimiter_is_not_LF : Ascii.eqb delimiter Py.LF = false.
Proof. done. Qed.
Lemma delimiter_is_not_CR : Ascii.eqb delimiter Py.CR = false.
Proof. done. Qed.
Lemma delimiter_is_not_newline : is_newline delimiter = false.
Proof. done. Qed.
Lemma LF_is_not_quotechar : Ascii.eqb Py.LF quotechar = false.
Proof. done. Qed.
Lemma LF_is_not_delimiter : Ascii.eqb Py.LF delimiter = false.
Proof. done. Qed.
Lemma LF_is_newline : is_newline Py.LF = true.
Proof. done. Qed.
Lemma LF_is_not_CR : is_cr Py.LF = false.
Proof. done. Qed.
Lemma CR_is_not_quotechar : Ascii.eqb Py.CR quotechar = false.
Proof. done. Qed.
Lemma CR_is_not_delimiter : Ascii.eqb Py.CR delimiter = false.
Proof. done. Qed.
Lemma CR_is_newline : is_newline Py.CR = true.
Proof. done. Qed.
Lemma CR_is_CR : is_cr Py.CR = true.
Proof. done. Qed.
Lemma quotechar_is_not_LF : Ascii.eqb quotechar Py.LF = false.
Proof. done. Qed.
Lemma quotechar_is_not_CR : Ascii.eqb quotechar Py.CR = false.
Proof. done. Qed.
Lemma quotechar_is_not_newline : is_newline quotechar = false.
Proof. done. Qed.

Create Rewrite HintDb csv_tests.
#[local] Hint Rewrite Ascii.eqb_refl delimiter_is_not_quotechar delimiter_is_not_LF
  delimiter_is_not_CR delimiter_is_not_newline LF_is_not_quotechar
  LF_is_not_delimiter LF_is_newline LF_is_not_CR CR_is_not_quotechar
  CR_is_not_delimiter CR_is_newline CR_is_CR quotechar_is_not_LF
  quotechar_is_not_CR quotechar_is_not_newline : csv_tests.

Ltac tests := autorewrite with csv_tests.
Ltac steps := repeat (progress (cbn [go]; tests)).

(** Where reading stands once the characters of a written field are read:
    after the closing quote of a quoted field, inside an unquoted one, or,
    for an empty field, where it started. *)
Lemma go_content st f row tail :
  quoted f →
  st = START_FIELD ∨ (∃ b, st = START_RECORD b ∧ row = []) →
  go st [] row (write_field lt nl f +:+ tail)
  = if has_special lt nl f then
      go QUOTE_IN_QUOTED_FIELD (rev (list_ascii_of_string f) ++ []) row tail
    else match f with
         | EmptyString => go st [] row tail
         | String _ _ => go IN_FIELD (rev (list_ascii_of_string f) ++ []) row tail
         end.
Proof.
  intros Hq Hst. unfold write_field. destruct (has_special lt nl f) eqn:Hf.
  - rewrite append_cons, append_assoc.
    change (Py.chr quotechar +:+ tail) with (String quotechar tail).
    rewrite <- go_quoted.
    destruct Hst as [->|(b & -> & ->)]; cbn [go]; by tests.
  - pose proof (quoted_plain f Hq Hf) as Hl.
    destruct f as [|c f]; [done|].
    rewrite has_special_cons in Hf. apply orb_false_elim in Hf as [Hc Hf].
    rewrite has_newline_cons in Hl. apply orb_false_elim in Hl as [Hn Hl].
    destruct (plain_char c Hc Hn) as (Hlf & Hcr & Hqc & Hdl).
    rewrite append_cons.
    transitivity (go IN_FIELD [c] row (f +:+ tail)).
    { destruct Hst as [->|(b & -> & ->)]; cbn [go].
      - by rewrite Hn, Hqc, Hdl.
      - by rewrite Hlf, Hcr, Hqc, Hdl. }
    rewrite go_plain by done.
    change [c] with (rev (list_ascii_of_string (String c EmptyString)) ++ []).
    by rewrite app_assoc, <- rev_app_distr.
Qed.

(** The line terminator closes the record, from each of the three places. *)
Lemma go_eol st fld row rest :
  st = QUOTE_IN_QUOTED_FIELD ∨ st = IN_FIELD ∨ (st = START_FIELD ∧ fld = []) →
  go st fld row (lt +:+ rest)
  = close_record fld row :: go (START_RECORD false) [] [] rest.
Proof.
  intros Hst. subst lt. unfold linesep.
  destruct Hst as [->|[->|[-> ->]]], (system os);
    rewrite ?append_cons, ?append_nil_l; unfold Py.chr;
    rewrite ?append_cons, ?append_nil_l; by steps.
Qed.

(** A written field followed by the delimiter is read back as that field. *)
Lemma go_field_sep st f row rest :
  quoted f →
  st = START_FIELD ∨ (∃ b, st = START_RECORD b ∧ row = []) →
  go st [] row (write_field lt nl f +:+ String delimiter rest)
  = go START_FIELD [] (f :: row) rest.
Proof.
  intros Hq Hst. rewrite go_content by done.
  destruct (has_special lt nl f).
  - steps. by rewrite close_field_rev.
  - destruct f as [|c f].
    + destruct Hst as [->|(b & -> & ->)]; by steps.
    + steps. by rewrite (close_field_rev (String c f)).
Qed.

(** A written field followed by the line terminator is read back as the last
    field of its record; at the start of a record the field must not be
    empty (an empty line is no record). *)
Lemma go_field_eol st f row rest :
  quoted f →
  st = START_FIELD ∨ (∃ b, st = START_RECORD b ∧ row = [] ∧ f ≠ EmptyString) →
  go st [] row (write_field lt nl f +:+ lt +:+ rest)
  = rev (f :: row) :: go (START_RECORD false) [] [] rest.
Proof.
  intros Hq Hst.
  rewrite go_content by (done || destruct Hst as [?|(b & ? & ? & _)]; eauto).
  destruct (has_special lt nl f).
  - rewrite go_eol by auto. by rewrite close_record_rev.
  - destruct f as [|c f].
    + destruct Hst as [->|(b & _ & _ & Hne)]; [|done].
      by rewrite go_eol by auto.
    + rewrite go_eol by auto. by rewrite (close_record_rev (String c f)).
Qed.

Lemma join_cons_cons sep x y l :
  join sep (x :: y :: l) = x +:+ sep +:+ join sep (y :: l).
Proof. reflexivity. Qed.

(** The fields of a line, read from the start of a field. *)
Lemma go_fields fields row rest :
  fields ≠ [] → Forall quoted fields →
  go START_FIELD [] row
    (join (Py.chr delimiter) (write_field lt nl <$> fields) +:+ lt +:+ rest)
  = (rev row ++ fields) :: go (START_RECORD false) [] [] rest.
Proof.
  revert row. induction fields as [|f [|f2 fs] IH]; intros row Hne Hq; [done|..].
  - apply Forall_cons in Hq as [Hf _].
    cbn [fmap list_fmap join]. by rewrite go_field_eol by auto.
  - apply Forall_cons in Hq as [Hf Hq].
    change (write_field lt nl <$> f :: f2 :: fs)
      with (write_field lt nl f :: write_field lt nl f2
              :: (write_field lt nl <$> fs)).
    rewrite join_cons_cons, !append_assoc.
    change (Py.chr delimiter +:+ ?s) with (String delimiter s).
    rewrite go_field_sep by auto.
    change (write_field lt nl f2 :: (write_field lt nl <$> fs))
      with (write_field lt nl <$> f2 :: fs).
    rewrite IH by done. cbn [rev]. by rewrite <- app_assoc.
Qed.

Lemma write_field_empty f : write_field lt nl f = EmptyString → f = EmptyString.
Proof. unfold write_field. by destruct (has_special lt nl f). Qed.

(** A written row is read back as one record. *)
Lemma go_record fields rest :
  fields ≠ [] → Forall quoted fields →
  go (START_RECORD false) [] [] (writerow lt nl fields +:+ rest)
  = fields :: go (START_RECORD false) [] [] rest.
Proof.
  intros Hne Hq. unfold writerow. fold lt.
  destruct fields as [|f [|f2 fs]]; [done|..].
  - apply Forall_cons in Hq as [Hf _]. cbn [fmap list_fmap join].
    destruct (write_field lt nl f) eqn:Hw.
    + apply write_field_empty in Hw as ->.
      rewrite !append_assoc. unfold Py.chr. rewrite !append_cons, !append_nil_l.
      cbn [go]. tests. cbn [go]. tests.
      by rewrite go_eol by auto.
    + rewrite <- Hw, append_assoc.
      rewrite go_field_eol; [done..|].
      right. exists false. repeat split. intros ->. discriminate.
  - apply Forall_cons in Hq as [Hf Hq].
    change (write_field lt nl <$> f :: f2 :: fs)
      with (write_field lt nl f :: write_field lt nl f2
              :: (write_field lt nl <$> fs)).
    rewrite join_cons_cons.
    assert (∀ tl, write_field lt nl f +:+ Py.chr delimiter +:+ tl ≠ EmptyString)
      as Hnon.
    { intros tl. by destruct (write_field lt nl f). }
    destruct (write_field lt nl f +:+ Py.chr delimiter +:+ _) eqn:Hline;
      [by apply Hnon in Hline|].
    rewrite <- Hline, !append_assoc.
    change (Py.chr delimiter +:+ ?s) with (String delimiter s).
    rewrite go_field_sep by eauto.
    change (write_field lt nl f2 :: (write_field lt nl <$> fs))
      with (write_field lt nl <$> f2 :: fs).
    by rewrite go_fields.
Qed.

Lemma concat_cons x l : concat (x :: l) = x +:+ concat l.
Proof. reflexivity. Qed.

(** Rows written one after the other are read back in the same order. *)
Lemma go_records rows :
  Forall (λ r, r ≠ []) rows → Forall (Forall quoted) rows →
  go (START_RECORD false) [] [] (writerows lt nl rows) = rows.
Proof.
  unfold writerows. induction 1 as [|r rows Hr _ IH]; intros Hq; [done|].
  apply Forall_cons in Hq as [Hqr Hq].
  change (writerow lt nl <$> r :: rows)
    with (writerow lt nl r :: (writerow lt nl <$> rows)).
  rewrite concat_cons, go_record by done. by rewrite IH.
Qed.

(** Reading what [to_csv] wrote gives the frame back, if the writer put in
    quotes every cell with a newline. *)
Lemma read_to_csv df :
  columns df ≠ [] → Forall (λ r, r ≠ []) (data df) →
  newlines_quoted os df →
  read_export (to_csv os df) = Some df.
Proof.
  intros Hc Hd Hq. apply Forall_cons in Hq as [Hqc Hqd].
  unfold read_export, reader, to_csv. fold lt nl.
  rewrite go_record, go_records by done. by destruct df.
Qed.
End csv.

(** ** Base64 *)

Section base64.
Import Base64 Base64Decode.

(** Every digit decodes to its value and none is the padding character. *)
Lemma value_digit (k : nat) :
  k < 64 →
  value (digit (N.of_nat k)) = Some (N.of_nat k)
  ∧ Ascii.eqb (digit (N.of_nat k)) pad = false.
Proof.
  intros Hk.
  do 64 (destruct k as [|k]; [by vm_compute|]). lia.
Qed.

Lemma value_digit_N (n : N) :
  (n < 64)%N →
  value (digit n) = Some n ∧ Ascii.eqb (digit n) pad = false.
Proof.
  intros Hn. rewrite <- (N2Nat.id n). apply value_digit. lia.
Qed.

Lemma byte_N_of_ascii (n : N) (a : ascii) : (n mod 256)%N = N_of_ascii a → byte n = a.
Proof. unfold byte. intros ->. apply ascii_N_embedding. Qed.

Ltac euclid := zify; Z.to_euclidean_division_equations; lia.

Lemma b64decode_b64encode (bs : list ascii) :
  b64decode (b64encode bs) = Some bs.
Proof.
  assert (∀ n bs, length bs ≤ n → b64decode (b64encode bs) = Some bs) as H;
    [|by apply (H (length bs))].
  clear bs. induction n as [|n IH]; intros bs Hn.
  { by destruct bs; [|simpl in Hn; lia]. }
  destruct bs as [|a [|b [|c rest]]]; [done|..].
  - pose proof (N_ascii_bounded a) as Ha.
    cbn [b64encode].
    set (x := (N_of_ascii a * 65536)%N).
    destruct (value_digit_N (x / 262144)) as [E1 _]; [subst x; euclid|].
    destruct (value_digit_N (x / 4096 mod 64)) as [E2 _]; [subst x; euclid|].
    cbn [b64decode]. rewrite E1, E2. cbn [mbind option_bind].
    rewrite Ascii.eqb_refl. do 2 f_equal.
    apply byte_N_of_ascii. subst x. euclid.
  - pose proof (N_ascii_bounded a) as Ha. pose proof (N_ascii_bounded b) as Hb.
    cbn [b64encode].
    set (x := (N_of_ascii a * 65536 + N_of_ascii b * 256)%N).
    destruct (value_digit_N (x / 262144)) as [E1 _]; [subst x; euclid|].
    destruct (value_digit_N (x / 4096 mod 64)) as [E2 _]; [subst x; euclid|].
    destruct (value_digit_N (x / 64 mod 64)) as [E3 P3]; [subst x; euclid|].
    cbn [b64decode]. rewrite E1, E2. cbn [mbind option_bind].
    rewrite Ascii.eqb_refl, P3, E3. cbn [mbind option_bind].
    do 2 f_equal; [|f_equal]; apply byte_N_of_ascii; subst x; euclid.
  - pose proof (N_ascii_bounded a) as Ha. pose proof (N_ascii_bounded b) as Hb.
    pose proof (N_ascii_bounded c) as Hc.
    cbn [b64encode].
    set (x := (N_of_ascii a * 65536 + N_of_ascii b * 256 + N_of_ascii c)%N).
    destruct (value_digit_N (x / 262144)) as [E1 _]; [subst x; euclid|].
    destruct (value_digit_N (x / 4096 mod 64)) as [E2 _]; [subst x; euclid|].
    destruct (value_digit_N (x / 64 mod 64)) as [E3 _]; [subst x; euclid|].
    destruct (value_digit_N (x mod 64)) as [E4 P4]; [subst x; euclid|].
    cbn [b64decode]. rewrite E1, E2. cbn [mbind option_bind].
    rewrite P4, E3. cbn [mbind option_bind]. rewrite E4. cbn [mbind option_bind].
    rewrite IH by (simpl in Hn; lia). cbn [mbind option_bind].
    do 2 f_equal; [|f_equal; [|f_equal]]; apply byte_N_of_ascii; subst x; euclid.
Qed.
End base64.

(** The link carries the exported text: decoding its payload gives the text
    back. *)
Lemma downloaded_export_payload os df :
  downloaded (export_payload os df) = Some (to_csv os df).
Proof.
  unfold downloaded, export_payload, encode, decode.
  rewrite String.list_ascii_of_string_of_list_ascii, b64decode_b64encode. simpl.
  by rewrite String.string_of_list_ascii_of_string.
Qed.
(** ** The tabular export *)

Lemma entities_frame_data doc :
  data (entities_frame doc) = (λ ent, [text ent; label_ ent]) <$> ents doc.
Proof.
  unfold entities_frame, DataFrame_of, entities_data. simpl.
  by rewrite <- list_fmap_compose.
Qed.

Lemma entities_frame_rows_nonempty doc :
  Forall (λ r, r ≠ []) (data (entities_frame doc)).
Proof.
  rewrite entities_frame_data. apply Forall_fmap, Forall_true. done.
Qed.

(** *** When the writer quotes for a newline *)

Section quoting.
Context (os : Platform).

Lemma linesep_has_LF : Csv.in_string Py.LF (linesep os) = true.
Proof. unfold linesep. by destruct (system os). Qed.

Lemma special_LF c :
  Ascii.eqb c Py.LF = true →
  Csv.special (linesep os) (quotes_newlines os) c = true.
Proof.
  intros ->%Ascii.eqb_eq. unfold Csv.special.
  rewrite linesep_has_LF. by rewrite !orb_true_r.
Qed.

Lemma special_newline c :
  newline_safe os = true → CsvReader.is_newline c = true →
  Csv.special (linesep os) (quotes_newlines os) c = true.
Proof.
  unfold newline_safe, CsvReader.is_newline, Csv.special, linesep.
  intros Hs Hc. destruct (quotes_newlines os); simpl in *.
  - rewrite Hc. by rewrite orb_true_r.
  - destruct (system os); [done|].
    apply orb_true_iff in Hc as [->%Ascii.eqb_eq| ->%Ascii.eqb_eq]; done.
Qed.

(** A field is quoted whenever one of its newlines is special. *)
Lemma newline_quoted_by s :
  (∀ c, c ∈ list_ascii_of_string s → CsvReader.is_newline c = true →
        Csv.special (linesep os) (quotes_newlines os) c = true) →
  newline_quoted os s = true.
Proof.
  intros H. unfold newline_quoted, has_newline, Csv.has_special.
  destruct (existsb CsvReader.is_newline _) eqn:E; [|done]. simpl.
  apply existsb_exists in E as (c & Hin & Hc).
  apply existsb_exists. exists c. split; [done|].
  apply H; [by apply list_elem_of_In | done].
Qed.

Lemma newline_quoted_safe s : newline_safe os = true → newline_quoted os s = true.
Proof. intros Hs. apply newline_quoted_by. intros c _. by apply special_newline. Qed.

Lemma newline_quoted_no_cr s : has_cr s = false → newline_quoted os s = true.
Proof.
  intros Hcr. apply newline_quoted_by. intros c Hin Hc.
  unfold CsvReader.is_newline in Hc.
  apply orb_true_iff in Hc as [Hc|Hc]; [by apply special_LF|].
  assert (has_cr s = true) as E; [|congruence].
  apply existsb_exists. exists c. split; [by apply list_elem_of_In | done].
Qed.

(** The quoting condition on the frame of a document, entity by entity. *)
Lemma newlines_quoted_entities doc :
  newlines_quoted os (entities_frame doc)
  ↔ Forall (λ ent, newline_quoted os (text ent) = true
                   ∧ newline_quoted os (label_ ent) = true) (ents doc).
Proof.
  unfold newlines_quoted. rewrite Forall_cons, entities_frame_data, Forall_fmap.
  split.
  - intros [_ H]. eapply Forall_impl; [exact H|]. intros ent Hent. simpl in Hent.
    apply Forall_cons in Hent as [H1 Hent]. by apply Forall_cons in Hent as [H2 _].
  - intros H. split.
    + repeat constructor; by apply newline_quoted_no_cr.
    + eapply Forall_impl; [exact H|]. intros ent [H1 H2]. simpl.
      by repeat constructor.
Qed.

(** It holds on every host that is safe, and on the others for a document
    without a carriage return. *)
Lemma newlines_quoted_sufficient doc :
  newline_safe os = true ∨ no_cr doc →
  newlines_quoted os (entities_frame doc).
Proof.
  intros H. apply newlines_quoted_entities. destruct H as [Hs|Hd].
  - apply Forall_true. intros ent. split; by apply newline_quoted_safe.
  - eapply Forall_impl; [exact Hd|]. intros ent [H1 H2].
    split; by apply newline_quoted_no_cr.
Qed.

Lemma read_entities_frame doc :
  newlines_quoted os (entities_frame doc) →
  read_export (to_csv os (entities_frame doc)) = Some (entities_frame doc).
Proof.
  intros Hq. apply read_to_csv; [done | apply entities_frame_rows_nonempty | done].
Qed.

Lemma reader_entities_frame doc :
  newlines_quoted os (entities_frame doc) →
  CsvReader.reader (to_csv os (entities_frame doc))
  = ["Entity"; "Type"] :: ((λ ent, [text ent; label_ ent]) <$> ents doc).
Proof.
  intros Hq. pose proof (read_entities_frame doc Hq) as H.
  unfold read_export in H.
  destruct (CsvReader.reader _) as [|header rows]; [done|].
  injection H as -> ->. f_equal. apply entities_frame_data.
Qed.
End quoting.

(** The line of one entity: its two fields, the delimiter between them, the
    line terminator after them. *)
Lemma writerow_pair lt nl (a b : string) :
  Csv.writerow lt nl [a; b]
  = Csv.write_field lt nl a +:+ "," +:+ Csv.write_field lt nl b +:+ lt.
Proof.
  unfold Csv.writerow.
  change (Csv.join (Py.chr Csv.delimiter) (Csv.write_field lt nl <$> [a; b]))
    with (Csv.write_field lt nl a +:+ "," +:+ Csv.write_field lt nl b).
  destruct (Csv.write_field lt nl a +:+ "," +:+ Csv.write_field lt nl b)
    as [|c line] eqn:E.
  - by destruct (Csv.write_field lt nl a).
  - rewrite <- E. by rewrite !append_assoc.
Qed.

Lemma write_field_header os :
  Csv.write_field (linesep os) (quotes_newlines os) "Entity" = "Entity"
  ∧ Csv.write_field (linesep os) (quotes_newlines os) "Type" = "Type".
Proof.
  unfold linesep, quotes_newlines. by destruct (system os), (python os).
Qed.

(** C6, as amended: for a document with entities, tab 2 shows the table and
    the download link; the text behind the link is the header line
    [Entity,Type] followed by one line per entity, in document order and
    with repeated entities kept, each line made of the text field, a comma,
    the label field and the line terminator of the host.  When the writer
    has put in quotes every field that holds a carriage return or a line
    feed, the text reads back with two columns in every record, its i-th
    data record being the i-th entity; the writer does so on Windows and
    with CPython 3.13 or later, and on any host for a document without a
    carriage return. *)
Theorem export_format (req : Request) (doc : Doc) (σ : Cache) :
  ents doc ≠ [] →
  let df := entities_frame doc in
  let csv := to_csv (os req) df in
  let eol := linesep (os req) in
  let field := Csv.write_field eol (quotes_newlines (os req)) in
  tab2 req doc σ
  = (inr tt, σ,
     [ St (Tab 2) (StSubheader "Extracted Entities");
       St (Tab 2) (StDataframe df true);
       St (Tab 2) (StMarkdown (download_link (export_payload (os req) df)) true) ])
  ∧ downloaded (export_payload (os req) df) = Some csv
  ∧ csv
    = "Entity,Type" +:+ eol
      +:+ Csv.concat ((λ ent, field (text ent) +:+ "," +:+ field (label_ ent)
                               +:+ eol)
                        <$> ents doc)
  ∧ (newlines_quoted (os req) df →
     head (CsvReader.reader csv) = Some ["Entity"; "Type"]
     ∧ length (CsvReader.reader csv) = S (length (ents doc))
     ∧ Forall (λ r, length r = 2) (CsvReader.reader csv)
     ∧ (∀ i ent, ents doc !! i = Some ent →
                 CsvReader.reader csv !! S i = Some [text ent; label_ ent]))
  ∧ (newline_safe (os req) = true ∨ no_cr doc → newlines_quoted (os req) df).
Proof.
  intros Hne df csv eol field.
  split; [by apply tab2_nonempty|].
  split; [apply downloaded_export_payload|].
  split.
  { subst csv df eol field. unfold to_csv. rewrite entities_frame_data.
    change (columns (entities_frame doc)) with ["Entity"; "Type"].
    rewrite writerow_pair, !append_assoc.
    destruct (write_field_header (os req)) as [-> ->].
    change ("Entity" +:+ "," +:+ "Type" +:+ ?x) with ("Entity,Type" +:+ x).
    do 2 f_equal.
    unfold Csv.writerows. rewrite <- list_fmap_compose. f_equal.
    apply list_fmap_ext. intros i ent _. apply writerow_pair. }
  split; [|apply newlines_quoted_sufficient].
  intros Hq. subst csv df. rewrite reader_entities_frame by done.
  split; [done|]. split; [by rewrite length_cons, length_fmap|].
  split.
  - constructor; [done|]. by apply Forall_fmap, Forall_true.
  - intros i ent Hi. simpl. by rewrite list_lookup_fmap, Hi.
Qed.

Lemma export_format_witness :
  to_csv Sample.host (entities_frame Sample.sample_doc)
  = "Entity,Type" +:+ Py.chr Py.LF
    +:+ "Apple Inc.,ORG" +:+ Py.chr Py.LF
    +:+ "New York City,GPE" +:+ Py.chr Py.LF
    +:+ "next January,DATE" +:+ Py.chr Py.LF
    +:+ "Tim Cook,PERSON" +:+ Py.chr Py.LF
    +:+ "Boston,GPE" +:+ Py.chr Py.LF
    +:+ "last week,DATE" +:+ Py.chr Py.LF
  ∧ length (CsvReader.reader (to_csv Sample.host (entities_frame Sample.sample_doc)))
    = 7.
Proof.
  destruct (export_format Sample.analyze_sample Sample.sample_doc ∅)
    as (_ & _ & Hcsv & Hread & Hsafe).
  - discriminate.
  - split; [exact Hcsv|].
    refine (proj1 (proj2 (Hread (Hsafe _)))). left. reflexivity.
Defined.

(** C6 as stated fails: on a POSIX host with CPython up to 3.12 the writer
    leaves a field with a carriage return and no other special character
    without quotes, so the export of the one entity [A\rB] reads as three
    records, the middle one with a single column. *)
Lemma export_format_counterexample :
  let csv := to_csv Faults.old_host (entities_frame Faults.torn) in
  ents Faults.torn ≠ []
  ∧ csv = "Entity,Type" +:+ Py.chr Py.LF
          +:+ "A" +:+ Py.chr Py.CR +:+ "B,ORG" +:+ Py.chr Py.LF
  ∧ CsvReader.reader csv = [["Entity"; "Type"]; ["A"]; ["B"; "ORG"]]
  ∧ length (CsvReader.reader csv) ≠ S (length (ents Faults.torn))
  ∧ ¬ Forall (λ r, length r = 2) (CsvReader.reader csv).
Proof.
  intros csv. split; [done|]. split; [reflexivity|]. split; [reflexivity|].
  split; [by vm_compute|].
  change (CsvReader.reader csv) with [["Entity"; "Type"]; ["A"]; ["B"; "ORG"]].
  intros H. apply Forall_cons in H as [_ H]. by apply Forall_cons in H as [H _].
Qed.

(** C7, as amended: for every entity sequence, on every host, the exported
    table has as many rows as there are entities and the text behind the
    download link decodes to the delimited text.  When the writer has put
    in quotes every field that holds a carriage return or a line feed,
    reading the delimited text back gives the same table: the header and,
    in order, the (text, label) pair of each entity, whatever characters
    the texts contain (delimiters, quotes, line feeds and carriage returns
    included).  The writer does so on Windows and with CPython 3.13 or
    later, and on any host for a document without a carriage return.
    Whenever tab 2 shows a link, it is the link to this text. *)
Theorem export_roundtrip (host : Platform) (doc : Doc) :
  let df := entities_frame doc in
  length (data df) = length (ents doc)
  ∧ downloaded (export_payload host df) = Some (to_csv host df)
  ∧ (newlines_quoted host df →
     read_export (to_csv host df) = Some df
     ∧ data <$> read_export (to_csv host df)
       = Some ((λ ent, [text ent; label_ ent]) <$> ents doc))
  ∧ (newline_safe host = true ∨ no_cr doc → newlines_quoted host df)
  ∧ (∀ req σ body,
       St (Tab 2) (StMarkdown body true) ∈ (tab2 req doc σ).2 →
       body = download_link (export_payload (os req) df)).
Proof.
  intros df. subst df.
  split; [by rewrite entities_frame_data, length_fmap|].
  split; [apply downloaded_export_payload|].
  split.
  { intros Hq. rewrite read_entities_frame by done.
    split; [done|]. by rewrite <- entities_frame_data. }
  split; [apply newlines_quoted_sufficient|].
  intros req σ body Hin.
  destruct (decide (ents doc = [])) as [He|He].
  - rewrite (tab2_empty _ _ _ He) in Hin. simpl in Hin.
    repeat (apply elem_of_cons in Hin as [Hin|Hin]; [discriminate|]).
    by apply elem_of_nil in Hin.
  - rewrite (tab2_nonempty _ _ _ He) in Hin. simpl in Hin.
    repeat (apply elem_of_cons in Hin as [Hin|Hin]; [by simplify_eq|]).
    by apply elem_of_nil in Hin.
Qed.

(** On a POSIX host with an old interpreter the awkward texts, whose
    carriage return stands next to a comma, come back. *)
Lemma export_roundtrip_witness :
  read_export (to_csv Faults.old_host (entities_frame Faults.awkward))
  = Some (entities_frame Faults.awkward).
Proof.
  destruct (export_roundtrip Faults.old_host Faults.awkward)
    as (_ & _ & Hread & _).
  refine (proj1 (Hread _)). unfold newlines_quoted.
  repeat (constructor; [repeat constructor|]). constructor.
Defined.

(** C7 as stated fails: on a POSIX host with CPython up to 3.12, reading
    the export of the one entity [A\rB] back gives two rows, neither of
    them the entity, instead of the table. *)
Lemma export_roundtrip_counterexample :
  let df := entities_frame Faults.torn in
  read_export (to_csv Faults.old_host df)
  = Some {| columns := ["Entity"; "Type"]; data := [["A"]; ["B"; "ORG"]] |}
  ∧ read_export (to_csv Faults.old_host df) ≠ Some df
  ∧ data <$> read_export (to_csv Faults.old_host df)
    ≠ Some ((λ ent, [text ent; label_ ent]) <$> ents Faults.torn).
Proof.
  intros df. split; [reflexivity|].
  change (read_export (to_csv Faults.old_host df))
    with (Some {| columns := ["Entity"; "Type"]; data := [["A"]; ["B"; "ORG"]] |}).
  split; discriminate.
Qed.

(** The awkward texts as the writers write them and as they read back: on a
    current POSIX host, on one with an old interpreter, and on Windows. *)
Example awkward_texts_roundtrip :
  let doc := Faults.awkward in
  to_csv Sample.host (entities_frame doc)
  = "Entity,Type" +:+ Py.chr Py.LF
    +:+ DQ +:+ "Smith, John" +:+ DQ +:+ ",PERSON" +:+ Py.chr Py.LF
    +:+ DQ +:+ "The " +:+ DQ +:+ DQ +:+ "Big" +:+ DQ +:+ DQ +:+ " Apple" +:+ DQ
          +:+ ",GPE" +:+ Py.chr Py.LF
    +:+ DQ +:+ "New" +:+ Py.chr Py.LF +:+ "York" +:+ DQ +:+ ",GPE" +:+ Py.chr Py.LF
    +:+ DQ +:+ "A," +:+ Py.chr Py.CR +:+ "B" +:+ DQ +:+ ",ORG" +:+ Py.chr Py.LF
    +:+ DQ +:+ "Smith, John" +:+ DQ +:+ ",PERSON" +:+ Py.chr Py.LF
    +:+ ",ORG" +:+ Py.chr Py.LF
  ∧ CsvReader.reader (to_csv Sample.host (entities_frame doc))
    = ["Entity"; "Type"] :: ((λ ent, [text ent; label_ ent]) <$> ents doc)
  ∧ CsvReader.reader (to_csv Faults.old_host (entities_frame doc))
    = ["Entity"; "Type"] :: ((λ ent, [text ent; label_ ent]) <$> ents doc)
  ∧ CsvReader.reader
      (to_csv {| system := Windows; python := Upto312 |} (entities_frame doc))
    = ["Entity"; "Type"] :: ((λ ent, [text ent; label_ ent]) <$> ents doc).
Proof. repeat split; reflexivity. Qed.

(** ** The four renderers and the length of the entity sequence *)

Lemma occurrences_cons k x l :
  occurrences k (x :: l) = (if decide (x = k) then 1 else 0) + occurrences k l.
Proof.
  unfold occurrences. rewrite filter_cons. by destruct (decide (x = k)).
Qed.

Lemma occurrences_absent k l : k ∉ l → occurrences k l = 0.
Proof.
  induction l as [|x l IH]; intros Hk; [done|].
  apply not_elem_of_cons in Hk as [Hx Hl].
  rewrite occurrences_cons, IH by done. by rewrite decide_False.
Qed.

(** Setting one element of a duplicate-free list apart in a sum. *)
Lemma sum_list_split (f : string → nat) (x : string) (ks : list string) :
  NoDup ks →
  sum_list (f <$> ks)
  = (if decide (x ∈ ks) then f x else 0)
    + sum_list (f <$> filter (λ y, y ≠ x) ks).
Proof.
  induction ks as [|k ks IH]; intros Hnd; [done|].
  apply NoDup_cons in Hnd as [Hk Hnd]. rewrite filter_cons. csimpl.
  rewrite IH by done.
  destruct (decide (k = x)) as [->|Hne], (decide (x ∈ ks)) as [Hin|Hout]; try done.
  - destruct (decide (x ∈ x :: ks)) as [_|[]]; [|apply list_elem_of_here].
    destruct (decide (x ≠ x)); [done|]. lia.
  - destruct (decide (x ∈ k :: ks)) as [_|[]]; [|by apply list_elem_of_further].
    destruct (decide (k ≠ x)); [|done]. csimpl. lia.
  - destruct (decide (x ∈ k :: ks)) as [[?|?]%elem_of_cons|_]; [congruence|done|].
    destruct (decide (k ≠ x)); [|done]. csimpl. lia.
Qed.

(** The counts of the distinct elements add up to the length of the list. *)
Lemma sum_occurrences (l : list string) :
  sum_list ((λ k, occurrences k l) <$> distinct l) = length l.
Proof.
  induction l as [|x l IH]; [done|].
  cbn [distinct]. csimpl. rewrite occurrences_cons, decide_True by done.
  rewrite (list_fmap_ext _ (λ k, occurrences k l) (filter _ _)); last first.
  { intros i k Hk%list_elem_of_lookup_2.
    apply list_elem_of_filter in Hk as [Hk _].
    rewrite occurrences_cons. by rewrite decide_False by done. }
  rewrite (sum_list_split _ x) in IH by apply NoDup_distinct.
  destruct (decide (x ∈ distinct l)) as [Hin|Hout]; [lia|].
  rewrite occurrences_absent; [lia|]. by rewrite <- elem_of_distinct.
Qed.

Lemma count_figure_total doc :
  sum_list (rect_height <$> bars_of (count_figure doc)) = length (ents doc).
Proof.
  rewrite count_figure_bars, <- list_fmap_compose.
  rewrite (list_fmap_ext _ (λ k, occurrences k (label_ <$> ents doc)) _)
    by done.
  by rewrite sum_occurrences, length_fmap.
Qed.

(** The trace of a run that analyses a document with entities. *)
Lemma run_analysis (req : Request) (σ σ1 : Cache) (nlp : Language)
    (t0 : list Event) (doc : Doc) :
  let name := selected_model req in
  let u := set_iter req (label_ <$> ents doc) in
  load_model req name σ = (inr nlp, σ1, t0) →
  button_clicked req = true →
  ¬ Py.blank (text_input req) →
  nlp (text_input req) = inr doc →
  ents doc ≠ [] →
  set_listing u (label_ <$> ents doc) →
  typesets req doc →
  run req σ
  = (Completed, σ1,
     header_events ++ (t0 ++ [loaded_event name]) ++ input_events
       ++ ([ Infer (text_input req); St Main (StTabs tab_labels) ]
             ++ (tab1 req doc σ1).2 ++ (tab2 req doc σ1).2 ++ (tab3 doc σ1).2
             ++ (tab4 req doc σ1).2)
       ++ footer_events).
Proof.
  intros name u Hload Hclick Htext Hnlp Hne Hu Htype.
  apply (run_clicked _ _ _ _ _ Hload Hclick (inr tt)).
  rewrite on_click_text by done. rewrite (analyze_returns _ _ _ _ _ Hnlp).
  by rewrite (tab4_nonempty _ _ _ _ Hne (scatter_figure_run req doc σ1 Hu Htype)).
Qed.

(** The four views of a run that analyses a document with entities. *)
Lemma run_analysis_views (req : Request) (σ σ1 : Cache) (nlp : Language)
    (t0 : list Event) (doc : Doc) :
  let name := selected_model req in
  let u := set_iter req (label_ <$> ents doc) in
  load_model req name σ = (inr nlp, σ1, t0) →
  button_clicked req = true →
  ¬ Py.blank (text_input req) →
  nlp (text_input req) = inr doc →
  ents doc ≠ [] →
  set_listing u (label_ <$> ents doc) →
  typesets req doc →
  ∃ t,
    run req σ = (Completed, σ1, t)
    ∧ inferences t = [Infer (text_input req)]
    ∧ view (Tab 1) t
      = [ StSubheader "Entities Highlighted in Text";
          StMarkdown (displacy_render req doc entity_colors) true ]
    ∧ view (Tab 2) t
      = [ StSubheader "Extracted Entities";
          StDataframe (entities_frame doc) true;
          StMarkdown (download_link (export_payload (os req) (entities_frame doc))) true ]
    ∧ view (Tab 3) t
      = [ StSubheader "Entity Count by Type"; StPyplot (count_figure doc) ]
    ∧ view (Tab 4) t
      = [ StSubheader "Entity Network Visualization";
          StMarkdown
            "Entity relationship visualization shows how entities appear in the document:"
            false;
          StPyplot (scatter_of u (ents doc)) ].
Proof.
  intros name u Hload Hclick Htext Hnlp Hne Hu Htype.
  eexists. split; [by apply (run_analysis req σ σ1 nlp t0 doc)|].
  rewrite (inferences_run _ _ _ _ _ Hload), !(view_tab_run _ _ _ _ _ Hload).
  rewrite tab1_run, (tab2_nonempty _ _ _ Hne), (tab3_nonempty _ _ Hne).
  rewrite (tab4_nonempty _ _ _ _ Hne (scatter_figure_run req doc σ1 Hu Htype)).
  by repeat split.
Qed.

Lemma table_rows_one a df c :
  table_rows [StSubheader a; StDataframe df true; StMarkdown c true]
  = length (data df).
Proof. unfold table_rows. simpl. lia. Qed.

Lemma bar_total_one a fig :
  bar_total [StSubheader a; StPyplot fig]
  = sum_list (rect_height <$> bars_of fig).
Proof. unfold bar_total. simpl. lia. Qed.

Lemma scatter_points_one a b fig :
  scatter_points [StSubheader a; StMarkdown b false; StPyplot fig]
  = length (points_of fig).
Proof. unfold scatter_points. simpl. lia. Qed.

(** X19: when a text that is not blank is analysed and the layout of tab 4
    accepts every entity text, each renderer works from the whole entity
    sequence: the highlighter is given the document itself, the rows of the
    table, the heights of the bars of the frequency chart taken together,
    and the points of the scatter plot are each as many as the entities the
    model returned; and when there are entities there is exactly one table,
    one chart and one scatter plot. *)
Theorem renderers_cover_every_entity
    (req : Request) (σ σ1 : Cache) (nlp : Language) (t0 : list Event) (doc : Doc) :
  let name := selected_model req in
  let u := set_iter req (label_ <$> ents doc) in
  load_model req name σ = (inr nlp, σ1, t0) →
  button_clicked req = true →
  ¬ Py.blank (text_input req) →
  nlp (text_input req) = inr doc →
  (ents doc ≠ [] → set_listing u (label_ <$> ents doc)) →
  typesets req doc →
  ∃ t,
    run req σ = (Completed, σ1, t)
    ∧ inferences t = [Infer (text_input req)]
    ∧ view (Tab 1) t
      = [ StSubheader "Entities Highlighted in Text";
          StMarkdown (displacy_render req doc entity_colors) true ]
    ∧ table_rows (view (Tab 2) t) = length (ents doc)
    ∧ bar_total (view (Tab 3) t) = length (ents doc)
    ∧ scatter_points (view (Tab 4) t) = length (ents doc)
    ∧ (ents doc ≠ [] →
       length (dataframes (view (Tab 2) t)) = 1
       ∧ length (figures (view (Tab 3) t)) = 1
       ∧ length (figures (view (Tab 4) t)) = 1).
Proof.
  intros name u Hload Hclick Htext Hnlp Hu Htype.
  destruct (decide (ents doc = [])) as [Hnil|Hne].
  - eexists. split; [by apply (run_no_entities req σ σ1 nlp t0 doc)|].
    rewrite (inferences_run _ _ _ _ _ Hload), !(view_tab_run _ _ _ _ _ Hload).
    rewrite Hnil. by repeat split.
  - destruct (run_analysis_views req σ σ1 nlp t0 doc)
      as (t & Hrun & Hinf & H1 & H2 & H3 & H4); [done..|by apply Hu|done|].
    exists t. rewrite H2, H3, H4.
    rewrite table_rows_one, bar_total_one, scatter_points_one.
    rewrite entities_frame_data, length_fmap, count_figure_total.
    rewrite scatter_of_points, length_imap. by repeat split.
Qed.

Lemma renderers_cover_every_entity_witness :
  ∃ t,
    run Sample.analyze_sample ∅
    = (Completed, <["en_core_web_sm" := Sample.nlp]> ∅, t)
    ∧ table_rows (view (Tab 2) t) = 6
    ∧ bar_total (view (Tab 3) t) = 6
    ∧ scatter_points (view (Tab 4) t) = 6.
Proof.
  destruct (renderers_cover_every_entity Sample.analyze_sample ∅
              (<["en_core_web_sm" := Sample.nlp]> ∅) Sample.nlp
              [SpacyLoad "en_core_web_sm"; CacheStore "en_core_web_sm"]
              Sample.sample_doc)
    as (t & Hrun & _ & _ & Hrows & Hsum & Hpts & _).
  - reflexivity.
  - reflexivity.
  - apply not_blank_by_computation. reflexivity.
  - reflexivity.
  - intros _. unfold set_listing. reflexivity.
  - reflexivity.
  - exists t. repeat split; assumption.
Defined.

(** C5, at a text whose one entity is the price [$5 % of $6]: the model
    returns one entity, the table has one row and the bars add up to one,
    but the layout of tab 4 rejects the annotation, the run ends with the
    [ValueError] of [plt.tight_layout()], and tab 4 holds no figure: the
    scatter plot has no point for the entity. *)
Theorem unparseable_annotation_loses_the_scatter :
  let req := Faults.analyze_price in
  let t := (run req ∅).2 in
  ¬ Py.blank (text_input req)
  ∧ Faults.pricing (text_input req) = inr Faults.priced_doc
  ∧ length (ents Faults.priced_doc) = 1
  ∧ (run req ∅).1.1 = Crashed (ValueError Faults.rejected)
  ∧ inferences t = [Infer (text_input req)]
  ∧ table_rows (view (Tab 2) t) = 1
  ∧ bar_total (view (Tab 3) t) = 1
  ∧ scatter_points (view (Tab 4) t) = 0
  ∧ figures (view (Tab 4) t) = [].
Proof.
  intros req t. split; [apply not_blank_by_computation; reflexivity|].
  repeat split; reflexivity.
Qed.

(** ** The model cache over a session *)

Section emits.
Context (P : Event → Prop).

Lemma emits_ret {A} (a : A) : emits P (ret a).
Proof. intros σ. constructor. Qed.

Lemma emits_raise {A} e : emits P (@raise A e).
Proof. intros σ. constructor. Qed.

Lemma emits_emit ev : P ev → emits P (emit ev).
Proof. intros Hev σ. by repeat constructor. Qed.

Lemma emits_bind {A B} (m : M A) (k : A → M B) :
  emits P m → (∀ a, emits P (k a)) → emits P (bind m k).
Proof.
  intros Hm Hk σ. unfold bind. specialize (Hm σ).
  destruct (m σ) as [[[e|a] σ1] t1]; simpl in *; [done|].
  specialize (Hk a σ1). destruct (k a σ1) as [[r σ2] t2]. simpl in *.
  by apply Forall_app.
Qed.

Lemma emits_call {A} ev (r : BaseException + A) : P ev → emits P (call ev r).
Proof.
  intros Hev. apply emits_bind; [by apply emits_emit|].
  intros _. destruct r; [apply emits_raise | apply emits_ret].
Qed.

Lemma emits_comprehension {A B} (f : A → M B) l :
  (∀ x, emits P (f x)) → emits P (comprehension f l).
Proof.
  intros Hf. induction l as [|x l IH]; [apply emits_ret|]. simpl.
  apply emits_bind; [done|]. intros y.
  apply emits_bind; [done|]. intros ys. apply emits_ret.
Qed.

Lemma emits_getitem d k : emits P (getitem d k).
Proof. unfold getitem. destruct (d !! k); [apply emits_ret | apply emits_raise]. Qed.

Lemma emits_index {A} (l : list A) i : emits P (index l i).
Proof. unfold index. destruct (l !! i); [apply emits_ret | apply emits_raise]. Qed.

Lemma emits_tight_layout parser texts : emits P (tight_layout parser texts).
Proof.
  induction texts as [|s texts IH]; [apply emits_ret|]. simpl.
  apply emits_bind; [|done]. unfold layout_text.
  destruct (Mathtext.is_math_text s); [|apply emits_ret].
  destruct (parser s); [apply emits_raise | apply emits_ret].
Qed.

(** Building the figure of tab 4 shows nothing. *)
Lemma emits_scatter_figure req doc : emits P (scatter_figure req doc).
Proof.
  unfold scatter_figure.
  apply emits_bind; [apply emits_comprehension; intros; apply emits_getitem|].
  intros ys. apply emits_bind.
  { apply emits_comprehension. intros [i x].
    apply emits_bind; [apply emits_index | intros; apply emits_ret]. }
  intros labels. apply emits_bind; [apply emits_tight_layout|].
  intros; apply emits_ret.
Qed.
End emits.

Lemma passive_on_click req nlp txt : emits passive (on_click req nlp txt).
Proof.
  unfold on_click. destruct (negb _); [by apply emits_emit|].
  unfold analyze. apply emits_bind; [by apply emits_call|]. intros doc.
  apply emits_bind; [by apply emits_emit|]. intros _.
  apply emits_bind.
  { unfold tab1. repeat (apply emits_bind; [by apply emits_emit|]; intros _).
    by apply emits_emit. }
  intros _. apply emits_bind.
  { unfold tab2. apply emits_bind; [by apply emits_emit|]. intros _.
    destruct (bool_decide _); [|by apply emits_emit].
    apply emits_bind; [by apply emits_emit | by intros; apply emits_emit]. }
  intros _. apply emits_bind.
  { unfold tab3. apply emits_bind; [by apply emits_emit|]. intros _.
    destruct (bool_decide _); by apply emits_emit. }
  intros _. unfold tab4. apply emits_bind; [by apply emits_emit|]. intros _.
  destruct (bool_decide _); [|by apply emits_emit].
  apply emits_bind; [by apply emits_emit|]. intros _.
  apply emits_bind; [|by intros; apply emits_emit].
  apply emits_scatter_figure.
Qed.

(** What the loader contributes to a run: the run's trace is the header, the
    loader's events, and events that are not the loader's; the cache after
    the run is the cache after the load. *)
Lemma run_loader req σ :
  ∃ r σ1 t0 rest,
    load_model req (selected_model req) σ = (r, σ1, t0)
    ∧ (run req σ).1.2 = σ1
    ∧ (run req σ).2 = header_events ++ t0 ++ rest
    ∧ Forall passive rest.
Proof.
  destruct (load_model req (selected_model req) σ) as [[[e|nlp] σ1] t0] eqn:Hload.
  - exists (inl e), σ1, t0, [not_found_event (selected_model req)].
    unfold run. rewrite (script_load_failed _ _ _ _ _ Hload).
    repeat split. by repeat constructor.
  - unfold run. rewrite (script_loaded _ _ _ _ _ Hload).
    set (click := if button_clicked req then _ else _).
    assert (stateless click ∧ emits passive click) as [Hσ Hp].
    { subst click. destruct (button_clicked req).
      - split; [apply stateless_on_click | apply passive_on_click].
      - split; [apply stateless_ret | apply emits_ret]. }
    specialize (Hσ σ1). specialize (Hp σ1).
    destruct (click σ1) as [[[e|[]] σ2] t2]; simpl in Hσ, Hp; subst σ2.
    + exists (inr nlp), σ1, t0,
        ([loaded_event (selected_model req)] ++ input_events ++ t2).
      repeat split; [by rewrite <- !app_assoc|].
      repeat (apply Forall_app; split); by repeat constructor.
    + exists (inr nlp), σ1, t0,
        ([loaded_event (selected_model req)] ++ input_events ++ t2 ++ footer_events).
      repeat split; [by rewrite <- !app_assoc|].
      repeat (apply Forall_app; split); by repeat constructor.
Qed.

Section written_once.
Context (name : string).

Lemma passive_settled t : Forall passive t → settled name t.
Proof.
  intros H. eapply Forall_impl; [exact H|].
  intros ev Hev. unfold passive in Hev. by destruct ev.
Qed.

Lemma has_store_app t1 t2 :
  has_store name (t1 ++ t2) = has_store name t1 || has_store name t2.
Proof. apply existsb_app. Qed.

Lemma has_store_settled t : settled name t → has_store name t = false.
Proof.
  induction 1 as [|ev t [_ Hev] _ IH]; [done|]. simpl. by rewrite Hev, IH.
Qed.

Lemma written_once_settled w t : settled name t → written_once name w t = true.
Proof.
  induction 1 as [|ev t [Hl Hs] _ IH]; [done|]. simpl. by rewrite Hs, Hl.
Qed.

Lemma written_once_true_settled t : written_once name true t = true → settled name t.
Proof.
  induction t as [|ev t IH]; [constructor|]. simpl.
  destruct (is_cache_store name ev) eqn:Hs; [done|].
  destruct (is_spacy_load name ev) eqn:Hl; [done|].
  intros H. constructor; [done | by apply IH].
Qed.

Lemma written_once_app w t1 t2 :
  written_once name w (t1 ++ t2)
  = written_once name w t1 && written_once name (w || has_store name t1) t2.
Proof.
  revert w. induction t1 as [|ev t1 IH]; intros w; simpl.
  { by rewrite orb_false_r. }
  destruct (is_cache_store name ev) eqn:Hs; simpl.
  - rewrite IH. simpl. rewrite orb_true_r. by destruct w.
  - destruct (is_spacy_load name ev); rewrite IH; [|done].
    by destruct w.
Qed.

Lemma stores_app t1 t2 : stores name (t1 ++ t2) = stores name t1 + stores name t2.
Proof. unfold stores. by rewrite filter_app, length_app. Qed.

Lemma stores_settled t : settled name t → stores name t = 0.
Proof.
  unfold stores. induction 1 as [|ev t [_ Hev] _ IH]; [done|].
  rewrite filter_cons. by rewrite Hev.
Qed.

(** A checked trace stores the model at most once, and not at all when the
    cache holds it from the start. *)
Lemma written_once_stores w t :
  written_once name w t = true → stores name t ≤ if w then 0 else 1.
Proof.
  revert w. unfold stores. induction t as [|ev t IH]; intros w; simpl.
  { destruct w; lia. }
  rewrite filter_cons.
  destruct (is_cache_store name ev) eqn:Hs; simpl.
  - intros [Hw H]%andb_prop. destruct w; [done|].
    specialize (IH true H). simpl in *. lia.
  - destruct (is_spacy_load name ev).
    + intros [_ H]%andb_prop. by apply IH.
    + apply IH.
Qed.

(** In a checked trace nothing loads or stores the model after its store. *)
Lemma written_once_after_store w t t1 t2 :
  written_once name w t = true → t = t1 ++ CacheStore name :: t2 →
  settled name t2.
Proof.
  intros H ->. rewrite written_once_app in H.
  apply andb_prop in H as [_ H]. simpl in H.
  rewrite bool_decide_true in H by done.
  apply andb_prop in H as [_ H]. by apply written_once_true_settled.
Qed.

(** One run: the trace passes the check, and the model is in the cache
    afterwards exactly if it was before or the run stored it. *)
Lemma run_written_once req σ :
  let w := bool_decide (is_Some (σ !! name)) in
  written_once name w (run req σ).2 = true
  ∧ w || has_store name (run req σ).2
    = bool_decide (is_Some ((run req σ).1.2 !! name)).
Proof.
  intros w. destruct (run_loader req σ) as (r & σ1 & t0 & rest & Hload & -> & -> & Hrest).
  apply (passive_settled rest) in Hrest.
  assert (settled name header_events) as Hhead by (by repeat constructor).
  rewrite !written_once_app, !has_store_app.
  rewrite (written_once_settled _ _ Hhead), (has_store_settled _ Hhead).
  rewrite (has_store_settled _ Hrest), !orb_false_r. simpl.
  rewrite (written_once_settled _ _ Hrest), andb_true_r.
  destruct (load_model_cases req (selected_model req) σ)
    as [(v & Hc & E) | [(v & Hc & Hl & E) | (e & Hc & Hl & E)]];
    rewrite E in Hload; simplify_eq; simpl.
  - by rewrite orb_false_r.
  - destruct (decide (selected_model req = name)) as [Heq|Hne].
    + rewrite Heq in *. rewrite !bool_decide_true by done. subst w. simpl.
      rewrite lookup_insert_eq, Hc.
      rewrite (bool_decide_false (is_Some None)) by (by intros [? ?]).
      by rewrite bool_decide_true by eauto.
    + rewrite !bool_decide_false by done. simpl. rewrite orb_false_r.
      by rewrite lookup_insert_ne.
  - destruct (decide (selected_model req = name)) as [Heq|Hne].
    + rewrite Heq in *. rewrite !bool_decide_true by done. subst w. rewrite Hc.
      by rewrite (bool_decide_false (is_Some None)) by (by intros [? ?]).
    + rewrite !bool_decide_false by done. by rewrite orb_false_r.
Qed.

(** A cached pipeline stays in the cache. *)
Lemma run_keeps_cached req σ nlp :
  σ !! name = Some nlp → (run req σ).1.2 !! name = Some nlp.
Proof.
  intros Hn. destruct (run_loader req σ) as (r & σ1 & t0 & rest & Hload & -> & _).
  destruct (load_model_cases req (selected_model req) σ)
    as [(v & Hc & E) | [(v & Hc & Hl & E) | (e & Hc & Hl & E)]];
    rewrite E in Hload; simplify_eq; try done.
  rewrite lookup_insert_ne; [done|]. intros Heq. rewrite Heq in Hc. congruence.
Qed.

Lemma session_cons req reqs σ :
  session (req :: reqs) σ
  = ((session reqs (run req σ).1.2).1, (run req σ).2 ++ (session reqs (run req σ).1.2).2).
Proof.
  simpl. destruct (run req σ) as [[s σ1] t1]. simpl.
  by destruct (session reqs σ1).
Qed.

Lemma session_written_once reqs σ :
  written_once name (bool_decide (is_Some (σ !! name))) (session reqs σ).2 = true.
Proof.
  revert σ. induction reqs as [|req reqs IH]; intros σ; [done|].
  rewrite session_cons. cbn [snd]. rewrite written_once_app.
  destruct (run_written_once req σ) as [-> ->]. apply IH.
Qed.

Lemma session_keeps_cached reqs σ nlp :
  σ !! name = Some nlp → (session reqs σ).1 !! name = Some nlp.
Proof.
  revert σ. induction reqs as [|req reqs IH]; intros σ Hn; [done|].
  rewrite session_cons. cbn [fst]. by apply IH, run_keeps_cached.
Qed.
End written_once.

(** C9: over any session (the script run once per request on the carried
    cache), for every model identifier: the trace passes the write-once
    check, so the identifier is stored in the cache at most once, and after
    that nothing loads or stores it again; a request for an identifier the
    cache holds returns the cached object with a cache hit only, no call of
    [spacy.load] and no write; a request for an identifier the cache does
    not hold calls [spacy.load] once and stores the pipeline if the call
    returns one, nothing if it raises; and an object in the cache stays
    there unchanged. *)
Theorem model_loaded_once (reqs : list Request) (σ0 : Cache) (name : string) :
  let t := (session reqs σ0).2 in
  written_once name (bool_decide (is_Some (σ0 !! name))) t = true
  ∧ stores name t ≤ 1
  ∧ (∀ t1 t2, t = t1 ++ CacheStore name :: t2 → settled name t2)
  ∧ (∀ req σ nlp, σ !! name = Some nlp →
       load_model req name σ = (inr nlp, σ, [CacheHit name]))
  ∧ (∀ req σ nlp, σ !! name = None → spacy_load req name = inr nlp →
       load_model req name σ
       = (inr nlp, <[name := nlp]> σ, [SpacyLoad name; CacheStore name]))
  ∧ (∀ req σ e, σ !! name = None → spacy_load req name = inl e →
       load_model req name σ = (inl e, σ, [SpacyLoad name]))
  ∧ (∀ nlp, σ0 !! name = Some nlp → (session reqs σ0).1 !! name = Some nlp).
Proof.
  intros t. pose proof (session_written_once name reqs σ0) as H. fold t in H.
  split; [done|]. split.
  { apply written_once_stores in H. destruct (bool_decide _); lia. }
  split; [intros t1 t2; exact (written_once_after_store name _ t t1 t2 H)|].
  split; [intros; by apply load_model_hit|].
  split; [intros; by apply load_model_miss|].
  split; [intros; by apply load_model_raises|].
  intros. by apply session_keeps_cached.
Qed.

(** An analysis with the small model, two attempts at the medium one, which
    is not installed, and another analysis: the small model is loaded and
    stored once and found in the cache afterwards; the medium one is never
    stored, so each request for it calls [spacy.load] again. *)
Example session_trace :
  let small := Sample.analyze_sample in
  let medium := Sample.request Sample.only_sm "en_core_web_md" None false in
  filter (λ ev, is_loader_event ev) (session [small; medium; medium; small] ∅).2
  = [ SpacyLoad "en_core_web_sm"; CacheStore "en_core_web_sm";
      SpacyLoad "en_core_web_md";
      SpacyLoad "en_core_web_md";
      CacheHit "en_core_web_sm" ].
Proof. reflexivity. Qed.

(** ** Whole runs *)

(** *** The click handler ignores the cache *)

Section constant.
Lemma constant_ret {A} (a : A) : constant (ret a).
Proof. by exists (inr a), []. Qed.

Lemma constant_raise {A} e : constant (@raise A e).
Proof. by exists (inl e), []. Qed.

Lemma constant_emit ev : constant (emit ev).
Proof. by exists (inr tt), [ev]. Qed.

Lemma constant_bind {A B} (m : M A) (k : A → M B) :
  constant m → (∀ a, constant (k a)) → constant (bind m k).
Proof.
  intros (r & t & Hm) Hk. destruct r as [e|a].
  - exists (inl e), t. intros σ. unfold bind. by rewrite Hm.
  - destruct (Hk a) as (r2 & t2 & Hk2). exists r2, (t ++ t2).
    intros σ. unfold bind. by rewrite Hm, Hk2.
Qed.

Lemma constant_call {A} ev (r : BaseException + A) : constant (call ev r).
Proof.
  apply constant_bind; [apply constant_emit|]. intros _.
  destruct r; [apply constant_raise | apply constant_ret].
Qed.

Lemma constant_comprehension {A B} (f : A → M B) l :
  (∀ x, constant (f x)) → constant (comprehension f l).
Proof.
  intros Hf. induction l as [|x l IH]; [apply constant_ret|]. simpl.
  apply constant_bind; [done|]. intros y.
  apply constant_bind; [done|]. intros ys. apply constant_ret.
Qed.

Lemma constant_getitem d k : constant (getitem d k).
Proof.
  unfold getitem. destruct (d !! k); [apply constant_ret | apply constant_raise].
Qed.

Lemma constant_index {A} (l : list A) i : constant (index l i).
Proof.
  unfold index. destruct (l !! i); [apply constant_ret | apply constant_raise].
Qed.

Lemma constant_tight_layout parser texts : constant (tight_layout parser texts).
Proof.
  induction texts as [|s texts IH]; [apply constant_ret|]. simpl.
  apply constant_bind; [|done]. unfold layout_text.
  destruct (Mathtext.is_math_text s); [|apply constant_ret].
  destruct (parser s); [apply constant_raise | apply constant_ret].
Qed.

Lemma constant_scatter_figure req doc : constant (scatter_figure req doc).
Proof.
  unfold scatter_figure.
  apply constant_bind; [apply constant_comprehension, constant_getitem|].
  intros ys. apply constant_bind.
  { apply constant_comprehension. intros [i x].
    apply constant_bind; [apply constant_index | intros; apply constant_ret]. }
  intros labels. apply constant_bind; [apply constant_tight_layout|].
  intros; apply constant_ret.
Qed.

Lemma constant_analyze req nlp txt : constant (analyze req nlp txt).
Proof.
  unfold analyze. apply constant_bind; [apply constant_call|]. intros doc.
  apply constant_bind; [apply constant_emit|]. intros _.
  apply constant_bind.
  { unfold tab1. repeat (apply constant_bind; [apply constant_emit|]; intros _).
    apply constant_emit. }
  intros _. apply constant_bind.
  { unfold tab2. apply constant_bind; [apply constant_emit|]. intros _.
    destruct (bool_decide _); [|apply constant_emit].
    apply constant_bind; [apply constant_emit | intros; apply constant_emit]. }
  intros _. apply constant_bind.
  { unfold tab3. apply constant_bind; [apply constant_emit|]. intros _.
    destruct (bool_decide _); apply constant_emit. }
  intros _. unfold tab4. apply constant_bind; [apply constant_emit|]. intros _.
  destruct (bool_decide _); [|apply constant_emit].
  apply constant_bind; [apply constant_emit|]. intros _.
  apply constant_bind; [apply constant_scatter_figure|].
  intros fig. apply constant_emit.
Qed.

Lemma constant_on_click req nlp txt : constant (on_click req nlp txt).
Proof.
  unfold on_click. destruct (negb _); [apply constant_emit|].
  apply constant_analyze.
Qed.
End constant.

(** *** What the click handler emits *)

Lemma analysis_on_click req nlp txt :
  emits (λ ev, is_analysis_event ev = true) (on_click req nlp txt).
Proof.
  unfold on_click. destruct (negb _); [by apply emits_emit|].
  unfold analyze. apply emits_bind; [by apply emits_call|]. intros doc.
  apply emits_bind; [by apply emits_emit|]. intros _.
  apply emits_bind.
  { unfold tab1. repeat (apply emits_bind; [by apply emits_emit|]; intros _).
    by apply emits_emit. }
  intros _. apply emits_bind.
  { unfold tab2. apply emits_bind; [by apply emits_emit|]. intros _.
    destruct (bool_decide _); [|by apply emits_emit].
    apply emits_bind; [by apply emits_emit | by intros; apply emits_emit]. }
  intros _. apply emits_bind.
  { unfold tab3. apply emits_bind; [by apply emits_emit|]. intros _.
    destruct (bool_decide _); by apply emits_emit. }
  intros _. unfold tab4. apply emits_bind; [by apply emits_emit|]. intros _.
  destruct (bool_decide _); [|by apply emits_emit].
  apply emits_bind; [by apply emits_emit|]. intros _.
  apply emits_bind; [|by intros; apply emits_emit].
  apply emits_scatter_figure.
Qed.

(** An analysis event goes to a tab or to the main area: never to the
    sidebar or to the expander. *)
Lemma view_analysis c t :
  Forall (λ ev, is_analysis_event ev = true) t →
  c = Sidebar ∨ (∃ l, c = Expander l) →
  view c t = [].
Proof.
  intros Ht Hc. induction Ht as [|ev t Hev _ IH]; [done|].
  change (ev :: t) with ([ev] ++ t). rewrite view_app, IH, app_nil_r.
  destruct ev as [c' e| | | | |]; try done.
  destruct Hc as [->|[l ->]]; destruct c'; try done; by destruct e.
Qed.

Lemma page_config_analysis t :
  Forall (λ ev, is_analysis_event ev = true) t →
  Forall (λ ev, is_page_config ev = false) t.
Proof.
  intros Ht. eapply Forall_impl; [exact Ht|].
  intros [c e| | | | |]; try done. by destruct c, e.
Qed.

Lemma passive_analysis t :
  Forall (λ ev, is_analysis_event ev = true) t → Forall passive t.
Proof.
  intros Ht. eapply Forall_impl; [exact Ht|]. by intros [c e| | | | |].
Qed.

Lemma footer_analysis t :
  Forall (λ ev, is_analysis_event ev = true) t →
  Forall (λ ev, ev ∉ footer_events) t.
Proof.
  intros Ht. eapply Forall_impl; [exact Ht|].
  intros ev Hev Hin. unfold footer_events in Hin.
  repeat (apply elem_of_cons in Hin as [->|Hin]; [discriminate Hev|]).
  by apply elem_of_nil in Hin.
Qed.

(** *** The shape of every run *)

(** What the loader does for a run that gets a pipeline. *)
Lemma load_model_pipeline req σ nlp :
  let name := selected_model req in
  pipeline req σ = Some nlp →
  ∃ t0, load_model req name σ = (inr nlp, <[name := nlp]> σ, t0)
        ∧ (t0 = [CacheHit name] ∧ σ !! name = Some nlp
           ∨ t0 = [SpacyLoad name; CacheStore name] ∧ σ !! name = None).
Proof.
  intros name Hp. unfold pipeline in Hp. fold name in Hp.
  destruct (σ !! name) as [v|] eqn:Hc.
  - simplify_eq. exists [CacheHit name]. rewrite insert_id by done.
    split; [by apply load_model_hit | by left].
  - destruct (spacy_load req name) as [e|v] eqn:Hl; simplify_eq.
    exists [SpacyLoad name; CacheStore name].
    split; [by apply load_model_miss | by right].
Qed.

Lemma load_model_no_pipeline req σ :
  let name := selected_model req in
  pipeline req σ = None →
  ∃ e, load_model req name σ = (inl e, σ, [SpacyLoad name]) ∧ σ !! name = None.
Proof.
  intros name Hp. unfold pipeline in Hp. fold name in Hp.
  destruct (σ !! name) as [v|] eqn:Hc; [done|].
  destruct (spacy_load req name) as [e|v] eqn:Hl; [|done].
  exists e. split; [by apply load_model_raises | done].
Qed.

(** A run without a pipeline halts after the error. *)
Lemma run_no_pipeline req σ :
  let name := selected_model req in
  pipeline req σ = None →
  run req σ
  = (Stopped, σ, header_events ++ [SpacyLoad name; not_found_event name]).
Proof.
  intros name Hp. destruct (load_model_no_pipeline req σ Hp) as (e & Hload & _).
  unfold run. by rewrite (script_load_failed _ _ _ _ _ Hload).
Qed.

(** A run with a pipeline: the loader's events, then the click handler's,
    which do not depend on the cache, then the footer if nothing escaped. *)
Lemma run_pipeline req σ nlp :
  let name := selected_model req in
  pipeline req σ = Some nlp →
  ∃ t0 r t,
    (t0 = [CacheHit name] ∧ σ !! name = Some nlp
     ∨ t0 = [SpacyLoad name; CacheStore name] ∧ σ !! name = None)
    ∧ (∀ σ', (if button_clicked req then on_click req nlp (text_input req)
              else ret tt) σ' = (r, σ', t))
    ∧ Forall (λ ev, is_analysis_event ev = true) t
    ∧ run req σ
      = (status_of r, <[name := nlp]> σ,
         header_events ++ (t0 ++ [loaded_event name]) ++ input_events ++ t
           ++ match r with inr _ => footer_events | inl _ => [] end).
Proof.
  intros name Hp. destruct (load_model_pipeline req σ nlp Hp) as (t0 & Hload & Ht0).
  set (click := if button_clicked req then on_click req nlp (text_input req)
                else ret tt).
  assert (constant click ∧ emits (λ ev, is_analysis_event ev = true) click)
    as [(r & t & Hclick) Hev].
  { subst click. destruct (button_clicked req).
    - split; [apply constant_on_click | apply analysis_on_click].
    - split; [apply constant_ret | apply emits_ret]. }
  exists t0, r, t. split; [done|]. split; [done|]. split.
  { specialize (Hev σ). by rewrite Hclick in Hev. }
  unfold run. rewrite (script_loaded _ _ _ _ _ Hload). fold click.
  rewrite Hclick. destruct r as [e|[]]; [|done]. by rewrite app_nil_r.
Qed.

(** *** When the model is run *)

Lemma inferences_analysis_tail req nlp txt σ :
  inferences (analyze req nlp txt σ).2 = [Infer txt].
Proof.
  destruct (nlp txt) as [e|doc] eqn:Hnlp.
  { by rewrite (analyze_raises _ _ _ _ _ Hnlp). }
  rewrite (analyze_returns _ _ _ _ _ Hnlp).
  assert (emits (λ ev, is_infer ev = false) (tab4 req doc)) as H4.
  { unfold tab4. apply emits_bind; [by apply emits_emit|]. intros _.
    destruct (bool_decide _); [|by apply emits_emit].
    apply emits_bind; [by apply emits_emit|]. intros _.
    apply emits_bind; [|by intros; apply emits_emit].
    apply emits_scatter_figure. }
  specialize (H4 σ). destruct (tab4 req doc σ) as [[r4 σ4] t4]. cbn [snd] in *.
  assert (inferences t4 = []) as E4.
  { unfold inferences. induction H4 as [|ev t Hev _ IH]; [done|].
    rewrite filter_cons, IH. by rewrite Hev. }
  rewrite tab1_run. destruct (decide (ents doc = [])) as [He|He].
  - rewrite (tab2_empty _ _ _ He), (tab3_empty _ _ He). cbn [snd].
    rewrite !inferences_app, E4. done.
  - rewrite (tab2_nonempty _ _ _ He), (tab3_nonempty _ _ He). cbn [snd].
    rewrite !inferences_app, E4. done.
Qed.

Lemma inferences_on_click req nlp txt σ :
  inferences (on_click req nlp txt σ).2
  = if is_blank txt then [] else [Infer txt].
Proof.
  unfold on_click. rewrite truthy_strip, negb_involutive.
  destruct (is_blank txt); [done|]. apply inferences_analysis_tail.
Qed.

(** X1: the model is run at most once per run, and exactly when the run has
    a pipeline (cached, or returned by [spacy.load]), the button was clicked
    and the text of the text area (the default text when the area is
    untouched) is not blank; it is then run on that text as it stands. *)
Theorem inference_exactly_when (req : Request) (σ : Cache) :
  inferences (run req σ).2
  = (if bool_decide (is_Some (pipeline req σ)) && button_clicked req
        && negb (is_blank (text_input req))
     then [Infer (text_input req)] else [])
  ∧ (is_blank (text_input req) = true ↔ Py.blank (text_input req)).
Proof.
  split; [|apply is_blank_spec].
  destruct (pipeline req σ) as [nlp|] eqn:Hp.
  - destruct (run_pipeline req σ nlp Hp) as (t0 & r & t & Ht0 & Hclick & _ & ->).
    cbn [snd]. rewrite !inferences_app.
    assert (inferences t0 = []) as -> by (by destruct Ht0 as [[-> _]|[-> _]]).
    assert (inferences (match r with inr _ => footer_events | inl _ => [] end) = [])
      as -> by (by destruct r).
    rewrite bool_decide_true by eauto. simpl. rewrite app_nil_r.
    specialize (Hclick σ). destruct (button_clicked req).
    + pose proof (inferences_on_click req nlp (text_input req) σ) as H.
      rewrite Hclick in H. cbn [snd] in H. rewrite H.
      by destruct (is_blank _).
    + unfold ret in Hclick. by simplify_eq.
  - rewrite (run_no_pipeline req σ Hp).
    rewrite bool_decide_false by (by intros [? ?]). done.
Qed.

(** *** The cache after a run *)

Lemma cache_of_run req σ :
  (run req σ).1.2
  = match pipeline req σ with
    | Some nlp => <[selected_model req := nlp]> σ
    | None => σ
    end.
Proof.
  destruct (pipeline req σ) as [nlp|] eqn:Hp.
  - by destruct (run_pipeline req σ nlp Hp) as (t0 & r & t & _ & _ & _ & ->).
  - by rewrite (run_no_pipeline req σ Hp).
Qed.

Lemma cache_grows req σ : σ ⊆ (run req σ).1.2.
Proof.
  rewrite cache_of_run. destruct (pipeline req σ) as [nlp|] eqn:Hp; [|done].
  destruct (load_model_pipeline req σ nlp Hp) as (t0 & _ & [[_ Hc]|[_ Hc]]).
  - by rewrite insert_id.
  - by apply insert_subseteq.
Qed.

(** X2: the cache a run leaves is the cache it found with the selected
    model mapped to the run's pipeline, if it got one, and the cache it
    found otherwise.  So a run never removes or replaces an entry, writes
    at most the entry of the selected model, and what it writes depends on
    the selection and on [spacy.load] only: not on the text, on the click or
    on how the analysis ends. *)
Theorem cache_after_run (req : Request) (σ : Cache) :
  let name := selected_model req in
  (run req σ).1.2
  = match pipeline req σ with Some nlp => <[name := nlp]> σ | None => σ end
  ∧ σ ⊆ (run req σ).1.2
  ∧ (∀ name', name' ≠ name → (run req σ).1.2 !! name' = σ !! name')
  ∧ (run req σ).1.2 !! name = pipeline req σ.
Proof.
  intros name. split; [apply cache_of_run|]. split; [apply cache_grows|].
  rewrite cache_of_run. subst name.
  destruct (pipeline req σ) as [nlp|] eqn:Hp.
  - split; [|by rewrite lookup_insert_eq].
    intros name' Hne. by rewrite lookup_insert_ne.
  - split; [done|].
  by destruct (load_model_no_pipeline req σ Hp) as (e & _ & ->).
Qed.

(** X3: over a session the cache only grows, and every pipeline in it at the
    end either was there at the start or, the cache not holding its name at
    the start, is what [spacy.load] returned for that name to a request of
    the session that selected it. *)
Theorem session_cache_provenance (reqs : list Request) (σ0 : Cache) :
  σ0 ⊆ (session reqs σ0).1
  ∧ ∀ name nlp,
      (session reqs σ0).1 !! name = Some nlp →
      σ0 !! name = Some nlp
      ∨ (σ0 !! name = None
         ∧ ∃ req, req ∈ reqs ∧ selected_model req = name
                  ∧ spacy_load req name = inr nlp).
Proof.
  revert σ0. induction reqs as [|req reqs IH]; intros σ0.
  { split; [done|]. intros name nlp H. by left. }
  rewrite session_cons. cbn [fst].
  destruct (IH (run req σ0).1.2) as [IH1 IH2].
  pose proof (cache_grows req σ0) as Hgrow.
  split; [by etrans|].
  intros name nlp Hfinal.
  destruct (σ0 !! name) as [v|] eqn:H0.
  { left. apply (lookup_weaken _ _ _ _ H0) in Hgrow.
    apply (lookup_weaken _ _ _ _ Hgrow) in IH1. congruence. }
  right. split; [done|].
  destruct (IH2 name nlp Hfinal) as [H1|(H1 & req' & Hin & Hsel & Hl)].
  - exists req. split; [apply list_elem_of_here|].
    rewrite cache_of_run in H1. unfold pipeline in H1.
    destruct (decide (selected_model req = name)) as [Heq|Hne].
    + rewrite Heq in H1. rewrite H0 in H1.
      destruct (spacy_load req name) as [e|v]; [congruence|].
      rewrite lookup_insert_eq in H1. by simplify_eq.
    + destruct (σ0 !! selected_model req);
        [rewrite lookup_insert_ne in H1 by done; congruence|].
      destruct (spacy_load req (selected_model req));
        [congruence | rewrite lookup_insert_ne in H1 by done; congruence].
  - exists req'. split; [by apply list_elem_of_further | done].
Qed.

(** *** An inference that raises *)

(** An event that differs, by a constructor, from each event of a list. *)
Ltac not_among :=
  let H := fresh in
  intros H; repeat (apply elem_of_cons in H as [H|H]; [discriminate H|]);
  by apply elem_of_nil in H.

(** X4: the [try] of lines 28-33 covers the load only.  When the pipeline
    raises on the text, the exception escapes the script: the run ends with
    it right after the inference, no tab bar, tab content, reference panel
    or footer is rendered, and the pipeline stays in the cache. *)
Theorem inference_failure_escapes
    (req : Request) (σ σ1 : Cache) (nlp : Language) (t0 : list Event)
    (e : BaseException) :
  let name := selected_model req in
  load_model req name σ = (inr nlp, σ1, t0) →
  button_clicked req = true →
  ¬ Py.blank (text_input req) →
  nlp (text_input req) = inl e →
  let t := header_events ++ (t0 ++ [loaded_event name]) ++ input_events
             ++ [Infer (text_input req)] in
  run req σ = (status_of (inl e), σ1, t)
  ∧ (e ≠ StopException → (run req σ).1.1 = Crashed e)
  ∧ (∀ i, view (Tab i) t = [])
  ∧ (∀ l, St Main (StTabs l) ∉ t)
  ∧ Forall (λ ev, ev ∉ footer_events) t
  ∧ σ1 !! name = Some nlp.
Proof.
  intros name Hload Hclick Htext Hnlp t.
  assert (run req σ = (status_of (inl e), σ1, t)) as Hrun.
  { rewrite (run_clicked _ _ _ _ _ Hload Hclick (inl e) [Infer (text_input req)]).
    - subst t. by rewrite app_nil_r.
    - rewrite on_click_text by done. by apply analyze_raises. }
  destruct (load_model_ok _ _ _ _ _ _ Hload) as (Hc & _ & Hv).
  assert (t0 = [CacheHit name] ∨ t0 = [SpacyLoad name; CacheStore name]) as Ht0.
  { destruct (load_model_cases req name σ)
      as [(v & _ & E) | [(v & _ & _ & E) | (e' & _ & _ & E)]];
      rewrite E in Hload; simplify_eq; auto. }
  split; [done|]. split; [rewrite Hrun; by destruct e|].
  split.
  { intros i. subst t. rewrite !view_app, Hv. done. }
  assert (∀ P : Event → Prop,
            Forall P header_events → P (CacheHit name) → P (SpacyLoad name) →
            P (CacheStore name) → P (loaded_event name) →
            Forall P input_events → P (Infer (text_input req)) → Forall P t)
    as Hall.
  { intros P Hh Hhit Hcall Hstore Hloaded Hi Hinfer. subst t.
    repeat (apply Forall_app; split); try done;
      destruct Ht0 as [-> | ->]; by repeat constructor. }
  split.
  { intros l Hin.
    assert (Forall (λ ev, ev ≠ St Main (StTabs l)) t) as HF
      by (apply Hall; by repeat constructor).
    rewrite Forall_forall in HF. exact (HF _ Hin eq_refl). }
  split; [|done].
  apply Hall; repeat constructor; not_among.
Qed.

Lemma inference_failure_witness :
  run Faults.analyze_refused ∅
  = (Crashed (ValueError "[E088] Text exceeds maximum of 1000000."),
     <["en_core_web_sm" := Faults.refusing]> ∅,
     header_events
       ++ ([SpacyLoad "en_core_web_sm"; CacheStore "en_core_web_sm"]
             ++ [loaded_event "en_core_web_sm"])
       ++ input_events ++ [Infer sample_text]).
Proof.
  refine (proj1 (inference_failure_escapes Faults.analyze_refused ∅
                   (<["en_core_web_sm" := Faults.refusing]> ∅) Faults.refusing
                   [SpacyLoad "en_core_web_sm"; CacheStore "en_core_web_sm"]
                   (ValueError "[E088] Text exceeds maximum of 1000000.")
                   _ _ _ _)).
  - reflexivity.
  - reflexivity.
  - apply not_blank_by_computation. reflexivity.
  - reflexivity.
Defined.

(** *** The parts of the page every run has *)

(** A property of the fixed events and of the click handler's events holds
    of the whole trace up to the footer. *)
Lemma run_pieces (P : Event → Prop) (name : string) (σ : Cache) (nlp : Language)
    (t0 t : list Event) :
  (t0 = [CacheHit name] ∧ σ !! name = Some nlp
   ∨ t0 = [SpacyLoad name; CacheStore name] ∧ σ !! name = None) →
  Forall P header_events → P (CacheHit name) → P (SpacyLoad name) →
  P (CacheStore name) → P (loaded_event name) → Forall P input_events →
  Forall P t →
  Forall P (header_events ++ (t0 ++ [loaded_event name]) ++ input_events ++ t).
Proof.
  intros Ht0 Hh Hhit Hcall Hstore Hloaded Hi Ht.
  repeat (apply Forall_app; split); try done;
    destruct Ht0 as [[-> _] | [-> _]]; by repeat constructor.
Qed.

(** X5: the reference panel and the footer are rendered exactly by the runs
    that complete, once and as the last four elements; a run that is halted
    by [st.stop()] or left by an exception renders none of them. *)
Theorem footer_exactly_when_completed (req : Request) (σ : Cache) :
  match (run req σ).1.1 with
  | Completed =>
      ∃ t', (run req σ).2 = t' ++ footer_events
            ∧ Forall (λ ev, ev ∉ footer_events) t'
  | Stopped | Crashed _ => Forall (λ ev, ev ∉ footer_events) (run req σ).2
  end.
Proof.
  destruct (pipeline req σ) as [nlp|] eqn:Hp.
  - destruct (run_pipeline req σ nlp Hp) as (t0 & r & t & Ht0 & _ & Ht & ->).
    apply footer_analysis in Ht.
    assert (Forall (λ ev, ev ∉ footer_events)
              (header_events ++ (t0 ++ [loaded_event (selected_model req)])
                 ++ input_events ++ t)) as Hpre.
    { apply (run_pieces _ _ σ nlp); try done; try not_among;
        repeat constructor; not_among. }
    destruct r as [e|[]].
    + rewrite app_nil_r. by destruct e.
    + eexists. split; [|exact Hpre]. cbn. by rewrite <- !app_assoc.
  - rewrite (run_no_pipeline req σ Hp). cbn.
    repeat constructor; not_among.
Qed.

(** X6: every run puts three elements in the sidebar: the title, the model
    selector with its three options, and one status message, which is the
    success message when the cache holds the selected model after the run
    and the not-found error when it does not.  The analysis never writes
    to the sidebar. *)
Theorem sidebar_reports_the_load (req : Request) (σ : Cache) :
  let name := selected_model req in
  view Sidebar (run req σ).2
  = [ StTitle "Controls";
      StSelectbox "Select spaCy Model"
        ["en_core_web_sm"; "en_core_web_md"; "en_core_web_lg"];
      if bool_decide (is_Some ((run req σ).1.2 !! name))
      then StSuccess (loaded_message name)
      else StError (not_found name) ].
Proof.
  intros name. destruct (pipeline req σ) as [nlp|] eqn:Hp.
  - destruct (run_pipeline req σ nlp Hp) as (t0 & r & t & Ht0 & _ & Ht & ->).
    cbn [fst snd]. fold name. rewrite lookup_insert_eq.
    rewrite bool_decide_true by eauto.
    rewrite !view_app, (view_analysis Sidebar t Ht) by auto.
    assert (view Sidebar t0 = []) as -> by (by destruct Ht0 as [[-> _]|[-> _]]).
    by destruct r as [e|[]].
  - destruct (load_model_no_pipeline req σ Hp) as (e & _ & Hc).
    subst name. rewrite (run_no_pipeline req σ Hp). cbn [fst snd]. rewrite Hc.
    by rewrite bool_decide_false by (by intros [? ?]).
Qed.

(** X7: [st.set_page_config] is the first thing every run does, and no run
    calls it a second time. *)
Theorem page_config_first_and_once (req : Request) (σ : Cache) :
  ∃ rest,
    (run req σ).2
    = St Main (PageConfig "Named Entity Recognition System" "wide") :: rest
    ∧ Forall (λ ev, is_page_config ev = false) rest.
Proof.
  destruct (pipeline req σ) as [nlp|] eqn:Hp.
  - destruct (run_pipeline req σ nlp Hp) as (t0 & r & t & Ht0 & _ & Ht & ->).
    apply page_config_analysis in Ht.
    eexists. split; [reflexivity|]. cbn [snd].
    repeat (first [apply Forall_app; split | apply Forall_cons; split]);
      try done.
    + by destruct Ht0 as [[-> _]|[-> _]]; repeat constructor.
    + destruct r; by repeat constructor.
  - rewrite (run_no_pipeline req σ Hp). eexists. split; [reflexivity|].
    by repeat constructor.
Qed.

(** *** The page and the cache *)

Lemma page_app t1 t2 : page (t1 ++ t2) = page t1 ++ page t2.
Proof. apply filter_app. Qed.

Lemma page_analysis t :
  Forall (λ ev, is_analysis_event ev = true) t → page t = t.
Proof.
  intros Ht. apply passive_analysis in Ht.
  induction Ht as [|ev t Hev _ IH]; [done|].
  unfold page in *. rewrite filter_cons, IH. by rewrite decide_True.
Qed.

(** The page of a run with a pipeline, whichever way the pipeline came. *)
Lemma page_of_run req σ nlp :
  let name := selected_model req in
  pipeline req σ = Some nlp →
  ∃ r t,
    (∀ σ', (if button_clicked req then on_click req nlp (text_input req)
            else ret tt) σ' = (r, σ', t))
    ∧ (run req σ).1.1 = status_of r
    ∧ page (run req σ).2
      = header_events ++ [loaded_event name] ++ input_events ++ t
          ++ match r with inr _ => footer_events | inl _ => [] end
    ∧ (∀ c, view c (run req σ).2 = view c (page (run req σ).2))
    ∧ inferences (run req σ).2 = inferences (page (run req σ).2).
Proof.
  intros name Hp. subst name.
  destruct (run_pipeline req σ nlp Hp) as (t0 & r & t & Ht0 & Hclick & Ht & ->).
  exists r, t. split; [done|]. split; [done|]. cbn [snd].
  assert (page t0 = [] ∧ inferences t0 = [] ∧ ∀ c, view c t0 = [])
    as (Hp0 & Hi0 & Hv0) by (by destruct Ht0 as [[-> _]|[-> _]]).
  set (tail := match r with inr _ => footer_events | inl _ => [] end).
  assert (page tail = tail) as Htail by (by destruct r).
  rewrite !page_app, Hp0, (page_analysis t Ht), Htail.
  split; [done|]. split.
  - intros c. by rewrite !view_app, Hv0.
  - by rewrite !inferences_app, Hi0.
Qed.

Lemma same_pipeline_same_page req σ σ' :
  pipeline req σ = pipeline req σ' →
  (run req σ).1.1 = (run req σ').1.1
  ∧ page (run req σ).2 = page (run req σ').2
  ∧ (∀ c, view c (run req σ).2 = view c (run req σ').2)
  ∧ inferences (run req σ).2 = inferences (run req σ').2.
Proof.
  intros Heq. destruct (pipeline req σ) as [nlp|] eqn:Hp; symmetry in Heq.
  - destruct (page_of_run req σ nlp Hp) as (r & t & Hc & Hs & Hpage & Hv & Hi).
    destruct (page_of_run req σ' nlp Heq)
      as (r' & t' & Hc' & Hs' & Hpage' & Hv' & Hi').
    specialize (Hc σ). rewrite (Hc' σ) in Hc. simplify_eq.
    assert (page (run req σ).2 = page (run req σ').2) as E by congruence.
    split; [congruence|]. split; [done|]. split.
    + intros c. by rewrite Hv, Hv', E.
    + by rewrite Hi, Hi', E.
  - by rewrite (run_no_pipeline req σ Hp), (run_no_pipeline req σ' Heq).
Qed.

(** X8: caching is transparent.  Two runs of a request that get the same
    pipeline, one from the cache and the other from [spacy.load], say, end
    the same way and show the same page: apart from the loader's own events
    their traces are equal, so every container holds the same elements and
    the same inference is made; and both leave the cache with the same
    entry, or none, for the selected model. *)
Theorem page_independent_of_cache (req : Request) (σ σ' : Cache) :
  pipeline req σ = pipeline req σ' →
  (run req σ).1.1 = (run req σ').1.1
  ∧ page (run req σ).2 = page (run req σ').2
  ∧ (∀ c, view c (run req σ).2 = view c (run req σ').2)
  ∧ inferences (run req σ).2 = inferences (run req σ').2
  ∧ (run req σ).1.2 !! selected_model req
    = (run req σ').1.2 !! selected_model req.
Proof.
  intros Heq.
  destruct (same_pipeline_same_page req σ σ' Heq) as (Hs & Hpage & Hv & Hi).
  repeat (split; [done|]).
  rewrite !cache_of_run, <- Heq.
  destruct (pipeline req σ) as [nlp|] eqn:Hp.
  - by rewrite !lookup_insert_eq.
  - symmetry in Heq.
    destruct (load_model_no_pipeline req σ Hp) as (e & _ & ->).
    by destruct (load_model_no_pipeline req σ' Heq) as (e' & _ & ->).
Qed.

Lemma page_independent_of_cache_witness :
  page (run Sample.analyze_sample ∅).2
  = page (run Sample.analyze_sample Faults.warm).2
  ∧ view (Tab 3) (run Sample.analyze_sample ∅).2
    = view (Tab 3) (run Sample.analyze_sample Faults.warm).2.
Proof.
  destruct (page_independent_of_cache Sample.analyze_sample ∅ Faults.warm)
    as (_ & Hpage & Hview & _).
  - reflexivity.
  - split; [exact Hpage | exact (Hview (Tab 3))].
Defined.

(** X9: with the selected model in the cache a run does not depend on
    [spacy.load]: whatever [spacy.load] would do at that time (fail,
    because the model was uninstalled since, or return another pipeline),
    the run is the same, it never calls [spacy.load], and it leaves the
    cache as it is. *)
Theorem cached_model_needs_no_loader
    (req : Request) (σ : Cache) (nlp : Language)
    (load : string → BaseException + Language) :
  σ !! selected_model req = Some nlp →
  run (with_loader req load) σ = run req σ
  ∧ (run req σ).1.2 = σ
  ∧ Forall (λ ev, is_load_call ev = false) (run req σ).2.
Proof.
  intros Hc. split; [|split].
  - unfold run.
    rewrite (script_loaded (with_loader req load) σ nlp σ
               [CacheHit (selected_model req)])
      by (by apply load_model_hit).
    rewrite (script_loaded req σ nlp σ [CacheHit (selected_model req)])
      by (by apply load_model_hit).
    reflexivity.
  - rewrite cache_of_run. unfold pipeline. rewrite Hc. by apply insert_id.
  - assert (pipeline req σ = Some nlp) as Hp by (unfold pipeline; by rewrite Hc).
    destruct (run_pipeline req σ nlp Hp) as (t0 & r & t & Ht0 & _ & Ht & ->).
    cbn [snd]. destruct Ht0 as [[-> _]|[_ Hn]]; [|congruence].
    assert (Forall (λ ev, is_load_call ev = false) t) as Ht'.
    { eapply Forall_impl; [exact Ht|]. by intros [c e| | | | |]. }
    repeat (apply Forall_app; split); try done; try by repeat constructor.
    destruct r; by repeat constructor.
Qed.

Lemma cached_model_needs_no_loader_witness :
  run (with_loader Sample.analyze_sample Sample.out_of_memory) Faults.warm
  = run Sample.analyze_sample Faults.warm.
Proof.
  refine (proj1 (cached_model_needs_no_loader Sample.analyze_sample Faults.warm
                   Sample.nlp Sample.out_of_memory _)).
  reflexivity.
Defined.

Lemma pipeline_after_run req σ :
  pipeline req (run req σ).1.2 = pipeline req σ.
Proof.
  rewrite cache_of_run. destruct (pipeline req σ) as [nlp|] eqn:Hp; [|done].
  unfold pipeline. by rewrite lookup_insert_eq.
Qed.

(** X10: running a request again (the same widget states, the libraries
    behaving the same) on the cache its first run left ends the same way
    and shows the same page, leaves the cache as it is, and loads nothing if
    the first run had a pipeline: the loader's only event is then a cache
    hit.  A load that failed is attempted again. *)
Theorem rerun_shows_same_page (req : Request) (σ : Cache) :
  let name := selected_model req in
  let σ1 := (run req σ).1.2 in
  (run req σ1).1.1 = (run req σ).1.1
  ∧ (run req σ1).1.2 = σ1
  ∧ page (run req σ1).2 = page (run req σ).2
  ∧ (∀ c, view c (run req σ1).2 = view c (run req σ).2)
  ∧ inferences (run req σ1).2 = inferences (run req σ).2
  ∧ filter (λ ev, is_loader_event ev = true) (run req σ1).2
    = match pipeline req σ with
      | Some _ => [CacheHit name]
      | None => [SpacyLoad name]
      end.
Proof.
  intros name σ1.
  pose proof (pipeline_after_run req σ) as Hp1. fold σ1 in Hp1.
  destruct (same_pipeline_same_page req σ1 σ Hp1) as (Hs & Hpage & Hv & Hi).
  split; [done|]. split; [|split; [done|split; [done|split; [done|]]]].
  - rewrite cache_of_run, Hp1. subst σ1. rewrite cache_of_run.
    destruct (pipeline req σ); [|done]. by rewrite insert_insert_eq.
  - destruct (pipeline req σ) as [nlp|] eqn:Hp.
    + destruct (run_pipeline req σ1 nlp Hp1) as (t0 & r & t & Ht0 & _ & Ht & ->).
      cbn [snd]. fold name.
      assert (t0 = [CacheHit name]) as ->.
      { destruct Ht0 as [[-> _]|[_ Hn]]; [done|].
        subst σ1. rewrite cache_of_run, Hp in Hn. fold name in Hn.
        by rewrite lookup_insert_eq in Hn. }
      assert (filter (λ ev, is_loader_event ev = true) t = []) as Hft.
      { apply passive_analysis in Ht. clear -Ht.
        induction Ht as [|ev t Hev _ IH]; [done|].
        rewrite filter_cons, IH. rewrite decide_False; [done|].
        unfold passive in Hev. congruence. }
      rewrite !filter_app, Hft. by destruct r.
    + by rewrite (run_no_pipeline req σ1 Hp1).
Qed.

(** ** The two figures together *)

Lemma bar_of_elem_of labels bar :
  bar ∈ bar_of labels <$> distinct labels ↔
  rect_category bar ∈ labels ∧ bar = bar_of labels (rect_category bar).
Proof.
  rewrite list_elem_of_fmap. split.
  - intros (k & -> & Hk). apply (proj1 (elem_of_distinct _ _)) in Hk. done.
  - intros [Hk ->]. exists (rect_category bar).
    split; [done | by apply elem_of_distinct].
Qed.

(** X11: the colours agree across the views.  Every bar of the frequency
    chart has the colour [entity_colors] gives its category, and the
    fallback grey when the category is not in the table; and, when the
    layout accepts every entity text so that the scatter plot is built, its
    legend shows the same categories as the chart has bars, each in the
    colour of its bar. *)
Theorem colours_agree_across_views (req : Request) (doc : Doc) (σ : Cache) :
  let labels := label_ <$> ents doc in
  set_listing (set_iter req labels) labels →
  typesets req doc →
  ∃ fig,
    scatter_figure req doc σ = (inr fig, σ, [])
    ∧ Forall (λ bar, rect_facecolor bar
                     = match entity_colors !! rect_category bar with
                       | Some colour => colour
                       | None => "#cccccc"
                       end)
        (bars_of (count_figure doc))
    ∧ (∀ c colour,
         (c, colour) ∈ legend_of fig ↔
         ∃ bar, bar ∈ bars_of (count_figure doc)
                ∧ rect_category bar = c ∧ rect_facecolor bar = colour).
Proof.
  intros labels Hu Htype. exists (scatter_of (set_iter req labels) (ents doc)).
  split; [by apply scatter_figure_run|].
  rewrite count_figure_bars. fold labels. split.
  - apply Forall_fmap, Forall_true. intros k.
    cbn [bar_of rect_facecolor rect_category compose]. unfold color_of.
    generalize (entity_colors !! k). by intros [colour|].
  - intros c colour. rewrite scatter_of_legend, list_elem_of_fmap. split.
    + intros (k & [= -> ->] & Hk). exists (bar_of labels k).
      split; [|done]. apply bar_of_elem_of. split; [|done].
      by apply (set_listing_elem_of _ _ _ Hu).
    + intros (bar & [Hk ->]%bar_of_elem_of & <- & <-). simpl.
      exists (rect_category bar). split; [done|].
      by apply (set_listing_elem_of _ _ _ Hu).
Qed.

Lemma colours_agree_across_views_witness :
  ∃ fig,
    scatter_figure Sample.analyze_sample Sample.sample_doc ∅ = (inr fig, ∅, [])
    ∧ (("GPE", "#ff9561") ∈ legend_of fig ↔
       ∃ bar, bar ∈ bars_of (count_figure Sample.sample_doc)
              ∧ rect_category bar = "GPE" ∧ rect_facecolor bar = "#ff9561").
Proof.
  destruct (colours_agree_across_views Sample.analyze_sample Sample.sample_doc ∅)
    as (fig & Hfig & _ & Hlegend).
  - unfold set_listing. reflexivity.
  - reflexivity.
  - exists fig. split; [exact Hfig | exact (Hlegend "GPE" "#ff9561")].
Defined.

(** X12: the rows of the scatter plot are the categories.  When the layout
    accepts every entity text, so that the plot is built, its legend has as
    many entries as there are distinct labels, the vertical position of
    every point is below that number, and every position below it is the
    row of some point: no row is empty and none is out of range. *)
Theorem scatter_rows_are_the_categories
    (req : Request) (doc : Doc) (σ : Cache) :
  let labels := label_ <$> ents doc in
  set_listing (set_iter req labels) labels →
  typesets req doc →
  ∃ fig,
    scatter_figure req doc σ = (inr fig, σ, [])
    ∧ length (legend_of fig) = length (remove_dups labels)
    ∧ Forall (λ p, p.1.2 < length (legend_of fig)) (points_of fig)
    ∧ (∀ y, y < length (legend_of fig) →
            ∃ x colour, (x, y, colour) ∈ points_of fig).
Proof.
  intros labels Hu Htype. set (u := set_iter req labels) in *.
  pose proof (set_listing_NoDup _ _ Hu) as Hnd.
  exists (scatter_of u (ents doc)).
  split; [by apply scatter_figure_run|].
  rewrite scatter_of_legend, scatter_of_points, length_fmap.
  assert (∀ ent, ent ∈ ents doc → u !! ordinal u (label_ ent) = Some (label_ ent))
    as Hord.
  { intros ent Hent. apply ordinal_lookup; [done|].
    apply (set_listing_elem_of _ _ _ Hu), list_elem_of_fmap. eauto. }
  split; [exact (Permutation_length Hu)|]. split.
  - apply Forall_forall. intros [[x y] colour] Hin.
    apply elem_of_lookup_imap in Hin as (i & ent & [= -> -> ->] & Hi). simpl.
    apply (lookup_lt_Some u _ (label_ ent)), Hord.
    by apply list_elem_of_lookup_2 with i.
  - intros y Hy. destruct (lookup_lt_is_Some_2 u y Hy) as [c Hc].
    assert (c ∈ labels) as Hin.
    { apply (set_listing_elem_of _ _ _ Hu). by apply list_elem_of_lookup_2 with y. }
    apply list_elem_of_fmap in Hin as (ent & -> & Hent).
    pose proof (Hord ent Hent) as Ho.
    apply list_elem_of_lookup_1 in Hent as [i Hi].
    exists i, (color_of (label_ ent)).
    apply elem_of_lookup_imap. exists i, ent. split; [|done].
    do 2 f_equal. by apply (NoDup_lookup u _ _ (label_ ent)).
Qed.

Lemma scatter_rows_are_the_categories_witness :
  ∃ fig,
    scatter_figure Sample.analyze_sample Sample.sample_doc ∅ = (inr fig, ∅, [])
    ∧ length (legend_of fig) = 4
    ∧ Forall (λ p, p.1.2 < length (legend_of fig)) (points_of fig).
Proof.
  destruct (scatter_rows_are_the_categories Sample.analyze_sample
              Sample.sample_doc ∅) as (fig & Hfig & Hlen & Hrange & _).
  - unfold set_listing. reflexivity.
  - reflexivity.
  - exists fig. split; [exact Hfig|]. split; [exact Hlen | exact Hrange].
Defined.

(** X13: the frequency chart has no empty bar and no bar too many: every
    bar stands for at least one entity and at most all of them, there are
    no more bars than entities, and none exactly when there is no entity. *)
Theorem bars_count_entities (doc : Doc) :
  let bars := bars_of (count_figure doc) in
  Forall (λ bar, 1 ≤ rect_height bar ≤ length (ents doc)) bars
  ∧ length bars ≤ length (ents doc)
  ∧ (bars = [] ↔ ents doc = []).
Proof.
  intros bars. subst bars. rewrite count_figure_bars.
  set (labels := label_ <$> ents doc).
  assert (length labels = length (ents doc)) as Hlen by apply length_fmap.
  split; [|split].
  - apply Forall_fmap, Forall_forall. intros k Hk. apply (proj1 (elem_of_distinct _ _)) in Hk. simpl.
    unfold occurrences. split.
    + apply list_elem_of_lookup_1 in Hk as [i Hi].
      assert (k ∈ filter (λ y, y = k) labels) as Hin
        by (apply list_elem_of_filter; split; [done | by apply list_elem_of_lookup_2 with i]).
      destruct (filter _ labels); [by apply elem_of_nil in Hin | simpl; lia].
    + rewrite <- Hlen. apply length_filter.
  - rewrite length_fmap, <- Hlen.
    rewrite <- (sum_occurrences labels). clear Hlen.
    assert (Forall (λ k, 1 ≤ occurrences k labels) (distinct labels)) as H.
    { apply Forall_forall. intros k Hk. apply (proj1 (elem_of_distinct _ _)) in Hk.
      apply list_elem_of_lookup_1 in Hk as [i Hi]. unfold occurrences.
      assert (k ∈ filter (λ y, y = k) labels) as Hin
        by (apply list_elem_of_filter; split; [done | by apply list_elem_of_lookup_2 with i]).
      destruct (filter _ labels); [by apply elem_of_nil in Hin | simpl; lia]. }
    induction H as [|k ks Hk _ IH]; csimpl; lia.
  - split.
    + intros H%fmap_nil_inv. destruct (ents doc) as [|ent es]; [done|].
      subst labels. simpl in H. discriminate H.
    + intros He. subst labels. by rewrite He.
Qed.

(** ** The download link *)

Section payload.
Import Base64.

Lemma digit_in_alphabet n : digit n ∈ alphabet ∨ digit n = pad.
Proof.
  unfold digit. destruct (nth_in_or_default (N.to_nat n) alphabet pad) as [H|H].
  - left. by apply list_elem_of_In.
  - by right.
Qed.

(** The encoding consists of digits and padding, four characters for every
    three bytes or part of them. *)
Lemma b64encode_shape (bs : list ascii) :
  Forall (λ c, c ∈ alphabet ∨ c = pad) (b64encode bs)
  ∧ length (b64encode bs) = 4 * ((length bs + 2) / 3).
Proof.
  assert (∀ n bs, length bs ≤ n →
            Forall (λ c, c ∈ alphabet ∨ c = pad) (b64encode bs)
            ∧ length (b64encode bs) = 4 * ((length bs + 2) / 3)) as H;
    [|by apply (H (length bs))].
  clear bs. induction n as [|n IH]; intros bs Hn.
  { destruct bs; [|simpl in Hn; lia]. split; [constructor | done]. }
  destruct bs as [|a [|b [|c rest]]].
  - split; [constructor | done].
  - split; [|done]. cbn [b64encode].
    repeat (constructor; [by (apply digit_in_alphabet || right)|]). constructor.
  - split; [|done]. cbn [b64encode].
    repeat (constructor; [by (apply digit_in_alphabet || right)|]). constructor.
  - destruct (IH rest) as [IH1 IH2]; [simpl in Hn; lia|].
    cbn [b64encode]. split.
    + repeat (constructor; [by apply digit_in_alphabet|]). exact IH1.
    + cbn [length]. rewrite IH2.
      replace (S (S (S (length rest))) + 2) with (1 * 3 + (length rest + 2)) by lia.
      rewrite Nat.div_add_l by done. lia.
Qed.

(** Absence of a character, by running the search. *)
Lemma not_elem_of_existsb (c : ascii) (l : list ascii) :
  existsb (Ascii.eqb c) l = false → c ∉ l.
Proof.
  intros E Hin. apply list_elem_of_In in Hin.
  assert (existsb (Ascii.eqb c) l = true) as E'; [|congruence].
  apply existsb_exists. exists c. split; [done | apply Ascii.eqb_refl].
Qed.

Lemma quote_is_no_digit c : c ∈ alphabet ∨ c = pad → c ≠ Py.DQUOTE.
Proof.
  intros Hc Heq. subst c.
  destruct Hc as [H|H]; [by apply not_elem_of_existsb in H | done].
Qed.
End payload.

(** X14: whatever the entities are, the payload of the download link is
    made of base64 digits and [=] only, four characters for every three
    bytes (or final part of three) of the delimited text; so no character
    of an entity text reaches the markup, and the payload holds no double
    quote that could end the [href] attribute early. *)
Theorem payload_is_base64_text (host : Platform) (df : DataFrame) :
  let payload := encode (export_payload host df) in
  Forall (λ c, c ∈ Base64.alphabet ∨ c = "="%char) payload
  ∧ length payload = 4 * ((length (encode (to_csv host df)) + 2) / 3)
  ∧ Py.DQUOTE ∉ payload.
Proof.
  intros payload. subst payload. unfold export_payload, encode, decode.
  rewrite String.list_ascii_of_string_of_list_ascii.
  destruct (b64encode_shape (list_ascii_of_string (to_csv host df))) as [Hall Hlen].
  split; [done|]. split; [done|].
  intros Hin. rewrite Forall_forall in Hall.
  by apply (quote_is_no_digit _ (Hall _ Hin)).
Qed.

(** *** From the markup to the file *)

Lemma strip_prefix_app p s : Anchor.strip_prefix p (p +:+ s) = Some s.
Proof.
  induction p as [|a p IH]; [done|].
  rewrite append_cons. cbn [Anchor.strip_prefix]. by rewrite Ascii.eqb_refl.
Qed.

Lemma until_app c s rest :
  c ∉ list_ascii_of_string s →
  Anchor.until c (s +:+ String c rest) = Some (s, rest).
Proof.
  induction s as [|a s IH]; intros Hc.
  - rewrite append_nil_l. cbn [Anchor.until]. by rewrite Ascii.eqb_refl.
  - rewrite append_cons. cbn [Anchor.until].
    change (list_ascii_of_string (String a s))
      with (a :: list_ascii_of_string s) in Hc.
    apply not_elem_of_cons in Hc as [Hne Hc].
    destruct (Ascii.eqb a c) eqn:E; [by apply Ascii.eqb_eq in E|].
    by rewrite (IH Hc).
Qed.

Lemma list_ascii_of_string_app a b :
  list_ascii_of_string (a +:+ b) = list_ascii_of_string a ++ list_ascii_of_string b.
Proof.
  induction a as [|c a IH]; [done|]. rewrite append_cons. simpl. by rewrite IH.
Qed.

Lemma DQ_append s : DQ +:+ s = String Py.DQUOTE s.
Proof. reflexivity. Qed.

(** The attributes of the link around a payload without a quote. *)
Lemma attributes_download_link b64 :
  Py.DQUOTE ∉ list_ascii_of_string b64 →
  Anchor.attributes (download_link b64)
  = Some ("data:file/csv;base64," +:+ b64, "entities.csv").
Proof.
  intros Hq. unfold Anchor.attributes, download_link.
  rewrite <- (append_assoc "<a href=" DQ), strip_prefix_app. cbn [mbind option_bind].
  rewrite <- (append_assoc "data:file/csv;base64," b64).
  rewrite (DQ_append (" download=" +:+ _)), until_app; [done|].
  rewrite list_ascii_of_string_app, elem_of_app. intros [H|H]; [|done].
  revert H. by apply not_elem_of_existsb.
Qed.

Lemma saved_file_download_link host df :
  saved_file (download_link (export_payload host df))
  = Some ("entities.csv", to_csv host df).
Proof.
  unfold saved_file. rewrite attributes_download_link.
  - cbn [mbind option_bind]. rewrite strip_prefix_app. cbn [mbind option_bind].
    by rewrite downloaded_export_payload.
  - unfold export_payload, decode.
    rewrite String.list_ascii_of_string_of_list_ascii. intros Hin.
    destruct (b64encode_shape (encode (to_csv host df))) as [Hall _].
    rewrite Forall_forall in Hall.
    by apply (quote_is_no_digit _ (Hall _ Hin)).
Qed.

(** X15: whenever tab 2 shows a link, a browser that reads the markup as an
    anchor (attribute values end at the next double quote) and follows its
    [data:] URI saves a file named [entities.csv] whose content is the
    delimited text of the table, whatever characters the entity texts
    contain; and reading that file back gives the table, when the writer
    has put in quotes every field that holds a carriage return or a line
    feed. *)
Theorem link_saves_the_export
    (req : Request) (doc : Doc) (σ : Cache) (body : string) :
  St (Tab 2) (StMarkdown body true) ∈ (tab2 req doc σ).2 →
  saved_file body = Some ("entities.csv", to_csv (os req) (entities_frame doc))
  ∧ (newlines_quoted (os req) (entities_frame doc) →
     (saved_file body ≫= λ file, read_export file.2) = Some (entities_frame doc)).
Proof.
  intros Hin.
  assert (body = download_link (export_payload (os req) (entities_frame doc)))
    as ->.
  { destruct (decide (ents doc = [])) as [He|He].
    - rewrite (tab2_empty _ _ _ He) in Hin. simpl in Hin.
      repeat (apply elem_of_cons in Hin as [Hin|Hin]; [discriminate|]).
      by apply elem_of_nil in Hin.
    - rewrite (tab2_nonempty _ _ _ He) in Hin. simpl in Hin.
      repeat (apply elem_of_cons in Hin as [Hin|Hin]; [by simplify_eq|]).
      by apply elem_of_nil in Hin. }
  rewrite saved_file_download_link. split; [done|]. intros Hq.
  cbn [mbind option_bind snd]. by apply read_entities_frame.
Qed.

Lemma link_saves_the_export_witness :
  let body :=
    download_link (export_payload Sample.host (entities_frame Sample.sample_doc)) in
  saved_file body
  = Some ("entities.csv", to_csv Sample.host (entities_frame Sample.sample_doc))
  ∧ (saved_file body ≫= λ file, read_export file.2)
    = Some (entities_frame Sample.sample_doc).
Proof.
  intros body.
  destruct (link_saves_the_export Sample.analyze_sample Sample.sample_doc ∅ body)
    as [Hfile Hread].
  - rewrite tab2_nonempty by discriminate.
    cbn [snd]. do 2 apply list_elem_of_further. apply list_elem_of_here.
  - split; [exact Hfile|]. apply Hread.
    apply newlines_quoted_sufficient. left. reflexivity.
Defined.

(** ** The tab bar and the tabs *)

(** Building the scatter plot shows nothing. *)
Lemma scatter_figure_silent req doc : emits (λ _, False) (scatter_figure req doc).
Proof. apply emits_scatter_figure. Qed.

(** Tab 4 starts with its subheader and writes to its own container only. *)
Lemma tab4_trace req doc σ :
  ∃ rest,
    (tab4 req doc σ).2
    = St (Tab 4) (StSubheader "Entity Network Visualization") :: rest
    ∧ ∀ c, c ≠ Tab 4 → view c rest = [].
Proof.
  assert (∀ e c, c ≠ Tab 4 → view c [St (Tab 4) e] = []) as Hone.
  { intros e c Hc. unfold view. simpl. by rewrite decide_False. }
  unfold tab4, bind, st, emit.
  destruct (bool_decide _); cbn [fst snd];
    [|eexists; split; [done|]; apply Hone].
  pose proof (scatter_figure_silent req doc σ) as Hs.
  destruct (scatter_figure req doc σ) as [[[e|fig] σ'] t]; cbn [fst snd] in *;
    (destruct t as [|ev t]; [|by apply Forall_cons in Hs as [[] _]]);
    eexists; (split; [done|]); intros c Hc; cbn [app].
  - by apply Hone.
  - change [St (Tab 4) ?a; St (Tab 4) ?b]
      with ([St (Tab 4) a] ++ [St (Tab 4) b]).
    by rewrite view_app, !Hone.
Qed.

(** The ways a click can go. *)
Lemma on_click_cases req nlp txt σ :
  (on_click req nlp txt σ).2 = [St Main (StError empty_input)]
  ∨ (on_click req nlp txt σ).2 = [Infer txt]
  ∨ ∃ doc,
      nlp txt = inr doc
      ∧ (on_click req nlp txt σ).2
        = [Infer txt; St Main (StTabs tab_labels)]
            ++ (tab1 req doc σ).2 ++ (tab2 req doc σ).2 ++ (tab3 doc σ).2
            ++ (tab4 req doc σ).2.
Proof.
  unfold on_click. destruct (negb _); [by left|]. right.
  destruct (nlp txt) as [e|doc] eqn:Hnlp.
  - left. by rewrite (analyze_raises _ _ _ _ _ Hnlp).
  - right. exists doc. split; [done|].
    rewrite (analyze_returns _ _ _ _ _ Hnlp).
    by destruct (tab4 req doc σ) as [[r4 σ4] t4].
Qed.

(** What the four tabs put where. *)
Lemma tabs_views req doc σ :
  let t := (tab1 req doc σ).2 ++ (tab2 req doc σ).2 ++ (tab3 doc σ).2
             ++ (tab4 req doc σ).2 in
  view Main t = []
  ∧ head (view (Tab 1) t) = Some (StSubheader "Entities Highlighted in Text")
  ∧ head (view (Tab 2) t) = Some (StSubheader "Extracted Entities")
  ∧ head (view (Tab 3) t) = Some (StSubheader "Entity Count by Type")
  ∧ head (view (Tab 4) t) = Some (StSubheader "Entity Network Visualization")
  ∧ ∀ i, ¬ (1 ≤ i ≤ 4) → view (Tab i) t = [].
Proof.
  intros t. subst t.
  destruct (tab4_trace req doc σ) as (rest & -> & Hrest).
  change (St (Tab 4) (StSubheader "Entity Network Visualization") :: rest)
    with ([St (Tab 4) (StSubheader "Entity Network Visualization")] ++ rest).
  rewrite tab1_run. cbn [snd].
  assert (∃ t2, (tab2 req doc σ).2 = St (Tab 2) (StSubheader "Extracted Entities") :: t2
                ∧ ∀ c, c ≠ Tab 2 → view c t2 = []) as (t2 & -> & H2).
  { destruct (decide (ents doc = [])) as [He|He];
      [rewrite (tab2_empty _ _ _ He) | rewrite (tab2_nonempty _ _ _ He)];
      (eexists; split; [done|]); intros c Hc; unfold view; simpl;
      by rewrite ?decide_False. }
  assert (∃ t3, (tab3 doc σ).2 = St (Tab 3) (StSubheader "Entity Count by Type") :: t3
                ∧ ∀ c, c ≠ Tab 3 → view c t3 = []) as (t3 & -> & H3).
  { destruct (decide (ents doc = [])) as [He|He];
      [rewrite (tab3_empty _ _ He) | rewrite (tab3_nonempty _ _ He)];
      (eexists; split; [done|]); intros c Hc; unfold view; simpl;
      by rewrite ?decide_False. }
  change (St (Tab 2) ?a :: t2) with ([St (Tab 2) a] ++ t2).
  change (St (Tab 3) ?a :: t3) with ([St (Tab 3) a] ++ t3).
  split; [by rewrite !view_app, H2, H3, Hrest|].
  split; [done|].
  split; [by rewrite !view_app|].
  split; [by rewrite !view_app, (H2 (Tab 3))|].
  split; [by rewrite !view_app, (H2 (Tab 4)), (H3 (Tab 4))|].
  intros i Hi. rewrite !view_app, H2, H3, Hrest by (intros [= ->]; lia).
  destruct i as [|[|[|[|[|i]]]]]; try lia; done.
Qed.

(** What a click puts in the main area and in the tabs. *)
Lemma click_views req nlp σ r t :
  (if button_clicked req then on_click req nlp (text_input req) else ret tt) σ
  = (r, σ, t) →
  ((StTabs tab_labels ∉ view Main t) ∧ ∀ i, view (Tab i) t = [])
  ∨ (StTabs tab_labels ∈ view Main t
     ∧ head (view (Tab 1) t) = Some (StSubheader "Entities Highlighted in Text")
     ∧ head (view (Tab 2) t) = Some (StSubheader "Extracted Entities")
     ∧ head (view (Tab 3) t) = Some (StSubheader "Entity Count by Type")
     ∧ head (view (Tab 4) t) = Some (StSubheader "Entity Network Visualization")
     ∧ ∀ i, ¬ (1 ≤ i ≤ 4) → view (Tab i) t = []).
Proof.
  intros Hclick. destruct (button_clicked req).
  2:{ unfold ret in Hclick. simplify_eq. left. split; [|done]. apply not_elem_of_nil. }
  destruct (on_click_cases req nlp (text_input req) σ) as [H|[H|(doc & _ & H)]];
    rewrite Hclick in H; cbn [snd] in H; subst t.
  - left. split; [|done]. cbn. not_among.
  - left. split; [|done]. apply not_elem_of_nil.
  - right. destruct (tabs_views req doc σ) as (Hm & H1 & H2 & H3 & H4 & Hout).
    rewrite !(view_app _ [_; _]), Hm. cbn [app].
    split; [apply list_elem_of_here|]. done.
Qed.

(** X16: the tabs are filled all together or not at all.  When a run
    creates the tab bar, with its four labels, each of the four tabs gets
    content, starting with its subheader; when it creates none, no tab gets
    anything; and nothing is ever put in a tab beyond the four. *)
Theorem tabs_all_or_none (req : Request) (σ : Cache) :
  let t := (run req σ).2 in
  (StTabs tab_labels ∈ view Main t →
   head (view (Tab 1) t) = Some (StSubheader "Entities Highlighted in Text")
   ∧ head (view (Tab 2) t) = Some (StSubheader "Extracted Entities")
   ∧ head (view (Tab 3) t) = Some (StSubheader "Entity Count by Type")
   ∧ head (view (Tab 4) t) = Some (StSubheader "Entity Network Visualization"))
  ∧ (StTabs tab_labels ∉ view Main t → ∀ i, view (Tab i) t = [])
  ∧ (∀ i, ¬ (1 ≤ i ≤ 4) → view (Tab i) t = []).
Proof.
  intros t. subst t. destruct (pipeline req σ) as [nlp|] eqn:Hp.
  2:{ rewrite (run_no_pipeline req σ Hp). cbn [snd].
      split; [|done]. intros Hin. exfalso. revert Hin. cbn. not_among. }
  destruct (run_pipeline req σ nlp Hp) as (t0 & r & t & Ht0 & Hclick & _ & ->).
  cbn [snd]. specialize (Hclick σ).
  set (tail := match r with inr _ => footer_events | inl _ => [] end).
  assert (∀ i, view (Tab i) tail = []) as Htail by (by destruct r).
  assert (∀ i, view (Tab i)
            (header_events ++ (t0 ++ [loaded_event (selected_model req)])
               ++ input_events ++ t ++ tail)
          = view (Tab i) t) as Hv.
  { intros i. rewrite !view_app, Htail.
    assert (view (Tab i) t0 = []) as -> by (by destruct Ht0 as [[-> _]|[-> _]]).
    cbn [app]. change (view (Tab i) header_events) with (@nil Element).
    change (view (Tab i) input_events) with (@nil Element).
    change (view (Tab i) [loaded_event (selected_model req)]) with (@nil Element).
    cbn [app]. apply app_nil_r. }
  assert (StTabs tab_labels
            ∈ view Main (header_events ++ (t0 ++ [loaded_event (selected_model req)])
                           ++ input_events ++ t ++ tail)
          ↔ StTabs tab_labels ∈ view Main t) as Hm.
  { rewrite !view_app, !elem_of_app. split; [|tauto].
    intros [H|[[H|H]|[H|[H|H]]]]; [| | | |done|]; exfalso; revert H.
    - cbn. not_among.
    - destruct Ht0 as [[-> _]|[-> _]]; cbn; not_among.
    - cbn. not_among.
    - cbn. not_among.
    - subst tail. destruct r; cbn; not_among. }
  rewrite !Hv, Hm.
  destruct (click_views req nlp σ r t Hclick) as [[Hno Hnone]|(Hyes & H1 & H2 & H3 & H4 & Hout)].
  - split; [by intros ?|]. split; intros; by rewrite Hv.
  - split; [done|]. split; [by intros ?|]. intros i Hi. rewrite Hv. by apply Hout.
Qed.

(** ** How a run ends *)

(** With the categories listed as a set lists them, tab 4 returns unless
    the layout of its figure rejects an entity text. *)
Lemma tab4_result req doc σ :
  set_listing (set_iter req (label_ <$> ents doc)) (label_ <$> ents doc) →
  (tab4 req doc σ).1.1
  = match layout_error (mathtext req) (text <$> ents doc) with
    | Some msg => inl (ValueError msg)
    | None => inr tt
    end.
Proof.
  intros Hu. destruct (decide (ents doc = [])) as [He|He].
  - rewrite (tab4_empty _ _ _ He). by rewrite He.
  - pose proof (scatter_figure_outcome req doc σ Hu) as Hfig.
    destruct (layout_error _ _) as [msg|].
    + by rewrite (tab4_raises _ _ _ _ He Hfig).
    + by rewrite (tab4_nonempty _ _ _ _ He Hfig).
Qed.

Lemma on_click_result req nlp txt σ :
  (∀ l, set_listing (set_iter req l) l) →
  (on_click req nlp txt σ).1.1
  = if is_blank txt then inr tt
    else match nlp txt with
         | inl e => inl e
         | inr doc =>
             match layout_error (mathtext req) (text <$> ents doc) with
             | Some msg => inl (ValueError msg)
             | None => inr tt
             end
         end.
Proof.
  intros Hset. unfold on_click. rewrite truthy_strip, negb_involutive.
  destruct (is_blank txt); [done|].
  destruct (nlp txt) as [e|doc] eqn:Hnlp.
  - by rewrite (analyze_raises _ _ _ _ _ Hnlp).
  - rewrite (analyze_returns _ _ _ _ _ Hnlp).
    pose proof (tab4_result req doc σ (Hset _)) as H4.
    by destruct (tab4 req doc σ) as [[r4 σ4] t4].
Qed.

(** X17: how a run ends, as long as [list(set(...))] lists each distinct
    label once.  Without a pipeline the run is halted by [st.stop()]; with
    one it completes, unless the button was clicked on a text that is not
    blank and either the pipeline raises on that text, in which case the
    run ends with that exception, or the layout of the scatter plot rejects
    the text of an entity, in which case it ends with the [ValueError] of
    [plt.tight_layout()].  So these are the only exceptions that can escape
    the script: neither the lookup [type_to_num[ent_type]] nor the indexing
    [y_values[i]] fails. *)
Theorem how_a_run_ends (req : Request) (σ : Cache) :
  (∀ l, set_listing (set_iter req l) l) →
  (run req σ).1.1
  = match pipeline req σ with
    | None => Stopped
    | Some nlp =>
        if button_clicked req && negb (is_blank (text_input req))
        then match nlp (text_input req) with
             | inl e => status_of (inl e)
             | inr doc =>
                 match layout_error (mathtext req) (text <$> ents doc) with
                 | Some msg => Crashed (ValueError msg)
                 | None => Completed
                 end
             end
        else Completed
    end
  ∧ ∀ e, (run req σ).1.1 = Crashed e →
         ∃ nlp, pipeline req σ = Some nlp ∧ button_clicked req = true
                ∧ ¬ Py.blank (text_input req)
                ∧ (nlp (text_input req) = inl e
                   ∨ ∃ doc msg,
                       nlp (text_input req) = inr doc
                       ∧ layout_error (mathtext req) (text <$> ents doc) = Some msg
                       ∧ e = ValueError msg).
Proof.
  intros Hset.
  assert ((run req σ).1.1
          = match pipeline req σ with
            | None => Stopped
            | Some nlp =>
                if button_clicked req && negb (is_blank (text_input req))
                then match nlp (text_input req) with
                     | inl e => status_of (inl e)
                     | inr doc =>
                         match layout_error (mathtext req) (text <$> ents doc) with
                         | Some msg => Crashed (ValueError msg)
                         | None => Completed
                         end
                     end
                else Completed
            end) as Hend.
  { destruct (pipeline req σ) as [nlp|] eqn:Hp.
    - destruct (run_pipeline req σ nlp Hp) as (t0 & r & t & _ & Hclick & _ & ->).
      cbn [fst]. specialize (Hclick σ). destruct (button_clicked req).
      + pose proof (on_click_result req nlp (text_input req) σ Hset) as Hr.
        rewrite Hclick in Hr. cbn [fst] in Hr. subst r. simpl.
        destruct (is_blank (text_input req)); [done|].
        destruct (nlp (text_input req)) as [e|doc]; [done|].
        by destruct (layout_error _ _).
      + unfold ret in Hclick. by simplify_eq.
    - by rewrite (run_no_pipeline req σ Hp). }
  split; [done|]. intros e He. rewrite Hend in He.
  destruct (pipeline req σ) as [nlp|]; [|done]. exists nlp.
  destruct (button_clicked req); [|done]. simpl in He.
  destruct (is_blank (text_input req)) eqn:Hb; [done|]. simpl in He.
  split; [done|]. split; [done|]. split; [by apply not_blank_by_computation|].
  destruct (nlp (text_input req)) as [e'|doc].
  - left. destruct e'; simpl in He; by simplify_eq.
  - right. exists doc. destruct (layout_error _ _) as [msg|]; [|done].
    exists msg. by simplify_eq.
Qed.

Lemma how_a_run_ends_witness :
  (run Faults.analyze_refused ∅).1.1
  = Crashed (ValueError "[E088] Text exceeds maximum of 1000000.")
  ∧ (run Sample.analyze_sample ∅).1.1 = Completed
  ∧ (run Faults.analyze_price ∅).1.1 = Crashed (ValueError Faults.rejected).
Proof.
  split; [|split].
  - refine (proj1 (how_a_run_ends Faults.analyze_refused ∅ _)).
    intros l. unfold set_listing. reflexivity.
  - refine (proj1 (how_a_run_ends Sample.analyze_sample ∅ _)).
    intros l. unfold set_listing. reflexivity.
  - refine (proj1 (how_a_run_ends Faults.analyze_price ∅ _)).
    intros l. unfold set_listing. reflexivity.
Defined.
